(** * Drive3: the batch reorganisation orchestrator

    A shallow embedding of the review state machine ([App.tsx]), the folder
    path resolver and the remote mutation applier ([services/driveService]),
    the classification gateway ([services/geminiService]) and the sync
    executor ([handleSyncToDrive]), followed by the properties that the
    design document states about them.

    Conventions.
    - A JavaScript string is a [string]; every character stands for one code
      unit below 256.  A string is truthy when it is not empty.
    - [undefined] / [null] / an absent optional field is [None].
    - An [async] function that may throw is a state transformer returning a
      [Result]: [Ok v] when the promise resolves, [Throw e] when it rejects.
    - The remote store behind [window.gapi.client.drive.files] is an
      interface ([DriveApi]) over an arbitrary world; the proofs hold for
      every implementation of it, and [FakeDrive] is one that can be run. *)

From Stdlib Require Import Ascii String QArith.
From stdpp Require Import gmap strings list fin_maps pretty.

Set Default Proof Using "Type".
Local Open Scope string_scope.
Local Open Scope list_scope.

(* ===================================================================== *)
(** ** JavaScript strings and arrays *)
(* ===================================================================== *)

Module Js.

(** [!!s] for a string: the empty string is the only falsy one. *)
Definition truthy (s : string) : bool := negb (String.eqb s "").

(** [s.split(sep)] for a one-character separator. *)
Fixpoint split (sep : ascii) (s : string) : list string :=
  match s with
  | EmptyString => [""]
  | String c r =>
      if Ascii.eqb c sep then "" :: split sep r
      else match split sep r with
           | [] => [String c ""]
           | h :: t => String c h :: t
           end
  end.

(** White space and line terminators of ECMAScript below code unit 256:
    TAB, LF, VT, FF, CR, SP and NBSP. *)
Definition isWhiteSpace (c : ascii) : bool :=
  let n := nat_of_ascii c in
  (Nat.leb 9 n && Nat.leb n 13) || Nat.eqb n 32 || Nat.eqb n 160.

Fixpoint trimStart (s : string) : string :=
  match s with
  | EmptyString => ""
  | String c r => if isWhiteSpace c then trimStart r else s
  end.

Fixpoint trimEnd (s : string) : string :=
  match s with
  | EmptyString => ""
  | String c r =>
      let r' := trimEnd r in
      if isWhiteSpace c && String.eqb r' "" then "" else String c r'
  end.

(** [s.trim()] *)
Definition trim (s : string) : string := trimEnd (trimStart s).

(** [a.join(sep)] *)
Fixpoint join (sep : string) (a : list string) : string :=
  match a with
  | [] => ""
  | [x] => x
  | x :: rest => x +:+ sep +:+ join sep rest
  end.

(** [a.includes(x)] on an array of strings. *)
Definition includes (a : list string) (x : string) : bool :=
  existsb (String.eqb x) a.

(** [a.find(p)] *)
Definition find {A} (p : A -> bool) (a : list A) : option A := List.find p a.

(** [s.substring(0, n)] *)
Fixpoint substring0 (n : nat) (s : string) : string :=
  match n, s with
  | S k, String c r => String c (substring0 k r)
  | _, _ => ""
  end.

(** [name.replace(/'/g, "\\'")]: a backslash before every apostrophe. *)
Fixpoint escapeQuotes (s : string) : string :=
  match s with
  | EmptyString => ""
  | String c r =>
      if Ascii.eqb c "'"%char
      then String "\"%char (String "'"%char (escapeQuotes r))
      else String c (escapeQuotes r)
  end.

End Js.

(* ===================================================================== *)
(** ** Results of calls that may throw *)
(* ===================================================================== *)

(** The exceptions that the code raises or lets through. *)
Inductive Exn : Type :=
| Error (msg : string)        (* [new Error(msg)] *)
| TypeError (msg : string)    (* property access on null, call of a non-function *)
| SyntaxError                 (* [JSON.parse] on text that is not JSON *)
| RangeError                  (* [toISOString] on an invalid date *)
| RemoteError (msg : string). (* a rejected remote request *)

Inductive Result (A : Type) : Type :=
| Ok (a : A)
| Throw (e : Exn).
Arguments Ok {A} a.
Arguments Throw {A} e.

Definition isOk {A} (r : Result A) : bool :=
  match r with Ok _ => true | Throw _ => false end.

(** State and exception monad: [M S A] is an effectful computation on a
    state [S]; a [Throw] keeps the state reached so far. *)
Definition M (S A : Type) : Type := S -> Result A * S.

Definition ret {S A} (a : A) : M S A := fun s => (Ok a, s).

Definition throw {S A} (e : Exn) : M S A := fun s => (Throw e, s).

Definition bind {S A B} (m : M S A) (k : A -> M S B) : M S B :=
  fun s => match m s with
           | (Ok a, s1) => k a s1
           | (Throw e, s1) => (Throw e, s1)
           end.

(** [try { m } catch (err) { h err }] *)
Definition tryCatch {S A} (m : M S A) (h : Exn -> M S A) : M S A :=
  fun s => match m s with
           | (Ok a, s1) => (Ok a, s1)
           | (Throw e, s1) => h e s1
           end.

Definition modify {S} (f : S -> S) : M S unit := fun s => (Ok tt, f s).

Declare Scope js_scope.
Delimit Scope js_scope with js.
Notation "x <- m ;; k" := (bind m (fun x => k))
  (at level 100, m at next level, right associativity) : js_scope.
Notation "m ;;; k" := (bind m (fun _ => k))
  (at level 100, right associativity) : js_scope.

(* ===================================================================== *)
(** ** Data model ([types.ts]) *)
(* ===================================================================== *)

Inductive AppState : Type := IDLE | ANALYZING | REVIEW | COMPLETED.

Inductive FileCategory : Type :=
| WORK | PERSONAL | FINANCE | LEGAL | PHOTOS_VIDEOS | LEARNING | TEMPLATES | ARCHIVE.

Inductive SensitivityLevel : Type := Normal | Confidential | HighRisk.

Inductive Status : Type := pending | approved | rejected | synced | error.

Definition Status_eqb (a b : Status) : bool :=
  match a, b with
  | pending, pending | approved, approved | rejected, rejected
  | synced, synced | error, error => true
  | _, _ => false
  end.

Module DriveFile.
Record t : Type := mk {
  id : string;
  name : string;
  size : Z;
  type : string;
  contentSnippet : option string;
  lastModified : Z;
  thumbnailLink : option string;
  webViewLink : option string;
  iconLink : option string;
  parents : option (list string)
}.
End DriveFile.

Module AnalysisResult.
Record t : Type := mk {
  fileId : string;
  category : FileCategory;
  suggestedPath : string;
  suggestedName : string;
  shouldArchive : bool;
  sensitivity : SensitivityLevel;
  reasoning : string;
  confidence : Q
}.
End AnalysisResult.

(** [Partial<AnalysisResult>]: every key may be absent. *)
Module PartialAnalysis.
Record t : Type := mk {
  fileId : option string;
  category : option FileCategory;
  suggestedPath : option string;
  suggestedName : option string;
  shouldArchive : option bool;
  sensitivity : option SensitivityLevel;
  reasoning : option string;
  confidence : option Q
}.

Definition empty : t := mk None None None None None None None None.
End PartialAnalysis.

(** [interface ProcessedFile extends DriveFile]: the descriptor, with the
    two added fields.  The spread [{ ...f, status: s }] copies [file] and
    [analysis] and sets [status]. *)
Module ProcessedFile.
Record t : Type := mk {
  file : DriveFile.t;
  analysis : option AnalysisResult.t;
  status : Status
}.

Definition id (f : t) : string := DriveFile.id (file f).
Definition withStatus (s : Status) (f : t) : t := mk (file f) (analysis f) s.
Definition withAnalysis (a : AnalysisResult.t) (f : t) : t := mk (file f) (Some a) (status f).
End ProcessedFile.

(** [{ ...a, ...updates }]: a key present in [updates] replaces the one of
    [a].  (A key present with the value [undefined] is not a
    [PartialAnalysis.t]; the type of [onUpdate] callers rules it out.) *)
Definition mergeAnalysis (a : AnalysisResult.t) (u : PartialAnalysis.t) : AnalysisResult.t :=
  AnalysisResult.mk
    (default (AnalysisResult.fileId a) (PartialAnalysis.fileId u))
    (default (AnalysisResult.category a) (PartialAnalysis.category u))
    (default (AnalysisResult.suggestedPath a) (PartialAnalysis.suggestedPath u))
    (default (AnalysisResult.suggestedName a) (PartialAnalysis.suggestedName u))
    (default (AnalysisResult.shouldArchive a) (PartialAnalysis.shouldArchive u))
    (default (AnalysisResult.sensitivity a) (PartialAnalysis.sensitivity u))
    (default (AnalysisResult.reasoning a) (PartialAnalysis.reasoning u))
    (default (AnalysisResult.confidence a) (PartialAnalysis.confidence u)).

(* ===================================================================== *)
(** ** Review state machine ([App.tsx], component state and handlers) *)
(* ===================================================================== *)

Inductive SourceMode : Type := upload | drive.

Record Progress : Type := mkProgress { current : nat; total : nat }.

(** The [useState] cells of [App] that the orchestrator reads or writes
    (the login form cells [inputKey] and [isLoadingSession] play no part). *)
Module App.
Record t : Type := mk {
  apiKey : option string;
  sourceMode : SourceMode;
  isSyncing : bool;
  syncProgress : Progress;
  appState : AppState;
  files : list ProcessedFile.t;
  error : option string
}.

(** The initial values given to [useState]. *)
Definition init : t :=
  mk None drive false (mkProgress 0 0) IDLE [] None.
End App.

(** The state setters.  A setter called with an updater function applies
    it to the latest value; updates take effect in the order of the calls. *)
Definition setFiles (upd : list ProcessedFile.t -> list ProcessedFile.t) : M App.t unit :=
  modify (fun a => App.mk (App.apiKey a) (App.sourceMode a) (App.isSyncing a)
                     (App.syncProgress a) (App.appState a) (upd (App.files a)) (App.error a)).

Definition setAppState (v : AppState) : M App.t unit :=
  modify (fun a => App.mk (App.apiKey a) (App.sourceMode a) (App.isSyncing a)
                     (App.syncProgress a) v (App.files a) (App.error a)).

Definition setError (v : option string) : M App.t unit :=
  modify (fun a => App.mk (App.apiKey a) (App.sourceMode a) (App.isSyncing a)
                     (App.syncProgress a) (App.appState a) (App.files a) v).

Definition setIsSyncing (v : bool) : M App.t unit :=
  modify (fun a => App.mk (App.apiKey a) (App.sourceMode a) v
                     (App.syncProgress a) (App.appState a) (App.files a) (App.error a)).

Definition setSyncProgress (upd : Progress -> Progress) : M App.t unit :=
  modify (fun a => App.mk (App.apiKey a) (App.sourceMode a) (App.isSyncing a)
                     (upd (App.syncProgress a)) (App.appState a) (App.files a) (App.error a)).

(** [prev.map(f => f.id === id ? { ...f, status: s } : f)] *)
Definition markStatus (id : string) (s : Status) (prev : list ProcessedFile.t)
  : list ProcessedFile.t :=
  map (fun f => if String.eqb (ProcessedFile.id f) id
                then ProcessedFile.withStatus s f else f) prev.

Definition handleApprove (id : string) : M App.t unit :=
  setFiles (markStatus id approved).

Definition handleReject (id : string) : M App.t unit :=
  setFiles (markStatus id rejected).

Definition handleApproveAll : M App.t unit :=
  setFiles (fun prev =>
    map (fun f => if Status_eqb (ProcessedFile.status f) pending
                  then ProcessedFile.withStatus approved f else f) prev).

Definition handleUpdateAnalysis (id : string) (updates : PartialAnalysis.t) : M App.t unit :=
  setFiles (fun prev =>
    map (fun f =>
           if String.eqb (ProcessedFile.id f) id then
             match ProcessedFile.analysis f with
             | Some a => ProcessedFile.withAnalysis (mergeAnalysis a updates) f
             | None => f
             end
           else f) prev).

(** The action cell of a row of [ReviewTable]: the reject and approve
    buttons are rendered for a [pending] record; another status shows a
    label and no button. *)
Inductive RowAction : Type := ClickReject | ClickApprove.

Definition rowActions (file : ProcessedFile.t) : list RowAction :=
  if Status_eqb (ProcessedFile.status file) pending
  then [ClickReject; ClickApprove] else [].

(** First half of [handleFilesSelected]: every selected descriptor becomes
    a [pending] record, replacing the list. *)
Definition ingest (selectedFiles : list DriveFile.t) : list ProcessedFile.t :=
  map (fun f => ProcessedFile.mk f None pending) selectedFiles.

(** Second half: [prev.map(f => { const result = results.find(r =>
    r.fileId === f.id); return result ? { ...f, analysis: result } : f })]. *)
Definition mergeResults (analysisResults : list AnalysisResult.t)
    (prev : list ProcessedFile.t) : list ProcessedFile.t :=
  map (fun f =>
         match Js.find (fun r => String.eqb (AnalysisResult.fileId r) (ProcessedFile.id f))
                       analysisResults with
         | Some result => ProcessedFile.withAnalysis result f
         | None => f
         end) prev.

(* ===================================================================== *)
(** ** The remote store ([window.gapi.client.drive.files]) *)
(* ===================================================================== *)

(** The [params] object handed to [files.update]. *)
Record UpdateParams : Type := mkUpdateParams {
  fileId : string;
  resource_name : string;          (* [resource: { name }] *)
  addParents : option string;
  removeParents : option string
}.

(** The three requests that the write operations send.  Each one runs on
    the world of the store and either resolves or rejects.
    - [files_list q]: [files.list({ q, fields: 'files(id)', pageSize: 1 })],
      giving the identifiers of [response.result.files];
    - [files_create name parentId]: [files.create] of a folder [name] whose
      [parents] is [[parentId]], giving [response.result.id];
    - [files_update params]: [files.update(params)]. *)
Class DriveApi : Type := {
  World : Type;
  files_list : string -> World -> Result (list string) * World;
  files_create : string -> string -> World -> Result string * World;
  files_update : UpdateParams -> World -> Result unit * World
}.

(** What the write operations asked of the store, in the order of the
    calls: the folder lookups with their query, the create-folder calls of
    the path resolver, each with the path prefix it was issued for, and the
    update calls with their parameters; every call with its outcome. *)
Inductive Event : Type :=
| EvList (q : string) (r : Result (list string))
| EvCreate (prefix name parentId : string) (r : Result string)
| EvUpdate (params : UpdateParams) (r : Result unit).

(** The calls that write to the store. *)
Definition writes (tr : list Event) : list Event :=
  List.filter (fun e => match e with EvList _ _ => false | _ => true end) tr.

(* ===================================================================== *)
(** ** Folder path resolver and mutation applier ([services/driveService]) *)
(* ===================================================================== *)

(** The module state of [driveService] together with the store it talks
    to: [folderCache] is the module-level [const folderCache = {}]. *)
Record DriveSt `{DriveApi} : Type := mkDriveSt {
  folderCache : gmap string string;
  world : World;
  trace : list Event
}.
Arguments mkDriveSt {_} _ _ _.

(** [folderCache] is a plain object ([{}]), so reading [folderCache[key]]
    for a key that it does not own gives what [Object.prototype] holds under
    that name: a built-in function for eleven names, the prototype itself
    for [__proto__], and [undefined] otherwise.  The resolver goes on to use
    such a value as a folder identifier; it is represented here by the text
    that the template literal of [findFolder] makes of it (as V8 prints a
    built-in function; [constructor] is the function [Object]).  The text
    stands for the value wherever the value is handed on: as the parent of
    a create call and as the target of an update.  The one use that it
    does not follow is the strict comparison in [applyFileUpdate] with the
    parents of the file, which a function never equals: the two differ
    only for a file that lists this very text among its parents. *)
Definition prototypeFunctions : list string :=
  ["constructor"; "__defineGetter__"; "__defineSetter__"; "hasOwnProperty";
   "__lookupGetter__"; "__lookupSetter__"; "isPrototypeOf"; "propertyIsEnumerable";
   "toString"; "valueOf"; "toLocaleString"].

Definition inherited (key : string) : option string :=
  if String.eqb key "__proto__" then Some "[object Object]"
  else if String.eqb key "constructor" then Some "function Object() { [native code] }"
  else if Js.includes prototypeFunctions key
       then Some ("function " +:+ key +:+ "() { [native code] }")
       else None.

(** [folderCache[key]] is used as a condition: an empty identifier counts as
    a miss, as does a key that is neither owned nor inherited; an inherited
    name is a hit, since functions and objects are truthy. *)
Definition cacheHit (cache : gmap string string) (key : string) : option string :=
  match cache !! key with
  | Some id => if Js.truthy id then Some id else None
  | None => inherited key
  end.

(** [path.split('/').map(p => p.trim()).filter(p => p !== '')] *)
Definition pathParts (path : string) : list string :=
  List.filter (fun p => negb (String.eqb p ""))
              (map Js.trim (Js.split "/"%char path)).

(** [currentPathStr ? `${currentPathStr}/${part}` : part] *)
Definition extendPath (currentPathStr part : string) : string :=
  if Js.truthy currentPathStr then currentPathStr +:+ "/" +:+ part else part.

Definition folderQuery (name parentId : string) : string :=
  "mimeType = 'application/vnd.google-apps.folder' and name = '"
    +:+ Js.escapeQuotes name +:+ "' and '" +:+ parentId
    +:+ "' in parents and trashed = false".

(** The pure part of [applyFileUpdate]: the parameters of the request. *)
Definition updateParams (fileId newName : string)
    (currentParents : option (list string)) (targetFolderId : option string)
  : UpdateParams :=
  let renameOnly := mkUpdateParams fileId newName None None in
  match targetFolderId with
  | Some target =>
      if Js.truthy target && negb (String.eqb target "root") then
        let isAlreadyHere :=
          match currentParents with
          | Some ps => Js.includes ps target
          | None => false
          end in
        if negb isAlreadyHere then
          mkUpdateParams fileId newName (Some target)
            match currentParents with
            | Some ps => if Nat.ltb 0 (length ps) then Some (Js.join "," ps) else None
            | None => None
            end
        else renameOnly
      else renameOnly
  | None => renameOnly
  end.

Section DriveService.
Context `{api : DriveApi}.

Definition callList (q : string) : M DriveSt (list string) :=
  fun s => match files_list q (world s) with
           | (r, w) => (r, mkDriveSt (folderCache s) w (trace s))
           end.

Definition callCreate (name parentId : string) : M DriveSt string :=
  fun s => match files_create name parentId (world s) with
           | (r, w) => (r, mkDriveSt (folderCache s) w (trace s))
           end.

Definition callUpdate (params : UpdateParams) : M DriveSt unit :=
  fun s => match files_update params (world s) with
           | (r, w) => (r, mkDriveSt (folderCache s) w (trace s))
           end.

Definition cacheSet (key id : string) : M DriveSt unit :=
  modify (fun s => mkDriveSt (<[key := id]> (folderCache s)) (world s) (trace s)).

(** Run [m] and record its outcome, leaving the outcome as it is. *)
Definition logged {A} (m : M DriveSt A) (ev : Result A -> Event) : M DriveSt A :=
  fun s => match m s with
           | (r, s1) => (r, mkDriveSt (folderCache s1) (world s1) (trace s1 ++ [ev r]))
           end.

Definition findFolder (name parentId : string) : M DriveSt (option string) :=
  (files <- logged (callList (folderQuery name parentId))
                   (EvList (folderQuery name parentId)) ;;
   ret (match files with
        | id :: _ => Some id
        | [] => None
        end))%js.

Definition createFolder (name parentId : string) : M DriveSt string :=
  callCreate name parentId.

(** [// Check Drive]: [let folderId = await findFolder(part, parent);
    if (!folderId) { folderId = await createFolder(part, parent) }].  The
    create call is recorded with the prefix it is issued for. *)
Definition checkDrive (currentPathStr part currentParentId : string) : M DriveSt string :=
  (found <- findFolder part currentParentId ;;
   match found with
   | Some id =>
       if Js.truthy id then ret id
       else logged (createFolder part currentParentId)
                   (EvCreate currentPathStr part currentParentId)
   | None => logged (createFolder part currentParentId)
                    (EvCreate currentPathStr part currentParentId)
   end)%js.

(** [for (const part of parts)], with the two loop variables. *)
Fixpoint ensureLoop (parts : list string) (currentParentId currentPathStr : string)
  : M DriveSt string :=
  match parts with
  | [] => ret currentParentId
  | part :: rest =>
      let currentPathStr := extendPath currentPathStr part in
      fun s =>
        match cacheHit (folderCache s) currentPathStr with
        | Some id => ensureLoop rest id currentPathStr s          (* [continue] *)
        | None =>
            (folderId <- checkDrive currentPathStr part currentParentId ;;
             cacheSet currentPathStr folderId ;;;
             ensureLoop rest folderId currentPathStr)%js s
        end
  end.

Definition ensureFolderPath (path : string) : M DriveSt string :=
  let parts := pathParts path in
  if Nat.eqb (length parts) 0 then ret "root"
  else ensureLoop parts "root" "".

Definition applyFileUpdate (fileId newName : string)
    (currentParents : option (list string)) (targetFolderId : option string)
  : M DriveSt unit :=
  let params := updateParams fileId newName currentParents targetFolderId in
  logged (callUpdate params) (EvUpdate params).

End DriveService.

(* ===================================================================== *)
(** ** Sync executor ([handleSyncToDrive] in [App.tsx]) *)
(* ===================================================================== *)

Definition liftApp {D A} (m : M App.t A) : M (App.t * D) A :=
  fun s => match m (fst s) with (r, a) => (r, (a, snd s)) end.

Definition liftDrive {D A} (m : M D A) : M (App.t * D) A :=
  fun s => match m (snd s) with (r, d) => (r, (fst s, d)) end.

Definition isApproved (f : ProcessedFile.t) : bool :=
  Status_eqb (ProcessedFile.status f) approved.

Section SyncExecutor.
Context `{api : DriveApi}.

(** Step 1 of the loop body: the target folder, [undefined] when the
    suggested path is empty, ["/"] or ["."]. *)
Definition resolveTarget (a : AnalysisResult.t) : M DriveSt (option string) :=
  let p := AnalysisResult.suggestedPath a in
  if Js.truthy p && negb (String.eqb p "/") && negb (String.eqb p ".")
  then (id <- ensureFolderPath p ;; ret (Some id))%js
  else ret None.

(** Steps 1 and 2: what stands inside [try]. *)
Definition syncFile (file : ProcessedFile.t) (a : AnalysisResult.t) : M DriveSt unit :=
  (targetFolderId <- resolveTarget a ;;
   applyFileUpdate (ProcessedFile.id file) (AnalysisResult.suggestedName a)
                   (DriveFile.parents (ProcessedFile.file file)) targetFolderId)%js.

(** [for (let i = 0; i < approvedFiles.length; i++)], from index [i] on. *)
Fixpoint syncLoop (approvedFiles : list ProcessedFile.t) (i : nat)
  : M (App.t * DriveSt) unit :=
  match approvedFiles with
  | [] => ret tt
  | file :: rest =>
      match ProcessedFile.analysis file with
      | None => syncLoop rest (S i)                         (* [continue] *)
      | Some a =>
          (tryCatch
             (liftDrive (syncFile file a) ;;;
              liftApp (setFiles (markStatus (ProcessedFile.id file) synced)))
             (fun _ =>
              liftApp (setFiles (markStatus (ProcessedFile.id file) error))) ;;;
           liftApp (setSyncProgress (fun prev => mkProgress (i + 1) (total prev))) ;;;
           syncLoop rest (S i))%js
      end
  end.

(** [handleSyncToDrive], up to [setIsSyncing(false)].  (The dialog that
    offers a new batch half a second later is a separate user action.) *)
Definition handleSyncToDrive : M (App.t * DriveSt) unit :=
  fun s =>
    match App.sourceMode (fst s) with
    | upload => (Ok tt, s)
    | drive =>
        let approvedFiles := List.filter isApproved (App.files (fst s)) in
        if Nat.eqb (length approvedFiles) 0 then (Ok tt, s)
        else
          (liftApp (setIsSyncing true) ;;;
           liftApp (setSyncProgress (fun _ => mkProgress 0 (length approvedFiles))) ;;;
           syncLoop approvedFiles 0 ;;;
           liftApp (setIsSyncing false))%js s
    end.

End SyncExecutor.

(** [handleFilesSelected], given the outcome of [analyzeFilesBatch] as its
    signature types it ([Promise<AnalysisResult[]>]). *)
Definition handleFilesSelected (selectedFiles : list DriveFile.t)
    (analyze : Result (list AnalysisResult.t)) : M App.t unit :=
  (setFiles (fun _ => ingest selectedFiles) ;;;
   setAppState ANALYZING ;;;
   setError None ;;;
   tryCatch
     (fun a =>
        match App.apiKey a with
        | Some key =>
            if Js.truthy key then
              match analyze with
              | Ok analysisResults =>
                  (setFiles (mergeResults analysisResults) ;;;
                   setAppState REVIEW)%js a
              | Throw e => throw e a
              end
            else throw (Error "Session expired. Please sign in again.") a
        | None => throw (Error "Session expired. Please sign in again.") a
        end)
     (fun _ =>
        setError (Some "Gemini failed to analyze the files. Please ensure your API key is valid.") ;;;
        setAppState IDLE))%js.

(** [handleLogin] once the key passed the length test, and the reset. *)
Definition setApiKey (v : option string) : M App.t unit :=
  modify (fun a => App.mk v (App.sourceMode a) (App.isSyncing a)
                     (App.syncProgress a) (App.appState a) (App.files a) (App.error a)).

Definition setSourceMode (v : SourceMode) : M App.t unit :=
  modify (fun a => App.mk (App.apiKey a) v (App.isSyncing a)
                     (App.syncProgress a) (App.appState a) (App.files a) (App.error a)).

Definition handleReset : M App.t unit :=
  (setFiles (fun _ => []) ;;; setAppState IDLE)%js.

(* ===================================================================== *)
(** ** Sessions: sequences of user actions *)
(* ===================================================================== *)

Inductive UserAction : Type :=
| SelectFiles (selectedFiles : list DriveFile.t)
              (analyze : Result (list AnalysisResult.t))
| Login (key : string)
| ChooseSource (mode : SourceMode)
| Approve (id : string)
| Reject (id : string)
| ApproveAll
| UpdateAnalysis (id : string) (updates : PartialAnalysis.t)
| SyncToDrive
| StartOver.

(** Identifiers are unique within a selection: [DriveSelector] filters the
    listing of one folder by a set of identifiers. *)
Definition wellFormed (a : UserAction) : Prop :=
  match a with
  | SelectFiles selectedFiles _ => NoDup (map DriveFile.id selectedFiles)
  | _ => True
  end.

Section Sessions.
Context `{api : DriveApi}.

Definition act (a : UserAction) : M (App.t * DriveSt) unit :=
  match a with
  | SelectFiles selectedFiles analyze => liftApp (handleFilesSelected selectedFiles analyze)
  | Login key => liftApp (setApiKey (Some key))
  | ChooseSource mode => liftApp (setSourceMode mode)
  | Approve id => liftApp (handleApprove id)
  | Reject id => liftApp (handleReject id)
  | ApproveAll => liftApp handleApproveAll
  | UpdateAnalysis id updates => liftApp (handleUpdateAnalysis id updates)
  | SyncToDrive => handleSyncToDrive
  | StartOver => liftApp handleReset
  end.

(** The actions one after the other; an action that throws leaves the
    state it reached and the next one goes on from there. *)
Fixpoint runActions (l : list UserAction) (s : App.t * DriveSt) : App.t * DriveSt :=
  match l with
  | [] => s
  | a :: rest => runActions rest (snd (act a s))
  end.

(** A fresh page: the initial component state and an empty folder cache,
    in front of any store. *)
Definition start (w : World) : App.t * DriveSt :=
  (App.init, mkDriveSt ∅ w []).

(** A session of the path resolver: [resolve] calls, each on the state
    left by the one before, whether it returned or threw. *)
Fixpoint resolveAll (paths : list string) (s : DriveSt) : DriveSt :=
  match paths with
  | [] => s
  | p :: rest => resolveAll rest (snd (ensureFolderPath p s))
  end.

End Sessions.

(** The successful, and all, create-folder calls issued for a prefix. *)
Definition createdFor (prefix : string) (e : Event) : bool :=
  match e with
  | EvCreate p _ _ (Ok _) => String.eqb p prefix
  | _ => false
  end.

Definition createIssuedFor (prefix : string) (e : Event) : bool :=
  match e with
  | EvCreate p _ _ _ => String.eqb p prefix
  | _ => false
  end.

Definition updateOk (e : Event) : bool :=
  match e with
  | EvUpdate _ (Ok _) => true
  | _ => false
  end.

Definition updateFailed (e : Event) : bool :=
  match e with
  | EvUpdate _ (Throw _) => true
  | _ => false
  end.

(** A rejected call of the path resolver: a folder lookup or a create. *)
Definition folderCallFailed (e : Event) : bool :=
  match e with
  | EvList _ (Throw _) => true
  | EvCreate _ _ _ (Throw _) => true
  | _ => false
  end.

(** A record that went through the executor carries an analysis. *)
Definition syncedHasAnalysis (f : ProcessedFile.t) : Prop :=
  ProcessedFile.status f = synced \/ ProcessedFile.status f = error ->
  ProcessedFile.analysis f <> None.

(** The invariant of the review list: identifiers are unique, and the
    records that the executor marked carry an analysis. *)
Definition reviewInv (fs : list ProcessedFile.t) : Prop :=
  NoDup (map ProcessedFile.id fs) /\ Forall syncedHasAnalysis fs.

Definition countEvents (p : Event -> bool) (tr : list Event) : nat :=
  length (List.filter p tr).
Arguments countEvents : simpl never.

Section ResolverInvariant.
Context `{api : DriveApi}.

(** The store hands out identifiers that are not the empty string. *)
Definition CreatesNonEmpty : Prop :=
  forall name parentId w id w',
    files_create name parentId w = (Ok id, w') -> id <> "".


End ResolverInvariant.

Definition countStatus (s : Status) (fs : list ProcessedFile.t) : nat :=
  length (List.filter (fun f => Status_eqb (ProcessedFile.status f) s) fs).
Arguments countStatus : simpl never.

(* ===================================================================== *)
(** ** Classification gateway ([services/geminiService]) *)
(* ===================================================================== *)

(** The values that [JSON.parse] produces. *)
#[warnings="-register-all"] Inductive json : Type :=
| JNull
| JBool (b : bool)
| JNum (q : Q)
| JStr (s : string)
| JArr (items : list json)
| JObj (fields : list (string * json)).

(** A plain object built by an object literal: keys in insertion order,
    a value being [undefined] ([None]) or a parsed value. *)
Definition JsObject : Type := list (string * option json).

Fixpoint objGet (key : string) (o : list (string * json)) : option json :=
  match o with
  | [] => None
  | (k, v) :: rest => if String.eqb k key then Some v else objGet key rest
  end.

(** [{ ...o, key: v }]: replaces the value in place, or adds the key last. *)
Fixpoint objSet (key : string) (v : option json) (o : JsObject) : JsObject :=
  match o with
  | [] => [(key, v)]
  | (k, v0) :: rest =>
      if String.eqb k key then (k, v) :: rest else (k, v0) :: objSet key v rest
  end.

Fixpoint indexed {A} (i : nat) (l : list A) : list (string * A) :=
  match l with
  | [] => []
  | x :: rest => (pretty i, x) :: indexed (S i) rest
  end.

Fixpoint chars (s : string) : list json :=
  match s with
  | EmptyString => []
  | String c r => JStr (String c "") :: chars r
  end.

(** The own enumerable properties copied by [{ ...r }]. *)
Definition spread (r : json) : JsObject :=
  match r with
  | JObj fields => map (fun kv => (fst kv, Some (snd kv))) fields
  | JArr items => map (fun kv => (fst kv, Some (snd kv))) (indexed 0 items)
  | JStr s => map (fun kv => (fst kv, Some (snd kv))) (indexed 0 (chars s))
  | JNull | JBool _ | JNum _ => []
  end.

(** [r => ({ ...r, category: r.category as FileCategory })]; the cast does
    nothing at run time, and reading a property of [null] throws. *)
Definition mapResult (r : json) : Result JsObject :=
  match r with
  | JNull => Throw (TypeError "Cannot read properties of null (reading 'category')")
  | JObj fields => Ok (objSet "category" (objGet "category" fields) (spread r))
  | _ => Ok (objSet "category" None (spread r))
  end.

Fixpoint mapAll {A B} (f : A -> Result B) (l : list A) : Result (list B) :=
  match l with
  | [] => Ok []
  | x :: rest =>
      match f x with
      | Throw e => Throw e
      | Ok y => match mapAll f rest with
                | Throw e => Throw e
                | Ok ys => Ok (y :: ys)
                end
      end
  end.

(** [results.map(...)] where [results] is whatever was parsed. *)
Definition mapResults (results : json) : Result (list JsObject) :=
  match results with
  | JArr items => mapAll mapResult items
  | JNull => Throw (TypeError "Cannot read properties of null (reading 'map')")
  | _ => Throw (TypeError "results.map is not a function")
  end.

(** What [await ai.models.generateContent(...)] resolves to. *)
Record GenerateContentResponse : Type := mkResponse { text : option string }.

Definition newline : string := String (ascii_of_nat 10) "".

Section Gateway.
(** The built-ins and the remote model, as the environment gives them:
    [new Date(ms).toISOString()], [JSON.parse], [process.env.API_KEY] and
    the request, a function of the prompt text. *)
Variable toISOString : Z -> Result string.
Variable JSON_parse : string -> Result json.
Variable env_API_KEY : option string.
Variable generateContent : string -> Result GenerateContentResponse.

Definition describeFile (f : DriveFile.t) : Result string :=
  match toISOString (DriveFile.lastModified f) with
  | Throw e => Throw e
  | Ok iso =>
      Ok (newline +:+ "    File ID: " +:+ DriveFile.id f
          +:+ newline +:+ "    Name: " +:+ DriveFile.name f
          +:+ newline +:+ "    Type: " +:+ DriveFile.type f
          +:+ newline +:+ "    Modified: " +:+ iso
          +:+ newline +:+ "    Snippet: "
          +:+ match DriveFile.contentSnippet f with
              | Some snippet =>
                  if Js.truthy snippet then Js.substring0 1000 snippet
                  else "Binary file, infer context from name and type."
              | None => "Binary file, infer context from name and type."
              end
          +:+ newline +:+ "  ")
  end.

Definition prompt (fileDescriptions : string) : string :=
  "Analyze the following files and provide organization suggestions:"
    +:+ newline +:+ newline +:+ fileDescriptions.

(** [apiKey || process.env.API_KEY] *)
Definition keyToUse (apiKey : option string) : option string :=
  match apiKey with
  | Some k => if Js.truthy k then Some k else env_API_KEY
  | None => env_API_KEY
  end.

Definition analyzeFilesBatch (files : list DriveFile.t) (apiKey : option string)
  : Result (list JsObject) :=
  if Nat.eqb (length files) 0 then Ok []
  else
    match keyToUse apiKey with
    | None => Throw (Error "No API Key provided. Please connect with a valid Gemini API Key.")
    | Some key =>
        if negb (Js.truthy key)
        then Throw (Error "No API Key provided. Please connect with a valid Gemini API Key.")
        else
          match mapAll describeFile files with
          | Throw e => Throw e
          | Ok descriptions =>
              let fileDescriptions :=
                Js.join (newline +:+ "---" +:+ newline) descriptions in
              (* try { ... } catch (error) { console.error(...); throw error } *)
              match generateContent (prompt fileDescriptions) with
              | Throw e => Throw e
              | Ok response =>
                  match text response with
                  | None => Ok []
                  | Some t =>
                      if negb (Js.truthy t) then Ok []
                      else match JSON_parse t with
                           | Throw e => Throw e
                           | Ok results => mapResults results
                           end
                  end
              end
          end
    end.

End Gateway.

(* ===================================================================== *)
(** ** A store that can be run *)
(* ===================================================================== *)

(** An in-memory store: folders with their names and parents, a counter
    for fresh identifiers, a number of create calls that will be rejected
    first, and the files whose update is rejected. *)
Module FakeDrive.

Record Folder : Type := mkFolder {
  folderId : string;
  folderName : string;
  folderParent : string
}.

Record W : Type := mkW {
  folders : list Folder;
  nextId : nat;
  createFailures : nat;
  failingUpdates : list string;
  updates : list UpdateParams
}.

Definition list (q : string) (w : W) : Result (list string) * W :=
  (Ok (map folderId
         (List.filter (fun f => String.eqb (folderQuery (folderName f) (folderParent f)) q)
                      (folders w))), w).

Definition create (name parentId : string) (w : W) : Result string * W :=
  match createFailures w with
  | S k => (Throw (RemoteError "create rejected"),
            mkW (folders w) (nextId w) k (failingUpdates w) (updates w))
  | O =>
      let id := "folder-" +:+ pretty (nextId w) in
      (Ok id, mkW (folders w ++ [mkFolder id name parentId]) (S (nextId w)) 0
                  (failingUpdates w) (updates w))
  end.

Definition update (params : UpdateParams) (w : W) : Result unit * W :=
  if Js.includes (failingUpdates w) (fileId params)
  then (Throw (RemoteError "update rejected"), w)
  else (Ok tt, mkW (folders w) (nextId w) (createFailures w) (failingUpdates w)
                   (updates w ++ [params])).

Definition api : DriveApi :=
  {| World := W; files_list := list; files_create := create; files_update := update |}.

(** An empty store in which nothing fails. *)
Definition empty : W := mkW [] 0 0 [] [].

(** A fresh session in front of a world. *)
Definition fresh (w : W) : @DriveSt api := @mkDriveSt api ∅ w [].

End FakeDrive.

(** Stand-ins for the built-ins, right on the texts used below: the epoch
    is the one valid date, and the two texts are parsed as [JSON.parse]
    parses them. *)
Module FakePlatform.

Definition toISOString (ms : Z) : Result string :=
  if (ms =? 0)%Z then Ok "1970-01-01T00:00:00.000Z" else Throw RangeError.

Definition JSON_parse (t : string) : Result json :=
  if String.eqb t "[{}]" then Ok (JArr [JObj []])
  else if String.eqb t "[]" then Ok (JArr [])
  else Throw SyntaxError.

End FakePlatform.

(** The response schema handed to the model with the request: an array of
    objects whose required keys are strings, a boolean and two closed sets
    of labels; [confidence], when present, is a number. *)
Definition categoryNames : list string :=
  ["01_Work"; "02_Personal"; "03_Finance"; "04_Legal";
   "05_Photos_Videos"; "06_Learning"; "07_Templates"; "99_Archive"].

Definition sensitivityNames : list string := ["Normal"; "Confidential"; "High Risk"].

Definition isString (v : option json) : bool :=
  match v with Some (JStr _) => true | _ => false end.

Definition isBoolean (v : option json) : bool :=
  match v with Some (JBool _) => true | _ => false end.

Definition isOneOf (names : list string) (v : option json) : bool :=
  match v with Some (JStr s) => Js.includes names s | _ => false end.

Definition isNumberIfPresent (v : option json) : bool :=
  match v with None | Some (JNum _) => true | _ => false end.

Definition itemConforms (r : json) : bool :=
  match r with
  | JObj fields =>
      isString (objGet "fileId" fields)
      && isOneOf categoryNames (objGet "category" fields)
      && isString (objGet "suggestedPath" fields)
      && isString (objGet "suggestedName" fields)
      && isBoolean (objGet "shouldArchive" fields)
      && isOneOf sensitivityNames (objGet "sensitivity" fields)
      && isString (objGet "reasoning" fields)
      && isNumberIfPresent (objGet "confidence" fields)
  | _ => false
  end.

Definition conformsToSchema (results : json) : bool :=
  match results with
  | JArr items => forallb itemConforms items
  | _ => false
  end.

(** Concrete records for the examples. *)
Module Sample.

Definition descriptor (id name : string) (parents : option (list string)) : DriveFile.t :=
  DriveFile.mk id name 1024 "text/plain" None 0 None None None parents.

Definition suggestion (id path name : string) : AnalysisResult.t :=
  AnalysisResult.mk id WORK path name false Normal "by content" (95 # 100).

Definition record (id : string) (path : option string) (s : Status) : ProcessedFile.t :=
  ProcessedFile.mk (descriptor id (id +:+ ".txt") (Some ["inbox"]))
                   (option_map (fun p => suggestion id p (id +:+ " renamed.txt")) path) s.

Definition app (fs : list ProcessedFile.t) : App.t :=
  App.mk (Some "AIza-example-key") drive false (mkProgress 0 0) REVIEW fs None.

End Sample.

(* ===================================================================== *)
(** ** More of the code: notions used by the properties further down *)
(* ===================================================================== *)

(** Does the character occur in the string? *)
Fixpoint occurs (c : ascii) (s : string) : bool :=
  match s with
  | EmptyString => false
  | String c0 r => Ascii.eqb c0 c || occurs c r
  end.

(** Every character satisfies the test. *)
Fixpoint allChars (p : ascii -> bool) (s : string) : bool :=
  match s with
  | EmptyString => true
  | String c r => p c && allChars p r
  end.

(** A path made of slashes and white space only, the empty one included. *)
Definition blankPath (path : string) : bool :=
  allChars (fun c => Js.isWhiteSpace c || Ascii.eqb c "/"%char) path.


Definition isLookup (e : Event) : bool :=
  match e with EvList _ _ => true | _ => false end.


(** A create-folder call is in the right place: in ['root'] for a prefix of
    one segment, and otherwise in the folder that the cache holds for the
    prefix without its last segment. *)
Definition createdUnderParent (cache : gmap string string) (e : Event) : Prop :=
  match e with
  | EvCreate prefix name parentId _ =>
      (prefix = name /\ parentId = "root") \/
      (exists parentPrefix,
          parentPrefix <> "" /\ prefix = parentPrefix +:+ "/" +:+ name /\
          cacheHit cache parentPrefix = Some parentId)
  | _ => True
  end.

(** The same, with the two ways in which [folderCache[parentPrefix]] gives
    a value spelled out: an identifier that the cache owns for the parent
    prefix, or the value inherited under that name, in which case the cache
    owns nothing for the parent prefix and no create call was ever issued
    for it. *)
Definition createdInPlace (cache : gmap string string) (tr : list Event) (e : Event) : Prop :=
  match e with
  | EvCreate prefix name parentId _ =>
      (prefix = name /\ parentId = "root") \/
      (exists parentPrefix,
          parentPrefix <> "" /\ prefix = parentPrefix +:+ "/" +:+ name /\
          ((cache !! parentPrefix = Some parentId /\ parentId <> "") \/
           (inherited parentPrefix = Some parentId /\ cache !! parentPrefix = None /\
            countEvents (createIssuedFor parentPrefix) tr = 0)))
  | _ => True
  end.

Definition isUpdate (e : Event) : bool :=
  match e with EvUpdate _ _ => true | _ => false end.

(** What the executor does to one record of the list: the descriptor and
    the analysis stay; an [approved] record with an analysis ends [synced]
    or [error]; any other record stays as it is. *)
Definition syncedOrKept (g g' : ProcessedFile.t) : Prop :=
  ProcessedFile.file g' = ProcessedFile.file g /\
  ProcessedFile.analysis g' = ProcessedFile.analysis g /\
  (ProcessedFile.status g = approved /\ ProcessedFile.analysis g <> None ->
   ProcessedFile.status g' = synced \/ ProcessedFile.status g' = error) /\
  (ProcessedFile.status g <> approved \/ ProcessedFile.analysis g = None -> g' = g).

(** An update request that belongs to a record of the list: it names an
    [approved] record with an analysis and sets the name suggested there. *)
Definition requestOf (files : list ProcessedFile.t) (e : Event) : Prop :=
  match e with
  | EvUpdate params _ =>
      exists f a, In f files /\ ProcessedFile.status f = approved /\
                  ProcessedFile.analysis f = Some a /\
                  fileId params = ProcessedFile.id f /\
                  resource_name params = AnalysisResult.suggestedName a
  | _ => True
  end.


Definition hasAnalysis (f : ProcessedFile.t) : bool :=
  match ProcessedFile.analysis f with Some _ => true | None => false end.

(** Is there a record with this identifier and an analysis in the batch? *)
Definition inBatch (batch : list ProcessedFile.t) (g : ProcessedFile.t) : bool :=
  existsb (fun file => String.eqb (ProcessedFile.id file) (ProcessedFile.id g)
                       && hasAnalysis file) batch.

(* ===================================================================== *)
(** ** Review table ([components/ReviewTable.tsx]) *)
(* ===================================================================== *)

(** More of the string methods. *)
Module JsStr.

(** [s.startsWith(prefix)] *)
Fixpoint startsWith (prefix s : string) : bool :=
  match prefix, s with
  | EmptyString, _ => true
  | String a p, String b r => Ascii.eqb a b && startsWith p r
  | String _ _, EmptyString => false
  end.

(** [s.includes(sub)] *)
Fixpoint includes (sub s : string) : bool :=
  startsWith sub s ||
  match s with
  | EmptyString => false
  | String _ r => includes sub r
  end.

(** [toLowerCase] on one code unit below 256: the letters A to Z and the
    capital letters from U+00C0 to U+00DE, the multiplication sign apart. *)
Definition toLowerChar (c : ascii) : ascii :=
  let n := nat_of_ascii c in
  if (Nat.leb 65 n && Nat.leb n 90)
     || (Nat.leb 192 n && Nat.leb n 222 && negb (Nat.eqb n 215))
  then ascii_of_nat (n + 32) else c.

Fixpoint toLowerCase (s : string) : string :=
  match s with
  | EmptyString => ""
  | String c r => String (toLowerChar c) (toLowerCase r)
  end.

End JsStr.

(** The tabs of the table: ['all' | 'needs_review' | 'archive' | 'sensitive']. *)
Inductive Filter : Type := F_all | F_needs_review | F_archive | F_sensitive.

(** The number that the literal [0.8] denotes: the double nearest to 8/10.
    A [confidence] stands for the number it is, so the comparison of the
    two is the comparison of two rationals. *)
Definition double_0_8 : Q := 3602879701896397 # 4503599627370496.

(** [(f.analysis?.confidence || 1) < 0.8]: a confidence of zero is falsy
    and counts as 1. *)
Definition lowConfidence (a : AnalysisResult.t) : bool :=
  let c := AnalysisResult.confidence a in
  let c1 := if Qeq_bool c 0 then 1%Q else c in
  negb (Qle_bool double_0_8 c1).

Definition Filter_eqb (a b : Filter) : bool :=
  match a, b with
  | F_all, F_all | F_needs_review, F_needs_review
  | F_archive, F_archive | F_sensitive, F_sensitive => true
  | _, _ => false
  end.

(** The callback of [files.filter] in [filteredFiles]; optional chaining
    on a missing analysis gives [undefined], which is falsy. *)
Definition rowVisible (filter : Filter) (f : ProcessedFile.t) : bool :=
  if negb (Status_eqb (ProcessedFile.status f) pending) && negb (Filter_eqb filter F_all)
  then false
  else
    match filter with
    | F_needs_review =>
        match ProcessedFile.analysis f with
        | Some a => JsStr.includes "manual" (JsStr.toLowerCase (AnalysisResult.reasoning a))
                    || lowConfidence a
        | None => false
        end
    | F_archive =>
        match ProcessedFile.analysis f with
        | Some a => AnalysisResult.shouldArchive a
        | None => false
        end
    | F_sensitive =>
        match ProcessedFile.analysis f with
        | Some a => match AnalysisResult.sensitivity a with
                    | HighRisk | Confidential => true
                    | Normal => false
                    end
        | None => false
        end
    | F_all => true
    end.

Definition filteredFiles (filter : Filter) (files : list ProcessedFile.t)
  : list ProcessedFile.t :=
  List.filter (rowVisible filter) files.

(** [files.filter(f => f.status === 'pending').length] *)
Definition pendingCount (files : list ProcessedFile.t) : nat :=
  length (List.filter (fun f => Status_eqb (ProcessedFile.status f) pending) files).

(** [files.every(f => f.status !== 'pending')]: what makes the line under
    the table read 'Ready to Sync.' *)
Definition readyToSync (files : list ProcessedFile.t) : bool :=
  forallb (fun f => negb (Status_eqb (ProcessedFile.status f) pending)) files.

(** The view [appState === AppState.REVIEW] and its three buttons:
    - 'Apply Changes to Drive':
      [files.every(f => f.status !== 'pending') && sourceMode === 'drive'];
    - 'Finish (Simulation Only)':
      [files.every(f => f.status !== 'pending') && sourceMode === 'upload'];
    - 'Approve All': [files.some(f => f.status === 'pending')]. *)
Definition inReview (a : App.t) : bool :=
  match App.appState a with REVIEW => true | _ => false end.

Definition showsSyncButton (a : App.t) : bool :=
  inReview a && (readyToSync (App.files a)
                 && match App.sourceMode a with drive => true | upload => false end).

Definition showsFinishButton (a : App.t) : bool :=
  inReview a && (readyToSync (App.files a)
                 && match App.sourceMode a with upload => true | drive => false end).

Definition showsApproveAllButton (a : App.t) : bool :=
  inReview a && existsb (fun f => Status_eqb (ProcessedFile.status f) pending) (App.files a).

(** The editing cells of the table. *)
Record EditForm : Type := mkEditForm { formName : string; formPath : string }.

Module Table.
Record t : Type := mk {
  filter : Filter;
  editingId : option string;
  editForm : EditForm
}.
End Table.

Definition startEdit (file : ProcessedFile.t) (t : Table.t) : Table.t :=
  match ProcessedFile.analysis file with
  | Some a =>
      Table.mk (Table.filter t) (Some (ProcessedFile.id file))
        (mkEditForm (AnalysisResult.suggestedName a) (AnalysisResult.suggestedPath a))
  | None => t
  end.

(** [saveEdit]: [onUpdate(id, { suggestedName, suggestedPath })], then
    [setEditingId(null)]; [onUpdate] is [handleUpdateAnalysis]. *)
Definition saveEdit (id : string) : M (Table.t * App.t) unit :=
  fun s =>
    let t := fst s in
    let updates :=
      PartialAnalysis.mk None None (Some (formPath (Table.editForm t)))
                         (Some (formName (Table.editForm t))) None None None None in
    match handleUpdateAnalysis id updates (snd s) with
    | (r, app) => (r, (Table.mk (Table.filter t) None (Table.editForm t), app))
    end.

(* ===================================================================== *)
(** ** Dashboard figures ([components/DashboardStats.tsx]) *)
(* ===================================================================== *)

(** The values of the [FileCategory] enum. *)
Definition categoryValue (c : FileCategory) : string :=
  match c with
  | WORK => "01_Work"
  | PERSONAL => "02_Personal"
  | FINANCE => "03_Finance"
  | LEGAL => "04_Legal"
  | PHOTOS_VIDEOS => "05_Photos_Videos"
  | LEARNING => "06_Learning"
  | TEMPLATES => "07_Templates"
  | ARCHIVE => "99_Archive"
  end.

(** [file.analysis?.category || 'Unclassified'] *)
Definition categoryKey (f : ProcessedFile.t) : string :=
  match ProcessedFile.analysis f with
  | Some a => categoryValue (AnalysisResult.category a)
  | None => "Unclassified"
  end.

(** [acc[cat] = (acc[cat] || 0) + 1] on an object whose keys keep their
    insertion order. *)
Fixpoint bump (cat : string) (acc : list (string * nat)) : list (string * nat) :=
  match acc with
  | [] => [(cat, 0 + 1)]
  | (k, v) :: rest =>
      if String.eqb k cat then (k, v + 1) :: rest else (k, v) :: bump cat rest
  end.

(** [files.reduce((acc, file) => ..., {})] *)
Definition categoryCount (files : list ProcessedFile.t) : list (string * nat) :=
  fold_left (fun acc file => bump (categoryKey file) acc) files [].

Fixpoint countOf (cat : string) (acc : list (string * nat)) : nat :=
  match acc with
  | [] => 0
  | (k, v) :: rest => if String.eqb k cat then v else countOf cat rest
  end.

Definition highRiskCount (files : list ProcessedFile.t) : nat :=
  length (List.filter
            (fun f => match ProcessedFile.analysis f with
                      | Some a => match AnalysisResult.sensitivity a with
                                  | HighRisk => true
                                  | _ => false
                                  end
                      | None => false
                      end) files).

(* ===================================================================== *)
(** ** Drive browser ([components/DriveSelector]) *)
(* ===================================================================== *)

(** Reading a state cell. *)
Definition gets {S A} (f : S -> A) : M S A := fun s => (Ok (f s), s).

Module FolderStackItem.
Record t : Type := mk { id : string; name : string }.
End FolderStackItem.

(** An entry of [response.result.files] with the fields that the listing
    asks for. *)
Module Listed.
Record t : Type := mk {
  id : string;
  name : string;
  mimeType : string;
  size : option string;
  modifiedTime : string;
  thumbnailLink : option string;
  webViewLink : option string;
  iconLink : option string;
  parents : option (list string)
}.
End Listed.

Definition rootFolder : FolderStackItem.t := FolderStackItem.mk "root" "My Drive".

(** The [useState] cells of the browser, and the arguments of the calls of
    [fetchFiles] so far, oldest first. *)
Module Selector.
Record t : Type := mk {
  isConnected : bool;
  files : list Listed.t;
  loadingFiles : bool;
  selectedIds : gset string;
  folderStack : list FolderStackItem.t;
  fetched : list string
}.

Definition init : t := mk false [] false ∅ [rootFolder] [].
End Selector.

Definition setIsConnected (v : bool) : M Selector.t unit :=
  modify (fun s => Selector.mk v (Selector.files s) (Selector.loadingFiles s)
                     (Selector.selectedIds s) (Selector.folderStack s) (Selector.fetched s)).

Definition setListedFiles (v : list Listed.t) : M Selector.t unit :=
  modify (fun s => Selector.mk (Selector.isConnected s) v (Selector.loadingFiles s)
                     (Selector.selectedIds s) (Selector.folderStack s) (Selector.fetched s)).

Definition setLoadingFiles (v : bool) : M Selector.t unit :=
  modify (fun s => Selector.mk (Selector.isConnected s) (Selector.files s) v
                     (Selector.selectedIds s) (Selector.folderStack s) (Selector.fetched s)).

Definition setSelectedIds (v : gset string) : M Selector.t unit :=
  modify (fun s => Selector.mk (Selector.isConnected s) (Selector.files s)
                     (Selector.loadingFiles s) v (Selector.folderStack s)
                     (Selector.fetched s)).

Definition setFolderStack (v : list FolderStackItem.t) : M Selector.t unit :=
  modify (fun s => Selector.mk (Selector.isConnected s) (Selector.files s)
                     (Selector.loadingFiles s) (Selector.selectedIds s) v
                     (Selector.fetched s)).

(** [fetchFiles(folderId)] is an asynchronous function that no handler
    awaits.  Its first part runs with the call, up to
    [await listDriveFiles(folderId)]: it switches the loading flag on and
    asks for the listing; the call is recorded. *)
Definition fetchFiles (folderId : string) : M Selector.t unit :=
  (setLoadingFiles true ;;;
   modify (fun s => Selector.mk (Selector.isConnected s) (Selector.files s)
                      (Selector.loadingFiles s) (Selector.selectedIds s)
                      (Selector.folderStack s) (Selector.fetched s ++ [folderId])))%js.

(** How [await listDriveFiles(folderId)] settles: with the listing, or with
    a rejection, of which [fetchFiles] reads
    [err.result && err.result.error && err.result.error.code === 401]. *)
Inductive ListingOutcome : Type :=
| Listing (driveFiles : list Listed.t)
| ListingRejected (code401 : bool).

(** The rest of [fetchFiles], which runs when the listing settles, at any
    later time: [setFiles(driveFiles)], or the disconnection on a 401, and
    [finally { setLoadingFiles(false) }]. *)
Definition fetchFilesSettled (o : ListingOutcome) : M Selector.t unit :=
  (match o with
   | Listing driveFiles => setListedFiles driveFiles
   | ListingRejected true => setIsConnected false
   | ListingRejected false => ret tt
   end ;;;
   setLoadingFiles false)%js.

(** [newStack[newStack.length - 1].id]: reading a property of [undefined]
    throws. *)
Definition topId (newStack : list FolderStackItem.t) : M Selector.t string :=
  match last newStack with
  | Some f => ret (FolderStackItem.id f)
  | None => throw (TypeError "Cannot read properties of undefined (reading 'id')")
  end.

Definition handleSwitchAccount : M Selector.t unit :=
  (setIsConnected false ;;;
   setListedFiles [] ;;;
   setFolderStack [rootFolder])%js.

Definition handleFolderClick (folder : FolderStackItem.t) : M Selector.t unit :=
  (folderStack <- gets Selector.folderStack ;;
   let newStack := folderStack ++ [folder] in
   setFolderStack newStack ;;;
   fetchFiles (FolderStackItem.id folder))%js.

(** [folderStack.slice(0, index + 1)] for an index of the breadcrumb row. *)
Definition handleBreadcrumbClick (index : nat) : M Selector.t unit :=
  (folderStack <- gets Selector.folderStack ;;
   let newStack := take (index + 1) folderStack in
   setFolderStack newStack ;;;
   id <- topId newStack ;;
   fetchFiles id)%js.

(** [folderStack.slice(0, -1)] when the stack holds more than one entry. *)
Definition handleBack : M Selector.t unit :=
  (folderStack <- gets Selector.folderStack ;;
   if Nat.ltb 1 (length folderStack) then
     let newStack := take (length folderStack - 1) folderStack in
     setFolderStack newStack ;;;
     id <- topId newStack ;;
     fetchFiles id
   else ret tt)%js.

(** The refresh button: [fetchFiles(currentFolder.id)] with
    [currentFolder = folderStack[folderStack.length - 1]]. *)
Definition handleRefresh : M Selector.t unit :=
  (folderStack <- gets Selector.folderStack ;;
   id <- topId folderStack ;;
   fetchFiles id)%js.

Definition handleSelection (id : string) (isFolder : bool) : M Selector.t unit :=
  (if isFolder then ret tt
   else
     selectedIds <- gets Selector.selectedIds ;;
     let newSet := if bool_decide (id ∈ selectedIds) then selectedIds ∖ {[ id ]}
                   else selectedIds ∪ {[ id ]} in
     setSelectedIds newSet)%js.

(** What happens in the browser once connected: the clicks of the user, and
    the settling of a listing that was asked for. *)
Inductive BrowserAction : Type :=
| SwitchAccount
| FolderClick (folder : FolderStackItem.t)
| BreadcrumbClick (index : nat)
| Back
| Refresh
| Select (id : string) (isFolder : bool)
| ListingSettled (o : ListingOutcome).

Definition browse (a : BrowserAction) : M Selector.t unit :=
  match a with
  | SwitchAccount => handleSwitchAccount
  | FolderClick folder => handleFolderClick folder
  | BreadcrumbClick index => handleBreadcrumbClick index
  | Back => handleBack
  | Refresh => handleRefresh
  | Select id isFolder => handleSelection id isFolder
  | ListingSettled o => fetchFilesSettled o
  end.

Fixpoint browseAll (l : list BrowserAction) (s : Selector.t) : Selector.t :=
  match l with
  | [] => s
  | a :: rest => browseAll rest (snd (browse a s))
  end.

(** The content requests of [driveService.getFileContent]. *)
Inductive ContentRequest : Type :=
| ReqExport (fileId : string)      (* [files.export({ fileId, mimeType: 'text/plain' })] *)
| ReqMedia (fileId : string).      (* [files.get({ fileId, alt: 'media' })] *)

Section ContentReader.
(** The store behind the two read requests, each giving [response.body] or
    rejecting; the requests sent are recorded beside it.  [gapiInited] is
    the module variable that [initGapi] sets. *)
Variable Store : Type.
Variable files_export : string -> Store -> Result string * Store.
Variable files_get : string -> Store -> Result string * Store.
Variable gapiInited : bool.
(** [parseInt] and [new Date(s).getTime()], as numbers of the descriptor. *)
Variable parseInt : string -> Z.
Variable Date_getTime : string -> Z.

Definition callExport (fileId : string) : M (Store * list ContentRequest) string :=
  fun s => let (r, w) := files_export fileId (fst s) in (r, (w, snd s ++ [ReqExport fileId])).

Definition callMedia (fileId : string) : M (Store * list ContentRequest) string :=
  fun s => let (r, w) := files_get fileId (fst s) in (r, (w, snd s ++ [ReqMedia fileId])).

Definition getFileContent (fileId mimeType : string)
  : M (Store * list ContentRequest) string :=
  if negb gapiInited then throw (Error "GAPI not initialized")
  else
    tryCatch
      (if JsStr.startsWith "application/vnd.google-apps." mimeType then
         if JsStr.includes "document" mimeType then callExport fileId
         else ret "[Google App File - Content Analysis Limited]"
       else
         if JsStr.includes "text" mimeType || JsStr.includes "json" mimeType
            || JsStr.includes "javascript" mimeType
         then callMedia fileId
         else ret "[Binary File - Analysis based on Name/Type]")
      (fun _ => ret "[Content Access Error]").

(** [f.size || '0'] *)
Definition sizeText (f : Listed.t) : string :=
  match Listed.size f with
  | Some s => if Js.truthy s then s else "0"
  | None => "0"
  end.

(** The descriptor pushed for one listed file. *)
Definition describeListed (f : Listed.t) (content : string) : DriveFile.t :=
  DriveFile.mk (Listed.id f) (Listed.name f) (parseInt (sizeText f)) (Listed.mimeType f)
               (Some (Js.substring0 1000 content)) (Date_getTime (Listed.modifiedTime f))
               None (Listed.webViewLink f) (Listed.iconLink f) (Listed.parents f).

(** [for (const f of selectedFiles) { ...; processedFiles.push(...) }] *)
Fixpoint readSelected (selectedFiles : list Listed.t) (processedFiles : list DriveFile.t)
  : M (Store * list ContentRequest) (list DriveFile.t) :=
  match selectedFiles with
  | [] => ret processedFiles
  | f :: rest =>
      (content <- getFileContent (Listed.id f) (Listed.mimeType f) ;;
       readSelected rest (processedFiles ++ [describeListed f content]))%js
  end.

(** The handler gives the argument of its call of [onFilesSelected], or
    [None] when it returns without calling it. *)
Definition handleAnalyzeSelection (sel : Selector.t)
  : M (Store * list ContentRequest) (option (list DriveFile.t)) :=
  if Nat.eqb (size (Selector.selectedIds sel)) 0 then ret None
  else
    let selectedFiles :=
      List.filter (fun f => bool_decide (Listed.id f ∈ Selector.selectedIds sel))
                  (Selector.files sel) in
    (processedFiles <- readSelected selectedFiles [] ;;
     ret (Some processedFiles))%js.

End ContentReader.

(* ===================================================================== *)
(** ** Local files ([components/FileUploader]) *)
(* ===================================================================== *)

(** A [File] of the input element; [text] is how [await file.text()]
    settles. *)
Module LocalFile.
Record t : Type := mk {
  name : string;
  size : Z;
  type : string;
  lastModified : Z;
  text : Result string
}.
End LocalFile.

Definition textLike (type : string) : bool :=
  JsStr.startsWith "text/" type || JsStr.includes "json" type
  || JsStr.includes "markdown" type.

Section Uploader.
(** [Math.random().toString(36).substring(7)] at the n-th draw. *)
Variable randomId : nat -> string.

Definition drawId : M nat string := fun n => (Ok (randomId n), S n).

Definition readSnippet (file : LocalFile.t) : option string :=
  if textLike (LocalFile.type file) then
    match LocalFile.text file with
    | Ok text => Some (Js.substring0 500 text)
    | Throw _ => None
    end
  else None.

Definition describeLocal (file : LocalFile.t) (id : string) : DriveFile.t :=
  DriveFile.mk id (LocalFile.name file) (LocalFile.size file)
               (if Js.truthy (LocalFile.type file) then LocalFile.type file else "unknown")
               (readSnippet file) (LocalFile.lastModified file) None None None None.

Fixpoint readLocal (files : list LocalFile.t) (newFiles : list DriveFile.t)
  : M nat (list DriveFile.t) :=
  match files with
  | [] => ret newFiles
  | file :: rest =>
      (id <- drawId ;;
       readLocal rest (newFiles ++ [describeLocal file id]))%js
  end.

(** [e.target.files] is [null] or a list; the handler gives the argument
    of its call of [onFilesSelected], or [None] when it does not call it. *)
Definition handleFileChange (files : option (list LocalFile.t))
  : M nat (option (list DriveFile.t)) :=
  match files with
  | Some files =>
      if Nat.ltb 0 (length files) then
        (newFiles <- readLocal files [] ;; ret (Some newFiles))%js
      else ret None
  | None => ret None
  end.

End Uploader.

(* ===================================================================== *)
(** ** The stored session ([App]: mount effect, [handleLogin], [handleLogout]) *)
(* ===================================================================== *)

(** The page with its login form and [localStorage]. *)
Module Page.
Record t : Type := mk {
  inputKey : string;
  app : App.t;
  localStorage : gmap string string
}.
End Page.

(** [localStorage.getItem('gemini_api_key')] and [if (storedKey) setApiKey(storedKey)]
    on a page that has just been loaded. *)
Definition mount (localStorage : gmap string string) : Page.t :=
  let storedKey := localStorage !! "gemini_api_key" in
  let app :=
    match storedKey with
    | Some k => if Js.truthy k then snd (setApiKey (Some k) App.init) else App.init
    | None => App.init
    end in
  Page.mk "" app localStorage.

Definition handleLogin (p : Page.t) : Page.t :=
  if Nat.ltb 10 (String.length (Js.trim (Page.inputKey p))) then
    let key := Js.trim (Page.inputKey p) in
    Page.mk (Page.inputKey p) (snd (setApiKey (Some key) (Page.app p)))
            (<["gemini_api_key" := key]> (Page.localStorage p))
  else p.

Definition handleLogout (p : Page.t) : Page.t :=
  Page.mk ""
          (snd ((setApiKey None ;;; setFiles (fun _ => []) ;;; setAppState IDLE)%js (Page.app p)))
          (delete "gemini_api_key" (Page.localStorage p)).

Inductive PageAction : Type :=
| TypeKey (text : string)     (* [onChange] of the key field *)
| SubmitLogin
| Logout
| Reload.                     (* the page is loaded again; [localStorage] stays *)

Definition pageStep (a : PageAction) (p : Page.t) : Page.t :=
  match a with
  | TypeKey text => Page.mk text (Page.app p) (Page.localStorage p)
  | SubmitLogin => handleLogin p
  | Logout => handleLogout p
  | Reload => mount (Page.localStorage p)
  end.

Definition pageRun (l : list PageAction) (p : Page.t) : Page.t :=
  fold_left (fun p a => pageStep a p) l p.

(** ** Predicates of the further properties *)

(** The stack of the browser starts at the root entry. *)
Definition stackRooted (s : Selector.t) : Prop :=
  exists rest, Selector.folderStack s = rootFolder :: rest.

(** The action started no fetch, or one fetch, of the folder that is on
    top of the stack after it. *)
Definition fetchedTop (s s' : Selector.t) : Prop :=
  Selector.fetched s' = Selector.fetched s \/
  exists f, last (Selector.folderStack s') = Some f /\
            Selector.fetched s' = Selector.fetched s ++ [FolderStackItem.id f].

Definition isSelect (a : BrowserAction) : bool :=
  match a with Select _ _ => true | _ => false end.

(** A descriptor made from a listed file: the listing's identifier, name,
    type, links and parents, no thumbnail, and a snippet of at most 1000
    characters. *)
Definition describes (f : Listed.t) (d : DriveFile.t) : Prop :=
  DriveFile.id d = Listed.id f /\
  DriveFile.name d = Listed.name f /\
  DriveFile.type d = Listed.mimeType f /\
  DriveFile.parents d = Listed.parents f /\
  DriveFile.webViewLink d = Listed.webViewLink f /\
  DriveFile.iconLink d = Listed.iconLink f /\
  DriveFile.thumbnailLink d = None /\
  exists snippet, DriveFile.contentSnippet d = Some snippet /\ String.length snippet <= 1000.

(** The request that reading the content of a listed file sends, if any. *)
Definition contentRequest (fileId mimeType : string) : list ContentRequest :=
  if JsStr.startsWith "application/vnd.google-apps." mimeType then
    if JsStr.includes "document" mimeType then [ReqExport fileId] else []
  else if JsStr.includes "text" mimeType || JsStr.includes "json" mimeType
          || JsStr.includes "javascript" mimeType
       then [ReqMedia fileId] else [].

(** A descriptor made from a local file. *)
Definition uploaded (file : LocalFile.t) (d : DriveFile.t) : Prop :=
  DriveFile.name d = LocalFile.name file /\
  DriveFile.size d = LocalFile.size file /\
  DriveFile.lastModified d = LocalFile.lastModified file /\
  DriveFile.type d <> "" /\
  (LocalFile.type file <> "" -> DriveFile.type d = LocalFile.type file) /\
  DriveFile.parents d = None /\
  match DriveFile.contentSnippet d with
  | Some snippet =>
      textLike (LocalFile.type file) = true /\ String.length snippet <= 500 /\
      exists text, LocalFile.text file = Ok text /\ snippet = Js.substring0 500 text
  | None => textLike (LocalFile.type file) = false \/ isOk (LocalFile.text file) = false
  end.

(** The key of the page is the stored one, and a stored key is trimmed and
    longer than ten characters. *)
Definition keyStored (p : Page.t) : Prop :=
  App.apiKey (Page.app p) = Page.localStorage p !! "gemini_api_key" /\
  forall k, Page.localStorage p !! "gemini_api_key" = Some k ->
            10 < String.length k /\ Js.trim k = k.

(* ===================================================================== *)
(** * Properties *)
(* ===================================================================== *)

(** ** Review state machine *)

Lemma markStatus_ids (id : string) (s : Status) (fs : list ProcessedFile.t) :
  map ProcessedFile.id (markStatus id s fs) = map ProcessedFile.id fs.
Proof.
  unfold markStatus. rewrite map_map. apply map_ext. intros f.
  destruct (String.eqb (ProcessedFile.id f) id); reflexivity.
Qed.

Lemma Status_eqb_eq (a b : Status) : Status_eqb a b = true <-> a = b.
Proof. destruct a, b; simpl; split; congruence. Qed.

Lemma Status_eqb_neq (a b : Status) : Status_eqb a b = false <-> a <> b.
Proof. destruct a, b; simpl; split; congruence. Qed.

(** C8: [approveAll] turns exactly the [pending] records into [approved]
    ones, keeping their descriptor and analysis; every other record, and
    every other cell of the state, stays as it is; and a second call right
    after the first changes nothing. *)
Theorem approveAll_exactly_pending_idempotent (a : App.t) :
  let r := handleApproveAll a in
  fst r = Ok tt /\
  length (App.files (snd r)) = length (App.files a) /\
  (forall i f, App.files a !! i = Some f -> ProcessedFile.status f = pending ->
     App.files (snd r) !! i
     = Some (ProcessedFile.mk (ProcessedFile.file f) (ProcessedFile.analysis f) approved)) /\
  (forall i f, App.files a !! i = Some f -> ProcessedFile.status f <> pending ->
     App.files (snd r) !! i = Some f) /\
  (App.apiKey (snd r), App.sourceMode (snd r), App.isSyncing (snd r),
   App.syncProgress (snd r), App.appState (snd r), App.error (snd r))
  = (App.apiKey a, App.sourceMode a, App.isSyncing a,
     App.syncProgress a, App.appState a, App.error a) /\
  handleApproveAll (snd r) = r.
Proof.
  destruct a as [k m sy pr st fs er]. cbn.
  repeat split.
  - apply length_map.
  - intros i f Hi Hp. rewrite list_lookup_fmap, Hi. cbn. rewrite Hp. reflexivity.
  - intros i f Hi Hp. rewrite list_lookup_fmap, Hi. cbn.
    apply Status_eqb_neq in Hp. rewrite Hp. reflexivity.
  - unfold handleApproveAll, setFiles, modify. cbn. do 2 f_equal.
    rewrite map_map. apply map_ext. intros f.
    destruct (Status_eqb (ProcessedFile.status f) pending) eqn:E; cbn.
    + reflexivity.
    + rewrite E. reflexivity.
Qed.

Example approveAll_sample :
  map ProcessedFile.status
      (App.files (snd (handleApproveAll
         (Sample.app [Sample.record "a" (Some "Work") pending;
                      Sample.record "b" None rejected;
                      Sample.record "c" None pending;
                      Sample.record "d" (Some "Work") synced]))))
  = [approved; rejected; approved; synced].
Proof. reflexivity. Qed.

(** C2, as stated, fails: [approve] on a [synced] record and [reject] on an
    [error] record return normally and change the status. *)
Lemma approve_reject_transition_any_status :
  let a := Sample.app [Sample.record "f1" (Some "Work") synced;
                       Sample.record "f2" (Some "Work") error] in
  handleApprove "f1" a
  = (Ok tt, Sample.app [Sample.record "f1" (Some "Work") approved;
                        Sample.record "f2" (Some "Work") error]) /\
  handleReject "f2" a
  = (Ok tt, Sample.app [Sample.record "f1" (Some "Work") synced;
                        Sample.record "f2" (Some "Work") rejected]).
Proof. split; reflexivity. Qed.

(** C2, amended: [approve] and [reject] do not look at the current status.
    Every record with the given identifier becomes [approved] (or
    [rejected]) whatever its status was, every other record is untouched,
    the call returns normally; the guard is in the review table, which
    offers the two actions exactly on [pending] rows. *)
Theorem approve_reject_unguarded (id : string) (a : App.t) :
  fst (handleApprove id a) = Ok tt /\
  fst (handleReject id a) = Ok tt /\
  (forall i f, App.files a !! i = Some f ->
     App.files (snd (handleApprove id a)) !! i
     = Some (if String.eqb (ProcessedFile.id f) id
             then ProcessedFile.mk (ProcessedFile.file f) (ProcessedFile.analysis f) approved
             else f) /\
     App.files (snd (handleReject id a)) !! i
     = Some (if String.eqb (ProcessedFile.id f) id
             then ProcessedFile.mk (ProcessedFile.file f) (ProcessedFile.analysis f) rejected
             else f)) /\
  (forall f, ProcessedFile.status f = pending <->
             rowActions f = [ClickReject; ClickApprove]) /\
  (forall f, ProcessedFile.status f <> pending <-> rowActions f = []).
Proof.
  destruct a as [k m sy pr st fs er]. cbn.
  split; [reflexivity|]. split; [reflexivity|]. split; [|split].
  - intros i f Hi. unfold markStatus. rewrite !list_lookup_fmap, Hi. cbn. split; reflexivity.
  - intros f. unfold rowActions. destruct (ProcessedFile.status f); cbn; split; congruence.
  - intros f. unfold rowActions. destruct (ProcessedFile.status f); cbn; split; congruence.
Qed.

(** C9, as stated, fails: editing a record that has no analysis returns
    normally and leaves the state as it was. *)
Lemma updateAnalysis_without_analysis_is_silent :
  let a := Sample.app [Sample.record "f1" None pending] in
  let updates := PartialAnalysis.mk None None (Some "Work/2024") (Some "Plan.txt")
                                    None None None None in
  handleUpdateAnalysis "f1" updates a = (Ok tt, a).
Proof. reflexivity. Qed.

(** C9, amended: [editAnalysis] gives every record with the identifier that
    has an analysis the merged one (a given key replaces the old value, an
    absent key keeps it), touching nothing else; a record without analysis,
    like a record with another identifier, is left as it is, and the call
    returns normally in every case. *)
Theorem updateAnalysis_merges_or_skips (id : string) (updates : PartialAnalysis.t) (a : App.t) :
  fst (handleUpdateAnalysis id updates a) = Ok tt /\
  (forall i f old, App.files a !! i = Some f ->
     ProcessedFile.id f = id -> ProcessedFile.analysis f = Some old ->
     App.files (snd (handleUpdateAnalysis id updates a)) !! i
     = Some (ProcessedFile.mk (ProcessedFile.file f)
               (Some (mergeAnalysis old updates)) (ProcessedFile.status f))) /\
  (forall i f, App.files a !! i = Some f ->
     ProcessedFile.id f <> id \/ ProcessedFile.analysis f = None ->
     App.files (snd (handleUpdateAnalysis id updates a)) !! i = Some f) /\
  (forall old,
     AnalysisResult.suggestedName (mergeAnalysis old updates)
     = default (AnalysisResult.suggestedName old) (PartialAnalysis.suggestedName updates) /\
     AnalysisResult.suggestedPath (mergeAnalysis old updates)
     = default (AnalysisResult.suggestedPath old) (PartialAnalysis.suggestedPath updates) /\
     mergeAnalysis old PartialAnalysis.empty = old).
Proof.
  destruct a as [k m sy pr st fs er]. cbn.
  split; [reflexivity|]. split; [|split].
  - intros i f old Hi Hid Ha. rewrite list_lookup_fmap, Hi. cbn.
    rewrite Hid, String.eqb_refl, Ha. reflexivity.
  - intros i f Hi H. rewrite list_lookup_fmap, Hi. cbn.
    destruct (String.eqb (ProcessedFile.id f) id) eqn:E; [|reflexivity].
    apply String.eqb_eq in E. destruct H as [H|H]; [congruence|].
    rewrite H. reflexivity.
  - intros old. split; [reflexivity|]. split; [reflexivity|].
    destruct old; reflexivity.
Qed.

Example updateAnalysis_sample :
  let updates := PartialAnalysis.mk None None (Some "Work/2024") (Some "Plan.txt")
                                    None None None None in
  map ProcessedFile.analysis
      (App.files (snd (handleUpdateAnalysis "f1" updates
         (Sample.app [Sample.record "f1" (Some "Old") pending]))))
  = [Some (Sample.suggestion "f1" "Work/2024" "Plan.txt")].
Proof. reflexivity. Qed.

(** ** Remote mutation applier *)

Lemma includes_In (ps : list string) (t : string) :
  Js.includes ps t = true <-> In t ps.
Proof.
  unfold Js.includes. rewrite existsb_exists. split.
  - intros (x & Hx & E). apply String.eqb_eq in E. subst. exact Hx.
  - intros H. exists t. split; [exact H | apply String.eqb_refl].
Qed.

Lemma includes_not_In (ps : list string) (t : string) :
  Js.includes ps t = false <-> ~ In t ps.
Proof.
  rewrite <- includes_In. destruct (Js.includes ps t); split; congruence.
Qed.

Lemma truthy_nonempty (s : string) : Js.truthy s = true <-> s <> "".
Proof.
  unfold Js.truthy. destruct (String.eqb_spec s ""); cbn; split; congruence.
Qed.

Section MutationApplier.
Context `{api : DriveApi}.

Lemma applyFileUpdate_run (fileId newName : string)
    (currentParents : option (list string)) (targetFolderId : option string) (s : DriveSt) :
  let params := updateParams fileId newName currentParents targetFolderId in
  let r := files_update params (world s) in
  applyFileUpdate fileId newName currentParents targetFolderId s
  = (fst r, mkDriveSt (folderCache s) (snd r) (trace s ++ [EvUpdate params (fst r)])).
Proof.
  cbn. unfold applyFileUpdate, logged, callUpdate.
  destruct (files_update _ (world s)) as [r w]. reflexivity.
Qed.

(** C6, amended: every call sends one update request, which always sets the
    new name.  The request asks for a reparent exactly when the target is
    given, is not the empty string, is not ['root'] and is not among the
    current parents: it then adds the target and removes the current
    parents (all of them, comma-separated; the key is left out when there
    is none).  In every other case it carries neither key. *)
Theorem applyFileUpdate_request (fid newName : string)
    (currentParents : option (list string)) (targetFolderId : option string) (s : DriveSt) :
  let params := updateParams fid newName currentParents targetFolderId in
  let out := applyFileUpdate fid newName currentParents targetFolderId s in
  trace (snd out) = trace s ++ [EvUpdate params (fst out)] /\
  fileId params = fid /\
  resource_name params = newName /\
  (forall t, targetFolderId = Some t -> t <> "" -> t <> "root" ->
     (forall ps, currentParents = Some ps -> ~ In t ps) ->
     addParents params = Some t /\
     removeParents params
     = match currentParents with
       | Some (p :: ps) => Some (Js.join "," (p :: ps))
       | _ => None
       end) /\
  (targetFolderId = None \/ targetFolderId = Some "" \/ targetFolderId = Some "root" \/
   (exists t ps, targetFolderId = Some t /\ currentParents = Some ps /\ In t ps) ->
   addParents params = None /\ removeParents params = None).
Proof.
  cbn zeta. rewrite applyFileUpdate_run. cbn [fst snd trace].
  split; [reflexivity|].
  split; [unfold updateParams; repeat case_match; reflexivity|].
  split; [unfold updateParams; repeat case_match; reflexivity|].
  split.
  - intros t -> Ht Hroot Hps. unfold updateParams.
    apply truthy_nonempty in Ht. rewrite Ht.
    destruct (String.eqb_spec t "root") as [|_]; [contradiction|]. cbn [negb andb].
    destruct currentParents as [ps|]; cbn.
    + specialize (Hps ps eq_refl). apply includes_not_In in Hps. rewrite Hps. cbn.
      destruct ps; split; reflexivity.
    + split; reflexivity.
  - intros [->|[->|[->|(t & ps & -> & -> & Hin)]]]; try (split; reflexivity).
    unfold updateParams. apply includes_In in Hin. rewrite Hin.
    destruct (Js.truthy t && negb (String.eqb t "root")); split; reflexivity.
Qed.

(** C10: a target equal to ['root'] makes the update rename-only, whatever
    the current parents are: the one request sent carries the new name and
    neither [addParents] nor [removeParents]. *)
Theorem root_target_is_rename_only (fileId newName : string)
    (currentParents : option (list string)) (s : DriveSt) :
  let out := applyFileUpdate fileId newName currentParents (Some "root") s in
  updateParams fileId newName currentParents (Some "root")
  = mkUpdateParams fileId newName None None /\
  trace (snd out) = trace s ++ [EvUpdate (mkUpdateParams fileId newName None None) (fst out)] /\
  folderCache (snd out) = folderCache s.
Proof.
  cbn zeta. rewrite applyFileUpdate_run. cbn. auto.
Qed.

End MutationApplier.

(** C6, as stated, fails: a target ['root'] that is not among the current
    parents is provided and is no member, yet the request sent carries the
    new name only. *)
Lemma no_reparent_to_root_sample :
  let s := FakeDrive.fresh FakeDrive.empty in
  Js.includes ["inbox"] "root" = false /\
  trace (snd (@applyFileUpdate FakeDrive.api "f1" "Plan.txt" (Some ["inbox"]) (Some "root") s))
  = [EvUpdate (mkUpdateParams "f1" "Plan.txt" None None) (Ok tt)].
Proof. split; reflexivity. Qed.

Example root_target_sample :
  let s := FakeDrive.fresh FakeDrive.empty in
  FakeDrive.updates (world (snd (@applyFileUpdate FakeDrive.api "f1" "Plan.txt"
                                   (Some ["inbox"; "shared"]) (Some "root") s)))
  = [mkUpdateParams "f1" "Plan.txt" None None].
Proof. reflexivity. Qed.

Example reparent_sample :
  updateParams "f1" "Plan.txt" (Some ["inbox"; "shared"]) (Some "folder-7")
  = mkUpdateParams "f1" "Plan.txt" (Some "folder-7") (Some "inbox,shared").
Proof. reflexivity. Qed.

(** ** Folder path resolver *)

Lemma countEvents_app (p : Event -> bool) (a b : list Event) :
  countEvents p (a ++ b) = countEvents p a + countEvents p b.
Proof. unfold countEvents. rewrite List.filter_app, length_app. reflexivity. Qed.

Lemma cacheHit_insert (c : gmap string string) (k k' v : string) :
  cacheHit (<[k := v]> c) k'
  = if decide (k = k') then (if Js.truthy v then Some v else None) else cacheHit c k'.
Proof.
  unfold cacheHit. rewrite lookup_insert. destruct (decide (k = k')); reflexivity.
Qed.

Section PathResolver.
Context `{api : DriveApi}.

(** One visit to the store for a prefix: the cache is not touched; the
    calls recorded hold a successful create for no other prefix, and for
    this one only when the visit returns; what it returns is not empty. *)
Lemma checkDrive_run (key part parent : string) (s : DriveSt) :
  let out := checkDrive key part parent s in
  folderCache (snd out) = folderCache s /\
  (exists evs, trace (snd out) = trace s ++ evs /\
     forall k, countEvents (createdFor k) evs
               <= if isOk (fst out) && String.eqb key k then 1 else 0) /\
  (CreatesNonEmpty -> forall id, fst out = Ok id -> id <> "").
Proof.
  cbn zeta. unfold checkDrive, bind, findFolder, bind, callList, ret, logged,
    createFolder, callCreate.
  destruct (files_list (folderQuery part parent) (world s)) as [[ids|e] w]; cbn.
  - destruct ids as [|id ids]; cbn; [|destruct (Js.truthy id) eqn:T; cbn].
    1,3: destruct (files_create part parent w) as [r w'] eqn:E; cbn;
         (split; [reflexivity|]); split;
         [ eexists; split; [rewrite <- app_assoc; reflexivity|];
           intros k; unfold countEvents; cbn; destruct r; cbn;
           [destruct (String.eqb key k)|]; cbn; lia
         | intros Hne id0 ->; eapply Hne; exact E ].
    split; [reflexivity|]. split.
    + eexists. split; [reflexivity|]. intros k. unfold countEvents. cbn. lia.
    + intros _ id' [= <-]. apply truthy_nonempty. exact T.
  - split; [reflexivity|]. split.
    + eexists. split; [reflexivity|]. intros k. unfold countEvents. cbn. lia.
    + intros _ id [=].
Qed.








End PathResolver.

(** ** Sync executor *)

Lemma markStatus_notin (x : string) (st : Status) (fs : list ProcessedFile.t) :
  ~ In x (map ProcessedFile.id fs) -> markStatus x st fs = fs.
Proof.
  induction fs as [|f fs IH]; intros Hx; cbn; [reflexivity|].
  cbn in Hx. destruct (String.eqb_spec (ProcessedFile.id f) x) as [E|E].
  - exfalso. apply Hx. left. exact E.
  - f_equal. apply IH. intros H. apply Hx. right. exact H.
Qed.

(** Marking the one record that carries an identifier moves it from its
    status to the new one in the per-status counts. *)
Lemma markStatus_count (x : string) (st : Status) (fs : list ProcessedFile.t) :
  NoDup (map ProcessedFile.id fs) ->
  forall g, In g fs -> ProcessedFile.id g = x ->
  forall t,
    countStatus t (markStatus x st fs) + (if Status_eqb (ProcessedFile.status g) t then 1 else 0)
    = countStatus t fs + (if Status_eqb st t then 1 else 0).
Proof.
  induction fs as [|f fs IH]; intros Hnd g Hg Hid t; [contradiction|].
  cbn in Hnd. apply NoDup_cons in Hnd as [Hf Hnd].
  apply list_elem_of_In in Hg. apply elem_of_cons in Hg as [->|Hg].
  - unfold markStatus. cbn [map]. rewrite Hid, String.eqb_refl.
    fold (markStatus x st fs). rewrite markStatus_notin.
    2:{ rewrite <- Hid. intros H. apply Hf. apply list_elem_of_In. exact H. }
    unfold countStatus. cbn.
    destruct (Status_eqb st t), (Status_eqb (ProcessedFile.status f) t); cbn; lia.
  - apply list_elem_of_In in Hg.
    assert (Hne : ProcessedFile.id f <> x).
    { intros E. apply Hf. rewrite E, <- Hid. apply list_elem_of_In.
      apply in_map. exact Hg. }
    unfold markStatus. cbn [map]. apply String.eqb_neq in Hne. rewrite Hne.
    fold (markStatus x st fs). specialize (IH Hnd g Hg Hid t).
    unfold countStatus in *. cbn.
    destruct (Status_eqb (ProcessedFile.status f) t); cbn; lia.
Qed.

Lemma markStatus_In_other (x : string) (st : Status) (fs : list ProcessedFile.t) (g : ProcessedFile.t) :
  In g fs -> ProcessedFile.id g <> x -> In g (markStatus x st fs).
Proof.
  intros Hg Hne. unfold markStatus. apply in_map_iff. exists g. split; [|exact Hg].
  apply String.eqb_neq in Hne. rewrite Hne. reflexivity.
Qed.

Lemma NoDup_ids_filter (p : ProcessedFile.t -> bool) (fs : list ProcessedFile.t) :
  NoDup (map ProcessedFile.id fs) -> NoDup (map ProcessedFile.id (List.filter p fs)).
Proof.
  induction fs as [|f fs IH]; intros Hnd; cbn; [constructor|].
  cbn in Hnd. apply NoDup_cons in Hnd as [Hf Hnd].
  destruct (p f); cbn; [|apply IH; exact Hnd].
  apply NoDup_cons. split; [|apply IH; exact Hnd].
  intros H. apply Hf. apply list_elem_of_In in H. apply list_elem_of_In.
  apply in_map_iff in H as (g & Eg & Hg). apply List.filter_In in Hg as [Hg _].
  rewrite <- Eg. apply in_map. exact Hg.
Qed.

Section SyncProofs.
Context `{api : DriveApi}.

(** The path resolver sends no update, and it throws exactly when one of
    its calls is rejected: that call is then its last one. *)
Lemma checkDrive_no_update (key part parent : string) (s : DriveSt) :
  exists evs, trace (snd (checkDrive key part parent s)) = trace s ++ evs /\
              countEvents updateOk evs = 0 /\ countEvents updateFailed evs = 0 /\
              countEvents folderCallFailed evs
              = (if isOk (fst (checkDrive key part parent s)) then 0 else 1).
Proof.
  unfold checkDrive, bind, findFolder, bind, callList, ret, logged, createFolder, callCreate.
  destruct (files_list (folderQuery part parent) (world s)) as [[ids|e] w]; cbn.
  - destruct ids as [|id ids]; cbn; [|destruct (Js.truthy id); cbn].
    1,3: destruct (files_create part parent w) as [[fid|e] w']; cbn;
         eexists; (split; [rewrite <- app_assoc; reflexivity|]); repeat split; reflexivity.
    eexists. split; [reflexivity|]. repeat split; reflexivity.
  - eexists. split; [reflexivity|]. repeat split; reflexivity.
Qed.

Lemma ensureLoop_no_update (parts : list string) :
  forall (parent cur : string) (s : DriveSt),
  exists evs, trace (snd (ensureLoop parts parent cur s)) = trace s ++ evs /\
              countEvents updateOk evs = 0 /\ countEvents updateFailed evs = 0 /\
              countEvents folderCallFailed evs
              = (if isOk (fst (ensureLoop parts parent cur s)) then 0 else 1).
Proof.
  induction parts as [|part rest IH]; intros parent cur s; cbn.
  - exists []. rewrite app_nil_r. repeat split.
  - destruct (cacheHit (folderCache s) (extendPath cur part)) as [v|]; [apply IH|].
    unfold bind.
    destruct (checkDrive_no_update (extendPath cur part) part parent s)
      as (e1 & H1 & Ho1 & Hf1 & Hc1).
    destruct (checkDrive (extendPath cur part) part parent s) as [[fid|e] s']; cbn in H1, Hc1 |- *.
    + match goal with |- context [ensureLoop rest ?p ?c ?st] =>
        destruct (IH p c st) as (e2 & H2 & Ho2 & Hf2 & Hc2) end.
      cbn in H2. exists (e1 ++ e2).
      split; [rewrite H2, H1, <- app_assoc; reflexivity|].
      rewrite !countEvents_app, Ho1, Ho2, Hf1, Hf2, Hc1, Hc2. repeat split; reflexivity.
    + exists e1. auto.
Qed.

Lemma ensureFolderPath_no_update (path : string) (s : DriveSt) :
  exists evs, trace (snd (ensureFolderPath path s)) = trace s ++ evs /\
              countEvents updateOk evs = 0 /\ countEvents updateFailed evs = 0 /\
              countEvents folderCallFailed evs
              = (if isOk (fst (ensureFolderPath path s)) then 0 else 1).
Proof.
  unfold ensureFolderPath. destruct (Nat.eqb _ 0).
  - exists []. cbn. rewrite app_nil_r. repeat split.
  - apply ensureLoop_no_update.
Qed.

(** What one file adds to the record of calls: a successful update when the
    two steps went through; otherwise exactly one rejected call, which is
    the update or a call of the path resolver, and no successful update. *)
Lemma syncFile_events (file : ProcessedFile.t) (a : AnalysisResult.t) (d : DriveSt) :
  let out := syncFile file a d in
  exists evs, trace (snd out) = trace d ++ evs /\
    countEvents updateOk evs = (if isOk (fst out) then 1 else 0) /\
    countEvents updateFailed evs + countEvents folderCallFailed evs
    = (if isOk (fst out) then 0 else 1).
Proof.
  cbn zeta. unfold syncFile, bind, resolveTarget.
  assert (Hupd : forall t d0 e0,
    trace d0 = trace d ++ e0 ->
    countEvents updateOk e0 = 0 -> countEvents updateFailed e0 = 0 ->
    countEvents folderCallFailed e0 = 0 ->
    let out := applyFileUpdate (ProcessedFile.id file) (AnalysisResult.suggestedName a)
                 (DriveFile.parents (ProcessedFile.file file)) t d0 in
    exists evs, trace (snd out) = trace d ++ evs /\
      countEvents updateOk evs = (if isOk (fst out) then 1 else 0) /\
      countEvents updateFailed evs + countEvents folderCallFailed evs
      = (if isOk (fst out) then 0 else 1)).
  { intros t d0 e0 Ht Ho Hf Hc. cbn zeta. rewrite applyFileUpdate_run. cbn [fst snd trace].
    eexists. rewrite Ht, <- app_assoc. split; [reflexivity|].
    rewrite !countEvents_app, Ho, Hf, Hc. unfold countEvents. cbn.
    destruct (fst (files_update _ (world d0))); cbn; split; lia. }
  destruct (Js.truthy (AnalysisResult.suggestedPath a)
            && negb (String.eqb (AnalysisResult.suggestedPath a) "/")
            && negb (String.eqb (AnalysisResult.suggestedPath a) ".")).
  - unfold bind, ret.
    destruct (ensureFolderPath_no_update (AnalysisResult.suggestedPath a) d)
      as (e1 & H1 & Ho & Hf & Hc).
    destruct (ensureFolderPath (AnalysisResult.suggestedPath a) d) as [[id|e] d1];
      cbn in H1, Hc |- *.
    + apply (Hupd (Some id) d1 e1); assumption.
    + exists e1. rewrite Ho, Hf, Hc. auto.
  - unfold ret. apply (Hupd None d []); [symmetry; apply app_nil_r | reflexivity ..].
Qed.

Lemma syncLoop_step (file : ProcessedFile.t) (a : AnalysisResult.t)
    (rest : list ProcessedFile.t) (i : nat) (app : App.t) (d : DriveSt) :
  ProcessedFile.analysis file = Some a ->
  syncLoop (file :: rest) i (app, d)
  = let out := syncFile file a d in
    let st := if isOk (fst out) then synced else error in
    syncLoop rest (S i)
      (snd (setSyncProgress (fun prev => mkProgress (i + 1) (total prev))
              (snd (setFiles (markStatus (ProcessedFile.id file) st) app))),
       snd out).
Proof.
  intros Ha. cbn [syncLoop]. rewrite Ha. unfold bind, tryCatch, liftDrive, liftApp. cbn.
  destruct (syncFile file a d) as [[[]|e] d']; reflexivity.
Qed.

End SyncProofs.

Section SyncTheorems.
Context `{api : DriveApi}.

(** The loop over records that all carry an analysis and each stand, once
    and [approved], in the list of the state: it runs to the end; every
    record gives one of three outcomes (update accepted, update rejected,
    resolver call rejected), seen alike in the record of calls and in the
    statuses; the progress counter ends at the index after the last one. *)
Lemma syncLoop_run (l : list ProcessedFile.t) :
  forall (i : nat) (app : App.t) (d : DriveSt),
    NoDup (map ProcessedFile.id (App.files app)) ->
    NoDup (map ProcessedFile.id l) ->
    (forall f, In f l -> ProcessedFile.analysis f <> None) ->
    (forall f, In f l ->
       exists g, In g (App.files app) /\ ProcessedFile.id g = ProcessedFile.id f /\
                 ProcessedFile.status g = approved) ->
    let out := syncLoop l i (app, d) in
    let app' := fst (snd out) in
    fst out = Ok tt /\
    exists nOk nFail nPath,
      nOk + nFail + nPath = length l /\
      countEvents updateOk (trace (snd (snd out))) = countEvents updateOk (trace d) + nOk /\
      countEvents updateFailed (trace (snd (snd out)))
      = countEvents updateFailed (trace d) + nFail /\
      countEvents folderCallFailed (trace (snd (snd out)))
      = countEvents folderCallFailed (trace d) + nPath /\
      countStatus synced (App.files app') = countStatus synced (App.files app) + nOk /\
      countStatus error (App.files app') = countStatus error (App.files app) + nFail + nPath /\
      countStatus approved (App.files app') + length l = countStatus approved (App.files app) /\
      total (App.syncProgress app') = total (App.syncProgress app) /\
      current (App.syncProgress app')
      = match l with [] => current (App.syncProgress app) | _ => i + length l end /\
      App.isSyncing app' = App.isSyncing app.
Proof.
  induction l as [|file rest IH]; intros i app d Hnd Hndl Han Hin; cbn zeta.
  - cbn. split; [reflexivity|]. exists 0, 0, 0. cbn. repeat split; lia.
  - destruct (ProcessedFile.analysis file) as [a|] eqn:Ha.
    2:{ exfalso. apply (Han file); [left; reflexivity | exact Ha]. }
    rewrite (syncLoop_step file a rest i app d Ha). cbn zeta.
    destruct (syncFile_events file a d) as (evs & Ht & Hok & Hfail). cbn zeta in *.
    set (out1 := syncFile file a d) in *.
    set (st := if isOk (fst out1) then synced else error).
    set (app1 := snd (setSyncProgress (fun prev => mkProgress (i + 1) (total prev))
                        (snd (setFiles (markStatus (ProcessedFile.id file) st) app)))).
    destruct (Hin file (or_introl eq_refl)) as (g0 & Hg0 & Hid0 & Hst0).
    cbn in Hndl. apply NoDup_cons in Hndl as [Hfile Hndl].
    assert (Hfiles1 : App.files app1 = markStatus (ProcessedFile.id file) st (App.files app))
      by reflexivity.
    assert (Hcount : forall t,
              countStatus t (App.files app1) + (if Status_eqb approved t then 1 else 0)
              = countStatus t (App.files app) + (if Status_eqb st t then 1 else 0)).
    { intros t. rewrite Hfiles1, <- Hst0. apply markStatus_count; assumption. }
    specialize (IH (S i) app1 (snd out1)).
    destruct IH as (Hr & nOk & nFail & nPath & Hlen & HeOk & HeFail & HePath & Hsy & Her & Hap
                    & Htot & Hcur & Hsyn).
    { rewrite Hfiles1, markStatus_ids. exact Hnd. }
    { exact Hndl. }
    { intros f Hf. apply Han. right. exact Hf. }
    { intros f Hf. destruct (Hin f (or_intror Hf)) as (g & Hg & Hid & Hst).
      exists g. split; [|split; assumption].
      rewrite Hfiles1. apply markStatus_In_other; [exact Hg|].
      rewrite Hid. intros E. apply Hfile. rewrite <- E. apply list_elem_of_In.
      apply in_map. exact Hf. }
    cbn zeta in *. split; [exact Hr|].
    assert (Hcur' : current (App.syncProgress (fst (snd (syncLoop rest (S i) (app1, snd out1)))))
                    = i + length (file :: rest)).
    { rewrite Hcur. destruct rest; cbn; [lia|]. lia. }
    assert (Htot1 : total (App.syncProgress app1) = total (App.syncProgress app))
      by reflexivity.
    assert (Hsyn1 : App.isSyncing app1 = App.isSyncing app) by reflexivity.
    pose proof (Hcount synced) as Hc1. pose proof (Hcount error) as Hc2.
    pose proof (Hcount approved) as Hc3.
    rewrite Ht, countEvents_app in HeOk, HeFail, HePath.
    clearbody app1.
    destruct (isOk (fst out1)) eqn:Eok; subst st; cbn [Status_eqb] in Hc1, Hc2, Hc3.
    + exists (S nOk), nFail, nPath. cbn [length].
      repeat split; try lia; try assumption; try congruence.
    + destruct (countEvents updateFailed evs) as [|[|n]] eqn:En; [| |lia].
      * exists nOk, nFail, (S nPath). cbn [length].
        repeat split; try lia; try assumption; try congruence.
      * exists nOk, (S nFail), nPath. cbn [length].
        repeat split; try lia; try assumption; try congruence.
Qed.

End SyncTheorems.

Section SyncBatch.
Context `{api : DriveApi}.

(** C3: a batch of [N] approved records, each with an analysis (identifiers
    being unique in the list), during which exactly one update is rejected
    and no call of the path resolver is: the executor does not stop at the
    failure.  It returns, the [N - 1] other updates are all sent and
    accepted, [N - 1] records more are [synced], one more is [error], no
    record is left [approved], and the progress pair ends at [N] of [N]. *)
Theorem sync_isolates_one_failure (app : App.t) (d : DriveSt) (N : nat) :
  App.sourceMode app = drive ->
  NoDup (map ProcessedFile.id (App.files app)) ->
  countStatus approved (App.files app) = N ->
  (forall f, In f (App.files app) -> ProcessedFile.status f = approved ->
             ProcessedFile.analysis f <> None) ->
  let out := handleSyncToDrive (app, d) in
  let app' := fst (snd out) in
  let d' := snd (snd out) in
  countEvents updateFailed (trace d') = countEvents updateFailed (trace d) + 1 ->
  countEvents folderCallFailed (trace d') = countEvents folderCallFailed (trace d) ->
  fst out = Ok tt /\
  countEvents updateOk (trace d') = countEvents updateOk (trace d) + (N - 1) /\
  countStatus synced (App.files app') = countStatus synced (App.files app) + (N - 1) /\
  countStatus error (App.files app') = countStatus error (App.files app) + 1 /\
  countStatus approved (App.files app') = 0 /\
  App.syncProgress app' = mkProgress N N /\
  App.isSyncing app' = false.
Proof.
  intros Hmode Hnd HN Han. cbn zeta.
  assert (HN' : length (List.filter isApproved (App.files app)) = N) by exact HN.
  destruct N as [|n].
  - assert (E : handleSyncToDrive (app, d) = (Ok tt, (app, d))).
    { unfold handleSyncToDrive. cbn [fst snd]. rewrite Hmode, HN'. reflexivity. }
    rewrite E. cbn [fst snd]. intros Hf _. exfalso. clear -Hf. lia.
  - set (app0 := App.mk (App.apiKey app) (App.sourceMode app) true
                   (mkProgress 0 (S n)) (App.appState app) (App.files app) (App.error app)).
    assert (E : handleSyncToDrive (app, d)
                = match syncLoop (List.filter isApproved (App.files app)) 0 (app0, d) with
                  | (Ok _, (app2, d2)) =>
                      (Ok tt, (App.mk (App.apiKey app2) (App.sourceMode app2) false
                                 (App.syncProgress app2) (App.appState app2)
                                 (App.files app2) (App.error app2), d2))
                  | (Throw e, s2) => (Throw e, s2)
                  end).
    { unfold handleSyncToDrive. cbn [fst snd]. rewrite Hmode, HN'. cbn [Nat.eqb].
      unfold bind, liftApp. cbn [fst snd setIsSyncing setSyncProgress modify].
      subst app0. cbn.
      destruct (syncLoop _ 0 _) as [[[]|e] [app2 d2]]; reflexivity. }
    rewrite E. clear E.
    pose proof (syncLoop_run (List.filter isApproved (App.files app)) 0 app0 d) as Hrun.
    destruct Hrun as (Hr & nOk & nFail & nPath & Hlen & HeOk & HeFail & HePath & Hsy & Her
                      & Hap & Htot & Hcur & Hsyn).
    { exact Hnd. }
    { apply NoDup_ids_filter. exact Hnd. }
    { intros f Hf. apply List.filter_In in Hf as [Hf Hst]. apply Han; [exact Hf|].
      apply Status_eqb_eq. exact Hst. }
    { intros f Hf. apply List.filter_In in Hf as [Hf Hst]. exists f.
      split; [exact Hf|]. split; [reflexivity|]. apply Status_eqb_eq. exact Hst. }
    cbn zeta in *.
    destruct (syncLoop (List.filter isApproved (App.files app)) 0 (app0, d))
      as [r [app2 d2]].
    cbn [fst snd] in *. subst r. cbn [fst snd App.files App.syncProgress App.isSyncing].
    intros Hf Hp. rewrite HN' in *.
    change (App.files app0) with (App.files app) in *.
    change (App.syncProgress app0) with (mkProgress 0 (S n)) in *. cbn [total current] in *.
    clearbody app0.
    assert (nFail = 1) by (clear -HeFail Hf; lia).
    assert (nPath = 0) by (clear -HePath Hp; lia). subst nFail nPath.
    assert (nOk = n) by (clear -Hlen; lia). subst nOk.
    split; [reflexivity|]. split; [lia|]. split; [lia|]. split; [lia|]. split; [lia|].
    split; [|reflexivity].
    destruct (App.syncProgress app2) as [c t]. cbn in *.
    destruct (List.filter isApproved (App.files app)); [discriminate|].
    subst. reflexivity.
Qed.

End SyncBatch.

Lemma NoDup_strings (l : list string) : bool_decide (NoDup l) = true -> NoDup l.
Proof. intros H. apply bool_decide_eq_true in H. exact H. Qed.

(** C3 on the in-memory store: three approved records, the update of ["b"]
    being rejected. *)
Lemma sync_isolates_one_failure_sample :
  let app := Sample.app [Sample.record "a" (Some "Work/2024") approved;
                         Sample.record "b" (Some "Work/2024") approved;
                         Sample.record "c" (Some "") approved] in
  let d := FakeDrive.fresh (FakeDrive.mkW [] 0 0 ["b"] []) in
  let out := @handleSyncToDrive FakeDrive.api (app, d) in
  fst out = Ok tt /\
  countEvents updateOk (trace (snd (snd out))) = countEvents updateOk (trace d) + (3 - 1) /\
  countStatus synced (App.files (fst (snd out))) = countStatus synced (App.files app) + (3 - 1) /\
  countStatus error (App.files (fst (snd out))) = countStatus error (App.files app) + 1 /\
  countStatus approved (App.files (fst (snd out))) = 0 /\
  App.syncProgress (fst (snd out)) = mkProgress 3 3 /\
  App.isSyncing (fst (snd out)) = false.
Proof.
  cbn zeta.
  apply (@sync_isolates_one_failure FakeDrive.api _ _ 3).
  - reflexivity.
  - apply NoDup_strings. vm_compute. reflexivity.
  - reflexivity.
  - intros f Hf _. cbn in Hf.
    destruct Hf as [<-|[<-|[<-|[]]]]; discriminate.
  - vm_compute. reflexivity.
  - vm_compute. reflexivity.
Defined.

Example sync_sample_statuses :
  let app := Sample.app [Sample.record "a" (Some "Work/2024") approved;
                         Sample.record "b" (Some "Work/2024") approved;
                         Sample.record "r" (Some "Work") rejected;
                         Sample.record "c" (Some "") approved] in
  let d := FakeDrive.fresh (FakeDrive.mkW [] 0 0 ["b"] []) in
  let out := @handleSyncToDrive FakeDrive.api (app, d) in
  map ProcessedFile.status (App.files (fst (snd out))) = [synced; error; rejected; synced] /\
  writes (trace (snd (snd out)))
  = [EvCreate "Work" "Work" "root" (Ok "folder-0");
     EvCreate "Work/2024" "2024" "folder-0" (Ok "folder-1");
     EvUpdate (mkUpdateParams "a" "a renamed.txt" (Some "folder-1") (Some "inbox")) (Ok tt);
     EvUpdate (mkUpdateParams "b" "b renamed.txt" (Some "folder-1") (Some "inbox"))
              (Throw (RemoteError "update rejected"));
     EvUpdate (mkUpdateParams "c" "c renamed.txt" None None) (Ok tt)].
Proof. vm_compute. split; reflexivity. Qed.

(** C5, on the code: a record without analysis is passed over by
    [continue] before the counter is set.  A batch made of one such record
    ends at 0 of 1; a batch that ends with one ends at 1 of 2. *)
Lemma progress_stalls_on_skipped_record :
  let d := FakeDrive.fresh FakeDrive.empty in
  let out1 := @handleSyncToDrive FakeDrive.api
                (Sample.app [Sample.record "f1" None approved], d) in
  let out2 := @handleSyncToDrive FakeDrive.api
                (Sample.app [Sample.record "f1" (Some "Work") approved;
                             Sample.record "f2" None approved], d) in
  (fst out1 = Ok tt /\
   App.syncProgress (fst (snd out1)) = mkProgress 0 1 /\
   map ProcessedFile.status (App.files (fst (snd out1))) = [approved]) /\
  (fst out2 = Ok tt /\
   App.syncProgress (fst (snd out2)) = mkProgress 1 2 /\
   map ProcessedFile.status (App.files (fst (snd out2))) = [synced; approved]).
Proof. vm_compute. repeat split; reflexivity. Qed.

(** ** Sessions and the folder cache *)

Section ResolverSessions.
Context `{api : DriveApi}.








End ResolverSessions.

Lemma fake_creates_nonempty : @CreatesNonEmpty FakeDrive.api.
Proof.
  intros name parentId w id w' H. cbn in H. unfold FakeDrive.create in H.
  destruct (FakeDrive.createFailures w); [|discriminate].
  injection H as <- _. discriminate.
Qed.



Example overlapping_paths_sample :
  writes (trace (@resolveAll FakeDrive.api ["Work/2024"; " Work / 2024 "; "Work/2025"]
                   (FakeDrive.fresh FakeDrive.empty)))
  = [EvCreate "Work" "Work" "root" (Ok "folder-0");
     EvCreate "Work/2024" "2024" "folder-0" (Ok "folder-1");
     EvCreate "Work/2025" "2025" "folder-0" (Ok "folder-2")].
Proof. vm_compute. reflexivity. Qed.

Example root_paths_sample :
  map (fun p => @ensureFolderPath FakeDrive.api p (FakeDrive.fresh FakeDrive.empty))
      [""; "/"; " / "]
  = [(Ok "root", FakeDrive.fresh FakeDrive.empty);
     (Ok "root", FakeDrive.fresh FakeDrive.empty);
     (Ok "root", FakeDrive.fresh FakeDrive.empty)].
Proof. vm_compute. reflexivity. Qed.

Example lookup_calls_sample :
  let s := FakeDrive.fresh FakeDrive.empty in
  let s1 := snd (@ensureFolderPath FakeDrive.api "Work" s) in
  trace s1 = [EvList (folderQuery "Work" "root") (Ok []);
              EvCreate "Work" "Work" "root" (Ok "folder-0")] /\
  trace (snd (@ensureFolderPath FakeDrive.api "Work" s1)) = trace s1.
Proof. vm_compute. split; reflexivity. Qed.

(** ** Reachable states of the review list *)

(** A handler that maps over the list, keeping identifiers and never
    making a marked record lose its analysis, keeps the invariant. *)
Lemma reviewInv_map (h : ProcessedFile.t -> ProcessedFile.t) (fs : list ProcessedFile.t) :
  (forall f, ProcessedFile.id (h f) = ProcessedFile.id f) ->
  (forall f, In f fs -> syncedHasAnalysis f -> syncedHasAnalysis (h f)) ->
  reviewInv fs -> reviewInv (map h fs).
Proof.
  intros Hid Hh [Hnd Hall]. split.
  - rewrite map_map. erewrite map_ext; [exact Hnd|]. exact Hid.
  - apply List.Forall_forall. intros f' Hf'. apply in_map_iff in Hf' as (f & <- & Hf).
    apply Hh; [exact Hf|]. rewrite List.Forall_forall in Hall. apply Hall. exact Hf.
Qed.

Lemma reviewInv_review_mark (x : string) (st : Status) (fs : list ProcessedFile.t) :
  st = approved \/ st = rejected ->
  reviewInv fs -> reviewInv (markStatus x st fs).
Proof.
  intros Hst. apply reviewInv_map.
  - intros f. destruct (String.eqb (ProcessedFile.id f) x); reflexivity.
  - intros f _ Hf. destruct (String.eqb (ProcessedFile.id f) x); [|exact Hf].
    intros [H|H]; cbn in H; destruct Hst; congruence.
Qed.

Lemma reviewInv_sync_mark (x : string) (st : Status) (fs : list ProcessedFile.t) :
  (forall g, In g fs -> ProcessedFile.id g = x -> ProcessedFile.analysis g <> None) ->
  reviewInv fs -> reviewInv (markStatus x st fs).
Proof.
  intros Hx. apply reviewInv_map.
  - intros f. destruct (String.eqb (ProcessedFile.id f) x); reflexivity.
  - intros f Hin Hf. destruct (String.eqb_spec (ProcessedFile.id f) x) as [E|_]; [|exact Hf].
    intros _. cbn. apply Hx; assumption.
Qed.

Lemma reviewInv_approveAll (a : App.t) :
  reviewInv (App.files a) -> reviewInv (App.files (snd (handleApproveAll a))).
Proof.
  destruct a as [k m sy pr st fs er]. cbn. apply reviewInv_map.
  - intros f. destruct (Status_eqb (ProcessedFile.status f) pending); reflexivity.
  - intros f _ Hf. destruct (Status_eqb (ProcessedFile.status f) pending); [|exact Hf].
    intros [H|H]; discriminate.
Qed.

Lemma reviewInv_updateAnalysis (id : string) (u : PartialAnalysis.t) (a : App.t) :
  reviewInv (App.files a) -> reviewInv (App.files (snd (handleUpdateAnalysis id u a))).
Proof.
  destruct a as [k m sy pr st fs er]. cbn. apply reviewInv_map.
  - intros f. destruct (String.eqb (ProcessedFile.id f) id); [|reflexivity].
    destruct (ProcessedFile.analysis f); reflexivity.
  - intros f _ Hf. destruct (String.eqb (ProcessedFile.id f) id); [|exact Hf].
    destruct (ProcessedFile.analysis f); [|exact Hf]. intros _. discriminate.
Qed.

Lemma reviewInv_ingest (selectedFiles : list DriveFile.t) :
  NoDup (map DriveFile.id selectedFiles) -> reviewInv (ingest selectedFiles).
Proof.
  intros Hnd. split.
  - unfold ingest. rewrite map_map. cbn. exact Hnd.
  - apply List.Forall_forall. intros f Hf. apply in_map_iff in Hf as (d & <- & _).
    intros [H|H]; discriminate.
Qed.

Lemma reviewInv_mergeResults (results : list AnalysisResult.t) (fs : list ProcessedFile.t) :
  reviewInv fs -> reviewInv (mergeResults results fs).
Proof.
  apply reviewInv_map.
  - intros f. destruct (Js.find _ results); reflexivity.
  - intros f _ Hf. destruct (Js.find _ results); [|exact Hf]. intros _. discriminate.
Qed.

Lemma reviewInv_filesSelected (selectedFiles : list DriveFile.t)
    (analyze : Result (list AnalysisResult.t)) (a : App.t) :
  NoDup (map DriveFile.id selectedFiles) ->
  reviewInv (App.files (snd (handleFilesSelected selectedFiles analyze a))).
Proof.
  intros Hnd. pose proof (reviewInv_ingest selectedFiles Hnd) as Hing.
  destruct a as [k m sy pr st fs er].
  unfold handleFilesSelected, bind, tryCatch, setFiles, setAppState, setError, modify. cbn.
  destruct k as [key|]; cbn; [|exact Hing].
  destruct (Js.truthy key); cbn; [|exact Hing].
  destruct analyze as [results|e]; cbn; [|exact Hing].
  apply reviewInv_mergeResults. exact Hing.
Qed.

Lemma NoDup_ids_inj (fs : list ProcessedFile.t) (f g : ProcessedFile.t) :
  NoDup (map ProcessedFile.id fs) -> In f fs -> In g fs ->
  ProcessedFile.id f = ProcessedFile.id g -> f = g.
Proof.
  induction fs as [|h fs IH]; intros Hnd Hf Hg E; [contradiction|].
  cbn in Hnd. apply NoDup_cons in Hnd as [Hh Hnd].
  destruct Hf as [<-|Hf], Hg as [<-|Hg].
  - reflexivity.
  - exfalso. apply Hh. rewrite E. apply list_elem_of_In. apply in_map. exact Hg.
  - exfalso. apply Hh. rewrite <- E. apply list_elem_of_In. apply in_map. exact Hf.
  - apply IH; assumption.
Qed.

Section ReachableStates.
Context `{api : DriveApi}.

Lemma syncLoop_reviewInv (l : list ProcessedFile.t) :
  forall (i : nat) (app : App.t) (d : DriveSt),
    reviewInv (App.files app) ->
    (forall f g, In f l -> In g (App.files app) ->
                 ProcessedFile.id g = ProcessedFile.id f ->
                 ProcessedFile.analysis g = ProcessedFile.analysis f) ->
    reviewInv (App.files (fst (snd (syncLoop l i (app, d))))).
Proof.
  induction l as [|file rest IH]; intros i app d Hinv Hagree; [exact Hinv|].
  destruct (ProcessedFile.analysis file) as [a|] eqn:Ha.
  - rewrite (syncLoop_step file a rest i app d Ha). cbn zeta. apply IH.
    + cbn. apply reviewInv_sync_mark; [|exact Hinv].
      intros g Hg Hid. rewrite (Hagree file g (or_introl eq_refl) Hg Hid), Ha. discriminate.
    + cbn. intros f g Hf Hg Hid. unfold markStatus in Hg.
      apply in_map_iff in Hg as (g0 & <- & Hg0).
      rewrite <- (Hagree f g0 (or_intror Hf) Hg0).
      * destruct (String.eqb (ProcessedFile.id g0) (ProcessedFile.id file)); reflexivity.
      * rewrite <- Hid.
        destruct (String.eqb (ProcessedFile.id g0) (ProcessedFile.id file)); reflexivity.
  - cbn [syncLoop]. rewrite Ha. apply IH; [exact Hinv|].
    intros f g Hf. apply Hagree. right. exact Hf.
Qed.

Lemma handleSyncToDrive_reviewInv (app : App.t) (d : DriveSt) :
  reviewInv (App.files app) ->
  reviewInv (App.files (fst (snd (handleSyncToDrive (app, d))))).
Proof.
  intros Hinv. unfold handleSyncToDrive. cbn [fst snd].
  destruct (App.sourceMode app); [exact Hinv|].
  destruct (Nat.eqb (length (List.filter isApproved (App.files app))) 0); [exact Hinv|].
  unfold bind, liftApp. cbn [fst snd setIsSyncing setSyncProgress modify].
  match goal with |- context [syncLoop ?l ?i (?a, ?d0)] =>
    pose proof (syncLoop_reviewInv l i a d0) as Hloop;
    destruct (syncLoop l i (a, d0)) as [[[]|e] [app2 d2]] end;
    cbn in Hloop |- *; apply Hloop; try exact Hinv;
    intros f g Hf Hg Hid; apply List.filter_In in Hf as [Hf _];
    f_equal; apply (NoDup_ids_inj (App.files app)); solve [assumption | apply Hinv].
Qed.

Lemma act_reviewInv (a : UserAction) (s : App.t * DriveSt) :
  wellFormed a ->
  reviewInv (App.files (fst s)) ->
  reviewInv (App.files (fst (snd (act a s)))).
Proof.
  destruct s as [app d]. intros Hwf Hinv. cbn [fst] in Hinv.
  destruct a; cbn [act]; unfold liftApp; cbn [fst snd].
  - destruct (handleFilesSelected selectedFiles analyze app) as [r app'] eqn:E. cbn.
    change app' with (snd (r, app')). rewrite <- E.
    apply reviewInv_filesSelected. exact Hwf.
  - exact Hinv.
  - exact Hinv.
  - cbn. apply reviewInv_review_mark; [left; reflexivity | exact Hinv].
  - cbn. apply reviewInv_review_mark; [right; reflexivity | exact Hinv].
  - destruct (handleApproveAll app) as [r app'] eqn:E. cbn.
    change app' with (snd (r, app')). rewrite <- E. apply reviewInv_approveAll. exact Hinv.
  - destruct (handleUpdateAnalysis id updates app) as [r app'] eqn:E. cbn.
    change app' with (snd (r, app')). rewrite <- E. apply reviewInv_updateAnalysis. exact Hinv.
  - apply handleSyncToDrive_reviewInv. exact Hinv.
  - cbn. split; constructor.
Qed.

Lemma runActions_reviewInv (actions : list UserAction) :
  forall s, Forall wellFormed actions ->
            reviewInv (App.files (fst s)) ->
            reviewInv (App.files (fst (runActions actions s))).
Proof.
  induction actions as [|a rest IH]; intros s Hwf Hinv; [exact Hinv|].
  apply Forall_cons in Hwf as [Ha Hrest]. cbn. apply IH; [exact Hrest|].
  apply act_reviewInv; assumption.
Qed.

(** C1, amended: in every state that a session reaches (the identifiers of
    each selection being unique), a record whose status is [synced] or
    [error] has an analysis.  Approving does not ask for one: the executor
    is what passes over a record without analysis. *)
Theorem synced_records_have_analysis (actions : list UserAction) (w : World) :
  Forall wellFormed actions ->
  Forall syncedHasAnalysis (App.files (fst (runActions actions (start w)))).
Proof.
  intros Hwf. apply (runActions_reviewInv actions (start w) Hwf).
  split; constructor.
Qed.

End ReachableStates.

(** C1, as stated, fails: a record for which the gateway returned nothing
    is approved by [approve] as well as by [approveAll]. *)
Lemma approved_without_analysis_reachable :
  let selection := [Sample.descriptor "f1" "IMG_001.jpg" (Some ["inbox"])] in
  let before := [Login "AIza-example-key"; SelectFiles selection (Ok [])] in
  let view := map (fun f => (ProcessedFile.status f, ProcessedFile.analysis f)) in
  view (App.files (fst (@runActions FakeDrive.api (before ++ [Approve "f1"])
                          (@start FakeDrive.api FakeDrive.empty))))
  = [(approved, None)] /\
  view (App.files (fst (@runActions FakeDrive.api (before ++ [ApproveAll])
                          (@start FakeDrive.api FakeDrive.empty))))
  = [(approved, None)].
Proof. vm_compute. split; reflexivity. Qed.

(** The amended C1 on a session: two files selected, a suggestion for the
    first only, all approved, then synced. *)
Lemma synced_records_have_analysis_sample :
  Forall syncedHasAnalysis
    (App.files (fst (@runActions FakeDrive.api
       [Login "AIza-example-key";
        SelectFiles [Sample.descriptor "f1" "IMG_001.jpg" (Some ["inbox"]);
                     Sample.descriptor "f2" "notes.txt" (Some ["inbox"])]
                    (Ok [Sample.suggestion "f1" "Personal/Photos/2022" "Beach Trip 2022.jpg"]);
        ApproveAll;
        SyncToDrive]
       (@start FakeDrive.api FakeDrive.empty)))).
Proof.
  apply (@synced_records_have_analysis FakeDrive.api).
  repeat (apply List.Forall_cons;
          [first [exact I | apply NoDup_strings; vm_compute; reflexivity]|]).
  apply List.Forall_nil.
Defined.

Example session_sample :
  let s := @runActions FakeDrive.api
       [Login "AIza-example-key";
        SelectFiles [Sample.descriptor "f1" "IMG_001.jpg" (Some ["inbox"]);
                     Sample.descriptor "f2" "notes.txt" (Some ["inbox"])]
                    (Ok [Sample.suggestion "f1" "Personal/Photos/2022" "Beach Trip 2022.jpg"]);
        ApproveAll;
        SyncToDrive]
       (@start FakeDrive.api FakeDrive.empty) in
  map ProcessedFile.status (App.files (fst s)) = [synced; approved] /\
  App.syncProgress (fst s) = mkProgress 1 2 /\
  writes (trace (snd s))
  = [EvCreate "Personal" "Personal" "root" (Ok "folder-0");
     EvCreate "Personal/Photos" "Photos" "folder-0" (Ok "folder-1");
     EvCreate "Personal/Photos/2022" "2022" "folder-1" (Ok "folder-2");
     EvUpdate (mkUpdateParams "f1" "Beach Trip 2022.jpg" (Some "folder-2") (Some "inbox"))
              (Ok tt)].
Proof. vm_compute. repeat split; reflexivity. Qed.

(** ** Classification gateway *)

Lemma mapResult_ok (r : json) : r <> JNull -> isOk (mapResult r) = true.
Proof. destruct r; intros H; try reflexivity. contradiction. Qed.

Lemma mapAll_all {A B} (f : A -> Result B) (l : list A) :
  (forall x, In x l -> isOk (f x) = true) ->
  exists ys, mapAll f l = Ok ys /\ Forall2 (fun x y => f x = Ok y) l ys.
Proof.
  induction l as [|x l IH]; intros H; cbn.
  - exists []. split; [reflexivity | constructor].
  - pose proof (H x (or_introl eq_refl)) as Hx.
    destruct (f x) as [y|e] eqn:E; [|discriminate].
    destruct IH as (ys & -> & Hys); [intros z Hz; apply H; right; exact Hz|].
    exists (y :: ys). split; [reflexivity|]. constructor; assumption.
Qed.

Lemma mapAll_none {A B} (f : A -> Result B) (l : list A) (x : A) :
  In x l -> isOk (f x) = false -> isOk (mapAll f l) = false.
Proof.
  induction l as [|z l IH]; intros Hin Hx; [contradiction|]. cbn.
  destruct Hin as [->|Hin].
  - destruct (f x); [discriminate | reflexivity].
  - destruct (f z); [|reflexivity]. specialize (IH Hin Hx).
    destruct (mapAll f l); [discriminate | reflexivity].
Qed.

Section GatewayOutcomes.
Variable toISOString : Z -> Result string.
Variable JSON_parse : string -> Result json.
Variable env_API_KEY : option string.
Variable generateContent : string -> Result GenerateContentResponse.

Let analyze := analyzeFilesBatch toISOString JSON_parse env_API_KEY generateContent.
Let describe := mapAll (describeFile toISOString).
Let request (descriptions : list string) :=
  generateContent (prompt (Js.join (newline +:+ "---" +:+ newline) descriptions)).

(** C7, amended: for a batch that is not empty the call either throws or
    returns one entry for every element of the parsed payload.  It throws
    when no key is at hand, when a date cannot be printed, when the remote
    call fails, when the text is not JSON, and when the parsed value is not
    an array or holds a [null]; an absent or empty text gives the empty
    list; in every other case each element of the array, whatever its
    shape, comes back with its own keys and a [category] key. *)
Theorem analyzeFilesBatch_all_or_nothing (f : DriveFile.t) (rest : list DriveFile.t)
    (apiKey : option string) :
  let files := f :: rest in
  let out := analyze files apiKey in
  (forall key, keyToUse env_API_KEY apiKey = Some key -> Js.truthy key = false ->
     isOk out = false) /\
  (keyToUse env_API_KEY apiKey = None -> isOk out = false) /\
  (forall key, keyToUse env_API_KEY apiKey = Some key -> Js.truthy key = true ->
     (forall e, describe files = Throw e -> out = Throw e) /\
     (forall descriptions, describe files = Ok descriptions ->
        (forall e, request descriptions = Throw e -> out = Throw e) /\
        (forall response, request descriptions = Ok response ->
           (text response = None \/ text response = Some "" -> out = Ok []) /\
           (forall t, text response = Some t -> t <> "" ->
              (forall e, JSON_parse t = Throw e -> out = Throw e) /\
              (forall results, JSON_parse t = Ok results ->
                 (forall items, results <> JArr items) -> isOk out = false) /\
              (forall items, JSON_parse t = Ok (JArr items) ->
                 In JNull items -> isOk out = false) /\
              (forall items, JSON_parse t = Ok (JArr items) ->
                 ~ In JNull items ->
                 exists entries, out = Ok entries /\
                   Forall2 (fun r entry => mapResult r = Ok entry) items entries))))).
Proof.
  cbn zeta. subst analyze describe request. unfold analyzeFilesBatch. cbn [length Nat.eqb].
  split; [|split; [|]].
  - intros key -> Hk. rewrite Hk. reflexivity.
  - intros ->. reflexivity.
  - intros key -> Hk. rewrite Hk. cbn [negb]. split.
    + intros e ->. reflexivity.
    + intros descriptions ->. split.
      * intros e ->. reflexivity.
      * intros response ->. split.
        -- intros [->| ->]; reflexivity.
        -- intros t -> Ht. apply truthy_nonempty in Ht. rewrite Ht. cbn [negb].
           split; [|split; [|split]].
           ++ intros e ->. reflexivity.
           ++ intros results -> Hna. destruct results; try reflexivity.
              exfalso. eapply Hna. reflexivity.
           ++ intros items -> Hnull. cbn [mapResults].
              apply (mapAll_none mapResult items JNull Hnull). reflexivity.
           ++ intros items -> Hnull. cbn [mapResults].
              apply mapAll_all. intros x Hx. apply mapResult_ok.
              intros ->. contradiction.
Qed.

End GatewayOutcomes.

(** C7, as stated, fails: a payload that is an array of one object without
    any of the required keys does not fit the schema, and the call returns
    it, with an undefined [category], instead of failing. *)
Lemma unvalidated_payload_is_returned :
  let files := [Sample.descriptor "f1" "IMG_001.jpg" None] in
  let remote := fun _ : string => Ok (mkResponse (Some "[{}]")) in
  FakePlatform.JSON_parse "[{}]" = Ok (JArr [JObj []]) /\
  conformsToSchema (JArr [JObj []]) = false /\
  analyzeFilesBatch FakePlatform.toISOString FakePlatform.JSON_parse None remote
                    files (Some "AIza-example-key")
  = Ok [[("category", None)]].
Proof. vm_compute. repeat split; reflexivity. Qed.

Example gateway_failures_sample :
  let files := [Sample.descriptor "f1" "IMG_001.jpg" None] in
  let run := analyzeFilesBatch FakePlatform.toISOString FakePlatform.JSON_parse None in
  run (fun _ => Throw (RemoteError "503")) files (Some "AIza-example-key")
  = Throw (RemoteError "503") /\
  run (fun _ => Ok (mkResponse (Some "not json"))) files (Some "AIza-example-key")
  = Throw SyntaxError /\
  run (fun _ => Ok (mkResponse None)) files (Some "AIza-example-key") = Ok [] /\
  run (fun _ => Ok (mkResponse (Some "[]"))) [] None = Ok [] /\
  isOk (run (fun _ => Ok (mkResponse (Some "[]"))) files None) = false.
Proof. vm_compute. repeat split; reflexivity. Qed.

Example mapResult_sample :
  mapResults (JArr [JObj [("fileId", JStr "f1"); ("category", JStr "01_Work")];
                    JNum (7 # 1); JStr "ab"])
  = Ok [[("fileId", Some (JStr "f1")); ("category", Some (JStr "01_Work"))];
        [("category", None)];
        [("0", Some (JStr "a")); ("1", Some (JStr "b")); ("category", None)]].
Proof. vm_compute. reflexivity. Qed.

(* ===================================================================== *)
(** * Further properties of the code *)
(* ===================================================================== *)

(** ** Strings: [split], [join] and [trim] *)

Lemma split_cons_inv (sep : ascii) (s : string) : Js.split sep s <> [].
Proof.
  destruct s as [|c r]; cbn; [discriminate|].
  destruct (Ascii.eqb c sep); [discriminate|].
  destruct (Js.split sep r); discriminate.
Qed.

Lemma split_app_sep (sep : ascii) (a rest : string) :
  occurs sep a = false ->
  Js.split sep (a +:+ String sep rest) = a :: Js.split sep rest.
Proof.
  induction a as [|c a IH]; intros Hfree.
  - change ("" +:+ String sep rest) with (String sep rest). cbn.
    rewrite Ascii.eqb_refl. reflexivity.
  - change (String c a +:+ String sep rest) with (String c (a +:+ String sep rest)).
    cbn in Hfree |- *. apply orb_false_iff in Hfree as [Hc Ha].
    rewrite Hc. rewrite (IH Ha). reflexivity.
Qed.

Lemma split_free (sep : ascii) (a : string) :
  occurs sep a = false -> Js.split sep a = [a].
Proof.
  induction a as [|c a IH]; intros Hfree; cbn; [reflexivity|].
  cbn in Hfree. apply orb_false_iff in Hfree as [Hc Ha].
  rewrite Hc, (IH Ha). reflexivity.
Qed.

(** Splitting what [join] glued gives the pieces back, when no piece holds
    the separator. *)
Lemma split_join (sep : ascii) (parts : list string) :
  parts <> [] ->
  Forall (fun p => occurs sep p = false) parts ->
  Js.split sep (Js.join (String sep "") parts) = parts.
Proof.
  induction parts as [|x rest IH]; intros Hne Hfree; [contradiction|].
  apply Forall_cons in Hfree as [Hx Hrest].
  destruct rest as [|y rest'].
  - cbn. apply split_free. exact Hx.
  - change (Js.join (String sep "") (x :: y :: rest'))
      with (x +:+ String sep (Js.join (String sep "") (y :: rest'))).
    rewrite split_app_sep by exact Hx. f_equal. apply IH; [discriminate | exact Hrest].
Qed.

Lemma split_segments_free (sep : ascii) (s : string) :
  Forall (fun p => occurs sep p = false) (Js.split sep s).
Proof.
  induction s as [|c r IH]; cbn.
  - repeat constructor.
  - destruct (Ascii.eqb c sep) eqn:E.
    + constructor; [reflexivity | exact IH].
    + destruct (Js.split sep r) as [|h t]; [repeat constructor; cbn; rewrite E; reflexivity|].
      apply Forall_cons in IH as [Hh Ht]. constructor; [|exact Ht].
      cbn. rewrite E, Hh. reflexivity.
Qed.

Lemma trimStart_idem (s : string) : Js.trimStart (Js.trimStart s) = Js.trimStart s.
Proof.
  induction s as [|c r IH]; cbn; [reflexivity|].
  destruct (Js.isWhiteSpace c) eqn:E; [exact IH|]. cbn. rewrite E. reflexivity.
Qed.

Lemma trimEnd_idem (s : string) : Js.trimEnd (Js.trimEnd s) = Js.trimEnd s.
Proof.
  induction s as [|c r IH]; cbn; [reflexivity|].
  destruct (Js.isWhiteSpace c && String.eqb (Js.trimEnd r) "") eqn:E; [reflexivity|].
  cbn. rewrite IH, E. reflexivity.
Qed.

Lemma trimStart_trimEnd (s : string) :
  Js.trimStart s = s -> Js.trimStart (Js.trimEnd s) = Js.trimEnd s.
Proof.
  destruct s as [|c r]; cbn; [reflexivity|].
  destruct (Js.isWhiteSpace c) eqn:E.
  - intros H. exfalso.
    assert (Hlen : String.length (Js.trimStart r) <= String.length r).
    { clear. induction r as [|c r IH]; cbn; [lia|].
      destruct (Js.isWhiteSpace c); cbn; lia. }
    rewrite H in Hlen. cbn in Hlen. lia.
  - intros _. cbn. rewrite E. reflexivity.
Qed.

Lemma trim_idem (s : string) : Js.trim (Js.trim s) = Js.trim s.
Proof.
  unfold Js.trim. rewrite (trimStart_trimEnd (Js.trimStart s)) by apply trimStart_idem.
  apply trimEnd_idem.
Qed.

Lemma occurs_trimStart (c : ascii) (s : string) :
  occurs c s = false -> occurs c (Js.trimStart s) = false.
Proof.
  induction s as [|c0 r IH]; cbn; [reflexivity|]. intros H.
  apply orb_false_iff in H as [H0 Hr].
  destruct (Js.isWhiteSpace c0); [apply IH; exact Hr|]. cbn. rewrite H0, Hr. reflexivity.
Qed.

Lemma occurs_trimEnd (c : ascii) (s : string) :
  occurs c s = false -> occurs c (Js.trimEnd s) = false.
Proof.
  induction s as [|c0 r IH]; cbn; [reflexivity|]. intros H.
  apply orb_false_iff in H as [H0 Hr].
  destruct (Js.isWhiteSpace c0 && String.eqb (Js.trimEnd r) ""); [reflexivity|].
  cbn. rewrite H0, (IH Hr). reflexivity.
Qed.

Lemma allChars_trimStart (s : string) :
  allChars Js.isWhiteSpace s = true -> Js.trimStart s = "".
Proof.
  induction s as [|c r IH]; cbn; [reflexivity|]. intros H.
  apply andb_true_iff in H as [Hc Hr]. rewrite Hc. apply IH. exact Hr.
Qed.

(** What [pathParts] returns: pieces that are not empty, hold no slash and
    are already trimmed. *)
Lemma pathParts_clean (path : string) :
  Forall (fun p => p <> "" /\ occurs "/"%char p = false /\ Js.trim p = p) (pathParts path).
Proof.
  unfold pathParts. apply List.Forall_forall. intros p Hp.
  apply List.filter_In in Hp as [Hp Hne]. apply in_map_iff in Hp as (q & <- & Hq).
  split; [|split].
  - intros E. rewrite E in Hne. discriminate.
  - pose proof (split_segments_free "/"%char path) as Hfree.
    rewrite List.Forall_forall in Hfree. specialize (Hfree q Hq). cbn beta in Hfree.
    unfold Js.trim. apply occurs_trimEnd, occurs_trimStart. exact Hfree.
  - apply trim_idem.
Qed.

Lemma pathParts_blank (path : string) : blankPath path = true -> pathParts path = [].
Proof.
  unfold pathParts, blankPath.
  assert (H : forall s, allChars (fun c => Js.isWhiteSpace c || Ascii.eqb c "/"%char) s = true ->
            Forall (fun q => allChars Js.isWhiteSpace q = true) (Js.split "/"%char s)).
  { induction s as [|c r IH]; cbn; intros Hs; [repeat constructor|].
    apply andb_true_iff in Hs as [Hc Hr]. specialize (IH Hr).
    destruct (Ascii.eqb c "/"%char) eqn:E.
    - constructor; [reflexivity | exact IH].
    - rewrite orb_false_r in Hc.
      destruct (Js.split "/"%char r) as [|h t]; [repeat constructor; cbn; rewrite Hc; reflexivity|].
      apply Forall_cons in IH as [Hh Ht]. constructor; [|exact Ht].
      cbn. rewrite Hc, Hh. reflexivity. }
  intros Hb. specialize (H path Hb).
  induction (Js.split "/"%char path) as [|q l IH]; cbn; [reflexivity|].
  apply Forall_cons in H as [Hq Hl].
  unfold Js.trim at 1. rewrite (allChars_trimStart q Hq). cbn. apply IH. exact Hl.
Qed.

Lemma pathParts_canonical (path : string) :
  pathParts (Js.join "/" (pathParts path)) = pathParts path.
Proof.
  pose proof (pathParts_clean path) as Hclean.
  destruct (pathParts path) as [|x rest] eqn:E; [reflexivity|].
  unfold pathParts at 1. rewrite (split_join "/"%char (x :: rest)).
  - clear E. induction (x :: rest) as [|p l IH]; [reflexivity|].
    apply Forall_cons in Hclean as [(Hne & _ & Htrim) Hl]. cbn. rewrite Htrim.
    destruct (String.eqb_spec p ""); [contradiction|]. cbn. f_equal. apply IH. exact Hl.
  - discriminate.
  - eapply Forall_impl; [exact Hclean|]. intros p (_ & Hp & _). exact Hp.
Qed.

(** ** Folder path resolver: normal forms, the cache, the calls *)

Section ResolverExtras.
Context `{api : DriveApi}.

Lemma ensureFolderPath_blank (path : string) (s : DriveSt) :
  blankPath path = true -> ensureFolderPath path s = (Ok "root", s).
Proof.
  intros Hb. unfold ensureFolderPath. rewrite (pathParts_blank path Hb). reflexivity.
Qed.

(** X1: a path of slashes and white space resolves to ['root'] at once:
    no lookup, no create, the cache as it was. *)
Theorem resolve_blank_path_is_root (path : string) (s : DriveSt) :
  blankPath path = true ->
  ensureFolderPath path s = (Ok "root", s).
Proof.
  apply ensureFolderPath_blank.
Qed.

(** X2: resolving a path and resolving its normal form (the trimmed,
    non-empty segments joined by single slashes) are the same computation. *)
Theorem resolve_depends_on_normal_form (path : string) (s : DriveSt) :
  ensureFolderPath (Js.join "/" (pathParts path)) s = ensureFolderPath path s.
Proof.
  unfold ensureFolderPath. rewrite pathParts_canonical. reflexivity.
Qed.

Lemma append_assoc (a b c : string) : (a +:+ b) +:+ c = a +:+ (b +:+ c).
Proof.
  induction a as [|x a IH]; [reflexivity|].
  change ((String x a +:+ b) +:+ c) with (String x ((a +:+ b) +:+ c)).
  rewrite IH. reflexivity.
Qed.

Lemma join_extend (a p : string) (rest : list string) :
  Js.join "/" ((a +:+ "/" +:+ p) :: rest) = a +:+ "/" +:+ Js.join "/" (p :: rest).
Proof.
  destruct rest as [|y r]; [reflexivity|].
  change (Js.join "/" ((a +:+ "/" +:+ p) :: y :: r))
    with ((a +:+ "/" +:+ p) +:+ "/" +:+ Js.join "/" (y :: r)).
  change (Js.join "/" (p :: y :: r)) with (p +:+ "/" +:+ Js.join "/" (y :: r)).
  rewrite !append_assoc. reflexivity.
Qed.

Lemma extendPath_nonempty (cur part : string) : part <> "" -> extendPath cur part <> "".
Proof.
  intros Hp. unfold extendPath. destruct (Js.truthy cur) eqn:E; [|exact Hp].
  destruct cur; [discriminate|]. discriminate.
Qed.

Lemma fold_extendPath_join (parts : list string) :
  forall cur, cur <> "" -> Forall (fun p => p <> "") parts ->
  fold_left extendPath parts cur = Js.join "/" (cur :: parts).
Proof.
  induction parts as [|p rest IH]; intros cur Hcur Hparts; [reflexivity|].
  apply Forall_cons in Hparts as [Hp Hrest]. cbn [fold_left].
  assert (Hext : extendPath cur p = cur +:+ "/" +:+ p).
  { unfold extendPath. apply truthy_nonempty in Hcur. rewrite Hcur. reflexivity. }
  rewrite IH; [|apply extendPath_nonempty; exact Hp | exact Hrest].
  rewrite Hext, join_extend. reflexivity.
Qed.

Lemma ensureLoop_final (Hne : CreatesNonEmpty) (parts : list string) :
  forall (parent cur : string) (s s1 : DriveSt) (id : string),
    parts <> [] ->
    ensureLoop parts parent cur s = (Ok id, s1) ->
    cacheHit (folderCache s1) (fold_left extendPath parts cur) = Some id.
Proof.
  induction parts as [|part rest IH]; intros parent cur s s1 id Hparts Hrun; [contradiction|].
  cbn in Hrun. cbn [fold_left].
  assert (Hrest : forall v s0,
            cacheHit (folderCache s0) (extendPath cur part) = Some v ->
            ensureLoop rest v (extendPath cur part) s0 = (Ok id, s1) ->
            cacheHit (folderCache s1) (fold_left extendPath rest (extendPath cur part)) = Some id).
  { intros v s0 Hv Hr. destruct rest as [|p2 rest2].
    - cbn in Hr |- *. injection Hr as <- <-. exact Hv.
    - eapply IH; [discriminate | exact Hr]. }
  destruct (cacheHit (folderCache s) (extendPath cur part)) as [v|] eqn:Hhit.
  - eapply Hrest; eassumption.
  - unfold bind in Hrun.
    destruct (checkDrive (extendPath cur part) part parent s) as [[fid|e] s'] eqn:E;
      [|discriminate].
    cbn in Hrun. eapply Hrest; [|exact Hrun].
    cbn. rewrite cacheHit_insert, decide_True by reflexivity.
    pose proof (checkDrive_run (extendPath cur part) part parent s) as (_ & _ & Hid).
    rewrite E in Hid. specialize (Hid Hne fid eq_refl).
    apply truthy_nonempty in Hid. rewrite Hid. reflexivity.
Qed.

(** X3: when [resolve] returns for a path with at least one segment,
    reading the cache at the normal form of the path gives the returned
    identifier. *)
Theorem resolve_caches_normal_form (Hne : CreatesNonEmpty)
    (path : string) (s s1 : DriveSt) (id : string) :
  pathParts path <> [] ->
  ensureFolderPath path s = (Ok id, s1) ->
  cacheHit (folderCache s1) (Js.join "/" (pathParts path)) = Some id.
Proof.
  intros Hparts. unfold ensureFolderPath.
  pose proof (pathParts_clean path) as Hclean.
  destruct (pathParts path) as [|p rest] eqn:E; [contradiction|].
  cbn [length Nat.eqb]. intros Hrun.
  pose proof (ensureLoop_final Hne (p :: rest) "root" "" s s1 id Hparts Hrun) as H.
  cbn [fold_left] in H. change (extendPath "" p) with p in H.
  apply Forall_cons in Hclean as [(Hp & _ & _) Hrest].
  rewrite fold_extendPath_join in H; [exact H | exact Hp |].
  eapply Forall_impl; [exact Hrest|]. intros q (Hq & _ & _). exact Hq.
Qed.

(** The resolver's loop keeps whatever holds before, when one visit to the
    store for a missing prefix, followed by the cache write, keeps it. *)
Lemma ensureLoop_keeps (P : DriveSt -> Prop)
    (Hstep : forall key part parent s,
        cacheHit (folderCache s) key = None -> P s ->
        match checkDrive key part parent s with
        | (Ok fid, s') => P (snd (cacheSet key fid s'))
        | (Throw _, s') => P s'
        end)
    (parts : list string) :
  forall parent cur s, P s -> P (snd (ensureLoop parts parent cur s)).
Proof.
  induction parts as [|part rest IH]; intros parent cur s HP; cbn; [exact HP|].
  destruct (cacheHit (folderCache s) (extendPath cur part)) as [v|] eqn:Hhit.
  - apply IH. exact HP.
  - unfold bind. specialize (Hstep (extendPath cur part) part parent s Hhit HP).
    destruct (checkDrive (extendPath cur part) part parent s) as [[fid|e] s'].
    + cbn. apply IH. exact Hstep.
    + exact Hstep.
Qed.

Lemma ensureFolderPath_keeps (P : DriveSt -> Prop)
    (Hstep : forall key part parent s,
        cacheHit (folderCache s) key = None -> P s ->
        match checkDrive key part parent s with
        | (Ok fid, s') => P (snd (cacheSet key fid s'))
        | (Throw _, s') => P s'
        end)
    (path : string) (s : DriveSt) :
  P s -> P (snd (ensureFolderPath path s)).
Proof.
  intros HP. unfold ensureFolderPath. destruct (Nat.eqb _ 0); [exact HP|].
  apply ensureLoop_keeps; assumption.
Qed.

(** A whole session keeps what every [resolve] and every update call
    keeps. *)
Lemma runActions_keeps (P : DriveSt -> Prop)
    (Hresolve : forall path s, P s -> P (snd (ensureFolderPath path s)))
    (Hupdate : forall fid newName parents target s,
        P s -> P (snd (applyFileUpdate fid newName parents target s)))
    (actions : list UserAction) :
  forall s, P (snd s) -> P (snd (runActions actions s)).
Proof.
  assert (HsyncFile : forall file a d, P d -> P (snd (syncFile file a d))).
  { intros file a d HP. unfold syncFile, bind, resolveTarget.
    destruct (Js.truthy (AnalysisResult.suggestedPath a) && _ && _).
    - unfold bind, ret.
      pose proof (Hresolve (AnalysisResult.suggestedPath a) d HP) as H1.
      destruct (ensureFolderPath (AnalysisResult.suggestedPath a) d) as [[id|e] d1];
        cbn in H1 |- *; [apply Hupdate|]; exact H1.
    - unfold ret. apply Hupdate. exact HP. }
  assert (Hloop : forall l i app d, P d -> P (snd (snd (syncLoop l i (app, d))))).
  { induction l as [|file rest IH]; intros i app d HP; [exact HP|].
    destruct (ProcessedFile.analysis file) as [a|] eqn:Ha.
    - rewrite (syncLoop_step file a rest i app d Ha). cbn zeta. apply IH.
      apply HsyncFile. exact HP.
    - cbn [syncLoop]. rewrite Ha. apply IH. exact HP. }
  assert (Hsync : forall app d, P d -> P (snd (snd (handleSyncToDrive (app, d))))).
  { intros app d HP. unfold handleSyncToDrive. cbn [fst snd].
    destruct (App.sourceMode app); [exact HP|].
    destruct (Nat.eqb (length (List.filter isApproved (App.files app))) 0); [exact HP|].
    unfold bind, liftApp. cbn [fst snd setIsSyncing setSyncProgress modify].
    match goal with |- context [syncLoop ?l ?i (?a, ?d0)] =>
      pose proof (Hloop l i a d0 HP) as H1;
      destruct (syncLoop l i (a, d0)) as [[[]|e] [app2 d2]] end;
      cbn in H1 |- *; exact H1. }
  induction actions as [|a rest IH]; intros [app d] HP; [exact HP|].
  cbn [runActions]. apply IH. cbn [snd] in HP.
  destruct a; cbn [act]; try (unfold liftApp; cbn [fst snd];
    match goal with |- context [?m app] => destruct (m app) end; exact HP).
  apply Hsync. exact HP.
Qed.

Lemma applyFileUpdate_cache (fid newName : string) (parents : option (list string))
    (target : option string) (s : DriveSt) :
  folderCache (snd (applyFileUpdate fid newName parents target s)) = folderCache s.
Proof. rewrite applyFileUpdate_run. reflexivity. Qed.

(** X4: a non-empty identifier, once in the cache for a prefix, stays
    there, unchanged, through every later action of the session. *)
Theorem cached_prefix_is_permanent (actions : list UserAction) (s : App.t * DriveSt)
    (prefix id : string) :
  cacheHit (folderCache (snd s)) prefix = Some id ->
  cacheHit (folderCache (snd (runActions actions s))) prefix = Some id.
Proof.
  apply (runActions_keeps (fun d => cacheHit (folderCache d) prefix = Some id)).
  - intros path d.
    apply (ensureFolderPath_keeps (fun d => cacheHit (folderCache d) prefix = Some id)).
    intros key part parent d0 Hmiss Hk.
    pose proof (checkDrive_run key part parent d0) as (Hc & _ & _).
    cbn beta in Hk.
    destruct (checkDrive key part parent d0) as [[fid|e] d'']; cbn in Hc |- *.
    + rewrite cacheHit_insert, Hc.
      destruct (decide (key = prefix)) as [E|]; [|exact Hk].
      rewrite E, Hk in Hmiss. discriminate.
    + rewrite Hc. exact Hk.
  - intros fid newName parents target d Hk. rewrite applyFileUpdate_cache. exact Hk.
Qed.


End ResolverExtras.

Section ResolverLinks.
Context `{api : DriveApi}.

Lemma checkDrive_shape (key part parent : string) (s : DriveSt) :
  exists evs, trace (snd (checkDrive key part parent s)) = trace s ++ evs /\
    Forall (fun e => isLookup e = true \/ exists r, e = EvCreate key part parent r) evs.
Proof.
  unfold checkDrive, bind, findFolder, bind, callList, ret, logged, createFolder, callCreate.
  destruct (files_list (folderQuery part parent) (world s)) as [[ids|e] w]; cbn.
  - destruct ids as [|id ids]; cbn; [|destruct (Js.truthy id); cbn].
    1,3: destruct (files_create part parent w) as [r w']; cbn;
         eexists; split; [rewrite <- app_assoc; reflexivity|];
         cbn [app]; constructor; [left; reflexivity|];
         constructor; [right; eexists; reflexivity|]; constructor.
    eexists. split; [reflexivity|]. constructor; [left; reflexivity | constructor].
  - eexists. split; [reflexivity|]. constructor; [left; reflexivity | constructor].
Qed.

Lemma createdUnderParent_mono (c c' : gmap string string) (e : Event) :
  (forall k v, cacheHit c k = Some v -> cacheHit c' k = Some v) ->
  createdUnderParent c e -> createdUnderParent c' e.
Proof.
  intros Hmono. destruct e as [| prefix name p r |]; cbn; try exact id.
  intros [H|(k0 & Hk0 & Hp & Hc)]; [left; exact H|].
  right. exists k0. split; [exact Hk0|]. split; [exact Hp|]. apply Hmono. exact Hc.
Qed.

Lemma ensureLoop_linked (Hne : CreatesNonEmpty) (parts : list string) :
  Forall (fun p => p <> "") parts ->
  forall (parent cur : string) (s : DriveSt),
    (cur = "" /\ parent = "root") \/ (cur <> "" /\ cacheHit (folderCache s) cur = Some parent) ->
    Forall (createdUnderParent (folderCache s)) (trace s) ->
    Forall (createdUnderParent (folderCache (snd (ensureLoop parts parent cur s))))
           (trace (snd (ensureLoop parts parent cur s))).
Proof.
  induction parts as [|part rest IH]; intros Hparts parent cur s Hcur Hall; cbn; [exact Hall|].
  apply Forall_cons in Hparts as [Hpart Hrest].
  pose proof (extendPath_nonempty cur part Hpart) as Hkey.
  destruct (cacheHit (folderCache s) (extendPath cur part)) as [v|] eqn:Hhit.
  - apply IH; [exact Hrest | right; split; assumption | exact Hall].
  - unfold bind.
    pose proof (checkDrive_run (extendPath cur part) part parent s) as (Hc & _ & Hid).
    destruct (checkDrive_shape (extendPath cur part) part parent s) as (evs & Ht & Hevs).
    assert (Hnew : Forall (createdUnderParent (folderCache s)) (trace s ++ evs)).
    { apply Forall_app. split; [exact Hall|].
      eapply Forall_impl; [exact Hevs|]. intros e [Hl|(r & ->)].
      - destruct e; try discriminate. exact I.
      - cbn. destruct Hcur as [[-> ->]|[Hc1 Hc2]].
        + left. split; reflexivity.
        + right. exists cur. split; [exact Hc1|]. split; [|exact Hc2].
          unfold extendPath. apply truthy_nonempty in Hc1. rewrite Hc1. reflexivity. }
    destruct (checkDrive (extendPath cur part) part parent s) as [[fid|e] s'] eqn:E;
      cbn in Hc, Ht, Hid |- *.
    + specialize (Hid Hne fid eq_refl). apply truthy_nonempty in Hid.
      apply IH; [exact Hrest | |].
      * right. split; [exact Hkey|]. cbn. rewrite cacheHit_insert, decide_True by reflexivity.
        rewrite Hid. reflexivity.
      * cbn. rewrite Ht. eapply Forall_impl; [exact Hnew|]. intros e0.
        apply createdUnderParent_mono. intros k v Hk. rewrite cacheHit_insert, Hc.
        destruct (decide (extendPath cur part = k)) as [Ek|]; [|exact Hk].
        rewrite <- Ek, Hhit in Hk. discriminate.
    + rewrite Ht, Hc. exact Hnew.
Qed.

Lemma creates_linked (Hne : CreatesNonEmpty) (actions : list UserAction) (w : World) :
  let d := snd (runActions actions (start w)) in
  Forall (createdUnderParent (folderCache d)) (trace d).
Proof.
  cbn zeta.
  apply (runActions_keeps (fun d => Forall (createdUnderParent (folderCache d)) (trace d))).
  - intros path s HP. unfold ensureFolderPath. destruct (Nat.eqb _ 0); [exact HP|].
    apply ensureLoop_linked; [exact Hne | | left; split; reflexivity | exact HP].
    eapply Forall_impl; [apply pathParts_clean|]. intros p (Hp & _). exact Hp.
  - intros fid newName parents target s HP. rewrite applyFileUpdate_run. cbn [snd trace folderCache].
    apply Forall_app. split; [exact HP|]. repeat constructor.
  - constructor.
Qed.

(** The names that the cache inherits are never written to it, and no
    folder is ever created for them: reading them is always a hit. *)
Lemma inherited_untouched (actions : list UserAction) (w : World) (k : string) :
  inherited k <> None ->
  let d := snd (runActions actions (start w)) in
  folderCache d !! k = None /\ countEvents (createIssuedFor k) (trace d) = 0.
Proof.
  intros Hk. cbn zeta.
  apply (runActions_keeps
           (fun d => folderCache d !! k = None
                     /\ countEvents (createIssuedFor k) (trace d) = 0)).
  - intros path d.
    apply (ensureFolderPath_keeps
             (fun d => folderCache d !! k = None
                       /\ countEvents (createIssuedFor k) (trace d) = 0)).
    intros key part parent d0 Hmiss [Hown Hnone].
    assert (Hne : key <> k).
    { intros ->. unfold cacheHit in Hmiss. rewrite Hown in Hmiss. contradiction. }
    pose proof (checkDrive_run key part parent d0) as (Hc & _ & _).
    destruct (checkDrive_shape key part parent d0) as (evs & Ht & Hevs).
    assert (Hev : countEvents (createIssuedFor k) evs = 0).
    { clear -Hevs Hne. unfold countEvents. induction Hevs as [|e l He _ IH]; [reflexivity|].
      cbn. destruct He as [Hl|(r & ->)].
      - destruct e; try discriminate. exact IH.
      - cbn. apply String.eqb_neq in Hne. rewrite Hne. exact IH. }
    destruct (checkDrive key part parent d0) as [[fid|e] d'']; cbn in Hc, Ht |- *.
    + rewrite lookup_insert_ne by exact Hne. rewrite Hc, Ht, countEvents_app, Hnone, Hev.
      split; [exact Hown | reflexivity].
    + rewrite Hc, Ht, countEvents_app, Hnone, Hev. split; [exact Hown | reflexivity].
  - intros fid newName parents target d [Hown Hnone]. rewrite applyFileUpdate_run.
    cbn [snd trace folderCache]. rewrite countEvents_app, Hnone. split; [exact Hown|reflexivity].
  - split; [apply lookup_empty | reflexivity].
Qed.

(** X6: every create-folder call of a session is made in [folderCache]'s
    answer for the parent prefix.  For a prefix of one segment the parent
    is ['root'].  Otherwise it is the identifier that the cache owns, then
    and ever after, for the parent prefix; unless the parent prefix is one
    of the names that every object inherits ([toString], [constructor],
    ...): then the parent sent is that inherited value, the cache never
    owns an entry for the parent prefix, and no folder is ever created for
    it. *)
Theorem folders_are_created_under_their_parent (Hne : CreatesNonEmpty)
    (actions : list UserAction) (w : World) :
  let d := snd (runActions actions (start w)) in
  Forall (createdInPlace (folderCache d) (trace d)) (trace d).
Proof.
  cbn zeta. eapply Forall_impl; [apply (creates_linked Hne actions w)|].
  intros e. destruct e as [| prefix name parentId r |]; cbn; try exact id.
  intros [H|(k & Hk & Hp & Hc)]; [left; exact H|].
  right. exists k. split; [exact Hk|]. split; [exact Hp|].
  unfold cacheHit in Hc.
  destruct (folderCache (snd (runActions actions (start w))) !! k) as [v|] eqn:Eown.
  - left. destruct (Js.truthy v) eqn:Tv; [|discriminate]. injection Hc as ->.
    split; [reflexivity | apply truthy_nonempty; exact Tv].
  - right. split; [exact Hc|]. split; [reflexivity|].
    apply (inherited_untouched actions w k). rewrite Hc. discriminate.
Qed.

End ResolverLinks.

(** X1, X3, X4 and X6 on the in-memory store. *)
Lemma resolve_blank_path_is_root_sample :
  @ensureFolderPath FakeDrive.api " / /  " (FakeDrive.fresh FakeDrive.empty)
  = (Ok "root", FakeDrive.fresh FakeDrive.empty).
Proof. apply (@resolve_blank_path_is_root FakeDrive.api). reflexivity. Defined.

Lemma resolve_caches_normal_form_sample :
  let s := FakeDrive.fresh FakeDrive.empty in
  cacheHit (folderCache (snd (@ensureFolderPath FakeDrive.api " Work // 2024 " s)))
           (Js.join "/" (pathParts " Work // 2024 "))
  = Some "folder-1".
Proof.
  cbn zeta.
  apply (@resolve_caches_normal_form FakeDrive.api fake_creates_nonempty
           " Work // 2024 " (FakeDrive.fresh FakeDrive.empty)).
  - vm_compute. discriminate.
  - vm_compute. reflexivity.
Defined.

Lemma cached_prefix_is_permanent_sample :
  let s := (Sample.app [Sample.record "a" (Some "Work/2025") approved],
            snd (@ensureFolderPath FakeDrive.api "Work/2024" (FakeDrive.fresh FakeDrive.empty))) in
  cacheHit (folderCache (snd (@runActions FakeDrive.api [SyncToDrive] s))) "Work"
  = Some "folder-0".
Proof.
  cbn zeta. apply (@cached_prefix_is_permanent FakeDrive.api). vm_compute. reflexivity.
Defined.

Lemma folders_are_created_under_their_parent_sample :
  let d := snd (@runActions FakeDrive.api
                  [Login "AIza-example-key";
                   SelectFiles [Sample.descriptor "f1" "IMG_001.jpg" (Some ["inbox"])]
                               (Ok [Sample.suggestion "f1" "Personal/Photos" "Beach.jpg"]);
                   ApproveAll; SyncToDrive]
                  (@start FakeDrive.api FakeDrive.empty)) in
  Forall (createdInPlace (folderCache d) (trace d)) (trace d).
Proof.
  apply (@folders_are_created_under_their_parent FakeDrive.api fake_creates_nonempty).
Defined.

(** A path that starts with an inherited name: [folderCache['toString']] is
    a hit, so no folder ['toString'] is looked up or created, and ['Work']
    is looked up and created with the inherited function as its parent. *)
Example inherited_name_sample :
  let out := @ensureFolderPath FakeDrive.api "toString/Work" (FakeDrive.fresh FakeDrive.empty) in
  fst out = Ok "folder-0" /\
  trace (snd out)
  = [EvList (folderQuery "Work" "function toString() { [native code] }") (Ok []);
     EvCreate "toString/Work" "Work" "function toString() { [native code] }" (Ok "folder-0")] /\
  folderCache (snd out) !! "toString" = None /\
  fst (@ensureFolderPath FakeDrive.api "constructor" (FakeDrive.fresh FakeDrive.empty))
  = Ok "function Object() { [native code] }" /\
  snd (@ensureFolderPath FakeDrive.api "constructor" (FakeDrive.fresh FakeDrive.empty))
  = FakeDrive.fresh FakeDrive.empty.
Proof. vm_compute. repeat split; reflexivity. Qed.

(** ** Sync executor: what a run does and does not touch *)

Lemma filter_none {A} (p : A -> bool) (l : list A) :
  Forall (fun x => p x = false) l -> List.filter p l = [].
Proof.
  induction l as [|x l IH]; intros H; [reflexivity|].
  apply Forall_cons in H as [Hx Hl]. cbn. rewrite Hx. apply IH. exact Hl.
Qed.

Section SyncExtras.
Context `{api : DriveApi}.

Lemma handleSyncToDrive_idle (app : App.t) (d : DriveSt) :
  App.sourceMode app = upload \/ List.filter isApproved (App.files app) = [] ->
  handleSyncToDrive (app, d) = (Ok tt, (app, d)).
Proof.
  intros H. unfold handleSyncToDrive. cbn [fst snd].
  destruct (App.sourceMode app) eqn:Em; [reflexivity|].
  destruct H as [H|H]; [discriminate|]. rewrite H. reflexivity.
Qed.

(** X7: in upload mode, and when no record is [approved], a sync request
    returns at once and leaves the review list, the progress pair, the
    cache and the store untouched. *)
Theorem sync_without_work_changes_nothing (app : App.t) (d : DriveSt) :
  App.sourceMode app = upload \/
  Forall (fun f => ProcessedFile.status f <> approved) (App.files app) ->
  handleSyncToDrive (app, d) = (Ok tt, (app, d)).
Proof.
  intros [H|H]; apply handleSyncToDrive_idle; [left; exact H | right].
  apply filter_none.
  eapply Forall_impl; [exact H|]. intros f Hf. apply Status_eqb_neq. exact Hf.
Qed.

Lemma handleSyncToDrive_loop (app : App.t) (d : DriveSt) :
  App.sourceMode app = drive ->
  List.filter isApproved (App.files app) <> [] ->
  let app0 := App.mk (App.apiKey app) (App.sourceMode app) true
                (mkProgress 0 (length (List.filter isApproved (App.files app))))
                (App.appState app) (App.files app) (App.error app) in
  handleSyncToDrive (app, d)
  = match syncLoop (List.filter isApproved (App.files app)) 0 (app0, d) with
    | (Ok _, (app2, d2)) =>
        (Ok tt, (App.mk (App.apiKey app2) (App.sourceMode app2) false
                   (App.syncProgress app2) (App.appState app2)
                   (App.files app2) (App.error app2), d2))
    | (Throw e, s2) => (Throw e, s2)
    end.
Proof.
  intros Hmode Hne. cbn zeta. unfold handleSyncToDrive. cbn [fst snd].
  rewrite Hmode at 1.
  destruct (Nat.eqb (length (List.filter isApproved (App.files app))) 0) eqn:E.
  { apply Nat.eqb_eq, length_zero_iff_nil in E. contradiction. }
  unfold bind, liftApp. cbn [fst snd setIsSyncing setSyncProgress modify]. cbn.
  destruct (syncLoop _ 0 _) as [[[]|e] [app2 d2]]; reflexivity.
Qed.

(** The loop never throws, and keeps every descriptor and every analysis. *)
Lemma syncLoop_keeps_records (l : list ProcessedFile.t) :
  forall (i : nat) (app : App.t) (d : DriveSt),
    let out := syncLoop l i (app, d) in
    fst out = Ok tt /\
    map ProcessedFile.file (App.files (fst (snd out))) = map ProcessedFile.file (App.files app) /\
    map ProcessedFile.analysis (App.files (fst (snd out)))
    = map ProcessedFile.analysis (App.files app) /\
    (App.apiKey (fst (snd out)), App.sourceMode (fst (snd out)), App.appState (fst (snd out)),
     App.error (fst (snd out)), App.isSyncing (fst (snd out)))
    = (App.apiKey app, App.sourceMode app, App.appState app, App.error app, App.isSyncing app).
Proof.
  induction l as [|file rest IH]; intros i app d; cbn zeta.
  - cbn. auto.
  - destruct (ProcessedFile.analysis file) as [a|] eqn:Ha.
    + rewrite (syncLoop_step file a rest i app d Ha). cbn zeta.
      match goal with |- context [syncLoop rest (S i) (?a1, ?d1)] =>
        destruct (IH (S i) a1 d1) as (Hr & Hf & Han & Hcells) end.
      cbn zeta in *. split; [exact Hr|].
      rewrite Hf, Han, Hcells. cbn. unfold markStatus. rewrite !map_map.
      repeat split; apply map_ext; intros f;
        destruct (String.eqb (ProcessedFile.id f) (ProcessedFile.id file)); reflexivity.
    + cbn [syncLoop]. rewrite Ha. apply IH.
Qed.

(** X8: whatever the store answers, a sync request returns normally; it
    keeps the length and the order of the review list and, of every record,
    the descriptor and the analysis, and the key, the source mode, the page
    and the error message; started with [isSyncing] off, it ends with it
    off. *)
Theorem sync_never_throws_and_keeps_records (app : App.t) (d : DriveSt) :
  let out := handleSyncToDrive (app, d) in
  fst out = Ok tt /\
  map ProcessedFile.file (App.files (fst (snd out))) = map ProcessedFile.file (App.files app) /\
  map ProcessedFile.analysis (App.files (fst (snd out)))
  = map ProcessedFile.analysis (App.files app) /\
  (App.isSyncing app = false -> App.isSyncing (fst (snd out)) = false) /\
  (App.apiKey (fst (snd out)), App.sourceMode (fst (snd out)), App.appState (fst (snd out)),
   App.error (fst (snd out)))
  = (App.apiKey app, App.sourceMode app, App.appState app, App.error app).
Proof.
  cbn zeta. destruct (App.sourceMode app) eqn:Em.
  - rewrite handleSyncToDrive_idle by (left; exact Em). cbn. rewrite ?Em. auto.
  - destruct (List.filter isApproved (App.files app)) as [|f0 l0] eqn:El.
    + rewrite handleSyncToDrive_idle by (right; exact El). cbn. rewrite ?Em. auto.
    + rewrite handleSyncToDrive_loop; [|exact Em | rewrite El; discriminate].
      cbn zeta. rewrite El.
      match goal with |- context [syncLoop ?l ?i (?a1, ?d1)] =>
        destruct (syncLoop_keeps_records l i a1 d1) as (Hr & Hf & Han & Hcells);
        destruct (syncLoop l i (a1, d1)) as [r [app2 d2]] end.
      cbn [fst snd] in *. subst r. cbn in *.
      injection Hcells as -> -> -> -> _. rewrite ?Em. auto.
Qed.

End SyncExtras.

Section SyncStatuses.
Context `{api : DriveApi}.

Lemma inBatch_notin (batch : list ProcessedFile.t) (g : ProcessedFile.t) :
  ~ In (ProcessedFile.id g) (map ProcessedFile.id batch) -> inBatch batch g = false.
Proof.
  induction batch as [|f l IH]; intros H; [reflexivity|].
  unfold inBatch. cbn [existsb]. fold (inBatch l g).
  destruct (String.eqb_spec (ProcessedFile.id f) (ProcessedFile.id g)) as [E|_].
  - exfalso. apply H. left. exact E.
  - cbn [andb orb]. apply IH. intros Hin. apply H. right. exact Hin.
Qed.

(** The statuses after the loop, record by record: a record whose
    identifier belongs to a batch record with an analysis ends [synced] or
    [error], any other keeps its status. *)
Lemma syncLoop_statuses (l : list ProcessedFile.t) :
  NoDup (map ProcessedFile.id l) ->
  forall (i : nat) (app : App.t) (d : DriveSt),
    Forall2 (fun g g' =>
               ProcessedFile.file g' = ProcessedFile.file g /\
               ProcessedFile.analysis g' = ProcessedFile.analysis g /\
               if inBatch l g
               then ProcessedFile.status g' = synced \/ ProcessedFile.status g' = error
               else ProcessedFile.status g' = ProcessedFile.status g)
            (App.files app) (App.files (fst (snd (syncLoop l i (app, d))))).
Proof.
  induction l as [|file rest IH]; intros Hnd i app d.
  - cbn. apply Forall_Forall2_diag. apply List.Forall_forall. intros g _. auto.
  - cbn in Hnd. apply NoDup_cons in Hnd as [Hfile Hnd].
    destruct (ProcessedFile.analysis file) as [a|] eqn:Ha.
    + rewrite (syncLoop_step file a rest i app d Ha). cbn zeta.
      match goal with |- context [syncLoop rest (S i) (?a1, ?d1)] =>
        pose proof (IH Hnd (S i) a1 d1) as H end.
      cbn [App.files setSyncProgress setFiles modify snd] in H.
      unfold markStatus in H. apply Forall2_fmap_l in H.
      eapply Forall2_impl; [exact H|]. cbn beta. intros g g'. unfold compose.
      unfold inBatch at 2. cbn [existsb]. fold (inBatch rest g). unfold hasAnalysis at 1.
      rewrite Ha, andb_true_r, (String.eqb_sym (ProcessedFile.id file) (ProcessedFile.id g)).
      destruct (String.eqb (ProcessedFile.id g) (ProcessedFile.id file)) eqn:E; cbn [orb].
      * intros (Hf & Han & Hst). split; [exact Hf|]. split; [exact Han|].
        rewrite inBatch_notin in Hst.
        2:{ change (ProcessedFile.id (ProcessedFile.withStatus _ g)) with (ProcessedFile.id g).
            apply String.eqb_eq in E. rewrite E. intros Hin. apply Hfile.
            apply list_elem_of_In. exact Hin. }
        cbn in Hst. rewrite Hst. destruct (isOk _); [left|right]; reflexivity.
      * intros H3. exact H3.
    + cbn [syncLoop]. rewrite Ha. specialize (IH Hnd (S i) app d).
      eapply Forall2_impl; [exact IH|]. cbn beta. intros g g' (Hf & Han & Hst).
      unfold inBatch. cbn [existsb]. fold (inBatch rest g). unfold hasAnalysis at 1. rewrite Ha.
      rewrite andb_false_r. cbn [orb]. auto.
Qed.

Lemma inBatch_approved (files : list ProcessedFile.t) (g : ProcessedFile.t) :
  NoDup (map ProcessedFile.id files) -> In g files ->
  inBatch (List.filter isApproved files) g = isApproved g && hasAnalysis g.
Proof.
  intros Hnd Hg. unfold inBatch.
  destruct (isApproved g && hasAnalysis g) eqn:E.
  - apply andb_true_iff in E as [E1 E2]. apply existsb_exists. exists g. split.
    + apply List.filter_In. split; assumption.
    + rewrite String.eqb_refl, E2. reflexivity.
  - apply not_true_is_false. intros H. apply existsb_exists in H as (f & Hf & Hfg).
    apply List.filter_In in Hf as [Hf Hap]. apply andb_true_iff in Hfg as [Hid Han].
    apply String.eqb_eq in Hid.
    assert (f = g) as -> by (eapply NoDup_ids_inj; eassumption).
    rewrite Hap, Han in E. discriminate.
Qed.

(** X9: in drive mode, with identifiers unique in the list, a sync request
    changes the status of the [approved] records that have an analysis, to
    [synced] or [error], and nothing else: every other record, whatever its
    status, comes out identical. *)
Theorem sync_touches_only_approved_with_analysis (app : App.t) (d : DriveSt) :
  App.sourceMode app = drive ->
  NoDup (map ProcessedFile.id (App.files app)) ->
  Forall2 syncedOrKept (App.files app) (App.files (fst (snd (handleSyncToDrive (app, d))))).
Proof.
  intros Hmode Hnd.
  destruct (List.filter isApproved (App.files app)) as [|f0 l0] eqn:El.
  - rewrite handleSyncToDrive_idle by (right; exact El). cbn [fst snd].
    apply Forall_Forall2_diag. apply List.Forall_forall. intros g Hg.
    split; [reflexivity|]. split; [reflexivity|]. split; [|reflexivity].
    intros [Hst _]. exfalso.
    assert (Hin : In g (List.filter isApproved (App.files app))).
    { apply List.filter_In. split; [exact Hg|]. apply Status_eqb_eq. exact Hst. }
    rewrite El in Hin. contradiction.
  - rewrite handleSyncToDrive_loop; [|exact Hmode | rewrite El; discriminate].
    cbn zeta.
    match goal with |- context [syncLoop ?l ?i (?a1, ?d1)] =>
      pose proof (syncLoop_statuses l (NoDup_ids_filter isApproved _ Hnd) i a1 d1) as H;
      destruct (syncLoop_keeps_records l i a1 d1) as (Hr & _);
      destruct (syncLoop l i (a1, d1)) as [r [app2 d2]] end.
    cbn [fst snd App.files] in *. subst r. cbn [fst snd App.files].
    apply Forall2_same_length_lookup. apply Forall2_same_length_lookup in H as [Hlen H].
    split; [exact Hlen|]. intros i g g' Hg Hg'.
    destruct (H i g g' Hg Hg') as (Hf & Han & Hst).
    rewrite inBatch_approved in Hst;
      [|exact Hnd | apply list_elem_of_In; eapply list_elem_of_lookup_2; exact Hg].
    unfold isApproved, hasAnalysis in Hst.
    split; [exact Hf|]. split; [exact Han|]. split.
    + intros [H1 H2]. rewrite H1 in Hst. cbn in Hst.
      destruct (ProcessedFile.analysis g); [exact Hst | contradiction].
    + intros Hor. destruct g as [gf ga gs], g' as [gf' ga' gs']. cbn in *. subst gf' ga'.
      f_equal. destruct Hor as [Hor|Hor].
      * apply Status_eqb_neq in Hor. rewrite Hor in Hst. exact Hst.
      * rewrite Hor, andb_false_r in Hst. exact Hst.
Qed.

End SyncStatuses.

Section SyncRequests.
Context `{api : DriveApi}.

(** The resolver issues lookups and create calls, nothing else. *)
Lemma ensureFolderPath_events (Q : Event -> Prop)
    (Hlist : forall q r, Q (EvList q r))
    (Hcreate : forall prefix name parent r, Q (EvCreate prefix name parent r))
    (path : string) (s : DriveSt) :
  exists evs, trace (snd (ensureFolderPath path s)) = trace s ++ evs /\ Forall Q evs.
Proof.
  apply (ensureFolderPath_keeps
           (fun s' => exists evs, trace s' = trace s ++ evs /\ Forall Q evs)).
  - intros key part parent s0 _ (evs0 & Ht0 & HQ0).
    destruct (checkDrive_shape key part parent s0) as (evs & Ht & Hevs).
    assert (HQ : Forall Q (evs0 ++ evs)).
    { apply Forall_app. split; [exact HQ0|]. eapply Forall_impl; [exact Hevs|].
      intros e [Hl|(r & ->)]; [|apply Hcreate]. destruct e; try discriminate. apply Hlist. }
    destruct (checkDrive key part parent s0) as [[fid|e] s']; cbn in Ht |- *;
      exists (evs0 ++ evs); rewrite Ht, Ht0, <- app_assoc; split; [reflexivity | exact HQ | reflexivity | exact HQ].
  - exists []. rewrite app_nil_r. split; [reflexivity | constructor].
Qed.

Lemma syncFile_requests (file : ProcessedFile.t) (a : AnalysisResult.t) (d : DriveSt) :
  exists evs, trace (snd (syncFile file a d)) = trace d ++ evs /\
    Forall (fun e => match e with
                     | EvUpdate p _ =>
                         fileId p = ProcessedFile.id file /\
                         resource_name p = AnalysisResult.suggestedName a
                     | _ => True
                     end) evs /\
    countEvents isUpdate evs <= 1.
Proof.
  unfold syncFile, bind, resolveTarget.
  assert (Hparams : forall t,
            fileId (updateParams (ProcessedFile.id file) (AnalysisResult.suggestedName a)
                      (DriveFile.parents (ProcessedFile.file file)) t) = ProcessedFile.id file /\
            resource_name (updateParams (ProcessedFile.id file) (AnalysisResult.suggestedName a)
                      (DriveFile.parents (ProcessedFile.file file)) t)
            = AnalysisResult.suggestedName a).
  { intros t. unfold updateParams. repeat case_match; split; reflexivity. }
  destruct (Js.truthy (AnalysisResult.suggestedPath a) && _ && _).
  - unfold bind, ret.
    destruct (ensureFolderPath_events
                (fun e => isUpdate e = false) (fun _ _ => eq_refl) (fun _ _ _ _ => eq_refl)
                (AnalysisResult.suggestedPath a) d) as (e1 & H1 & HQ).
    assert (Hcount : countEvents isUpdate e1 = 0).
    { unfold countEvents. rewrite filter_none; [reflexivity | exact HQ]. }
    assert (HQ' : Forall (fun e => match e with
                     | EvUpdate p _ =>
                         fileId p = ProcessedFile.id file /\
                         resource_name p = AnalysisResult.suggestedName a
                     | _ => True
                     end) e1).
    { eapply Forall_impl; [exact HQ|]. intros e He. destruct e; [exact I | exact I | discriminate]. }
    destruct (ensureFolderPath (AnalysisResult.suggestedPath a) d) as [[id|e] d1]; cbn in H1 |- *.
    + rewrite applyFileUpdate_run. cbn [snd trace]. eexists. rewrite H1, <- app_assoc.
      split; [reflexivity|]. split.
      * apply Forall_app. split; [exact HQ'|]. constructor; [apply Hparams | constructor].
      * rewrite countEvents_app, Hcount. unfold countEvents. cbn. lia.
    + exists e1. split; [exact H1|]. split; [exact HQ' | lia].
  - unfold ret. rewrite applyFileUpdate_run. cbn [snd trace]. eexists. split; [reflexivity|].
    split; [constructor; [apply Hparams | constructor] | unfold countEvents; cbn; lia].
Qed.

Lemma syncLoop_requests (files0 : list ProcessedFile.t) (l : list ProcessedFile.t) :
  Forall (fun f => In f files0 /\ ProcessedFile.status f = approved) l ->
  forall (i : nat) (app : App.t) (d : DriveSt),
  exists evs, trace (snd (snd (syncLoop l i (app, d)))) = trace d ++ evs /\
              Forall (requestOf files0) evs /\
              countEvents isUpdate evs <= length l.
Proof.
  induction l as [|file rest IH]; intros Hl i app d.
  - exists []. cbn. rewrite app_nil_r. split; [reflexivity|]. split; [constructor|].
    unfold countEvents. cbn. lia.
  - apply Forall_cons in Hl as [[Hin Hst] Hrest].
    destruct (ProcessedFile.analysis file) as [a|] eqn:Ha.
    + rewrite (syncLoop_step file a rest i app d Ha). cbn zeta.
      destruct (syncFile_requests file a d) as (e1 & Ht1 & HQ1 & Hc1).
      match goal with |- context [syncLoop rest (S i) (?a1, ?d1)] =>
        destruct (IH Hrest (S i) a1 d1) as (e2 & Ht2 & HQ2 & Hc2) end.
      exists (e1 ++ e2). rewrite Ht2, Ht1, <- app_assoc. split; [reflexivity|]. split.
      * apply Forall_app. split; [|exact HQ2]. eapply Forall_impl; [exact HQ1|].
        intros e He. destruct e as [| |p r]; [exact I | exact I |]. destruct He as [H1 H2].
        cbn. exists file, a. auto.
      * rewrite countEvents_app. cbn [length]. lia.
    + cbn [syncLoop]. rewrite Ha. destruct (IH Hrest (S i) app d) as (e2 & Ht2 & HQ2 & Hc2).
      exists e2. split; [exact Ht2|]. split; [exact HQ2|]. cbn [length]. lia.
Qed.

Lemma handleSyncToDrive_requests (app : App.t) (d : DriveSt) :
  exists evs, trace (snd (snd (handleSyncToDrive (app, d)))) = trace d ++ evs /\
              Forall (requestOf (App.files app)) evs /\
              countEvents isUpdate evs <= countStatus approved (App.files app).
Proof.
  assert (Hidle : exists evs, trace d = trace d ++ evs /\
              Forall (requestOf (App.files app)) evs /\
              countEvents isUpdate evs <= countStatus approved (App.files app)).
  { exists []. rewrite app_nil_r. split; [reflexivity|]. split; [constructor|].
    unfold countEvents. cbn. lia. }
  destruct (App.sourceMode app) eqn:Em.
  - rewrite handleSyncToDrive_idle by (left; exact Em). exact Hidle.
  - destruct (List.filter isApproved (App.files app)) as [|f0 l0] eqn:El.
    + rewrite handleSyncToDrive_idle by (right; exact El). exact Hidle.
    + rewrite handleSyncToDrive_loop; [|exact Em | rewrite El; discriminate]. cbn zeta.
      assert (HF : Forall (fun f => In f (App.files app) /\ ProcessedFile.status f = approved)
                          (List.filter isApproved (App.files app))).
      { apply List.Forall_forall. intros f Hf. apply List.filter_In in Hf as [Hf Hst].
        split; [exact Hf|]. apply Status_eqb_eq. exact Hst. }
      match goal with |- context [syncLoop ?ll ?ii (?a1, ?d1)] =>
        destruct (syncLoop_requests (App.files app) ll HF ii a1 d1) as (evs & Ht & HQ & Hc);
        destruct (syncLoop_keeps_records ll ii a1 d1) as (Hr & _);
        destruct (syncLoop ll ii (a1, d1)) as [r [app2 d2]] end.
      cbn [fst snd] in *. subst r. cbn [fst snd]. exists evs.
      split; [exact Ht|]. split; [exact HQ|]. exact Hc.
Qed.

(** X10: every update request that a sync sends names a record of the
    review list that is [approved] and has an analysis, and sets the name
    that this analysis suggests; there are never more requests than
    approved records (no request is repeated). *)
Theorem sync_requests_follow_the_review_list (app : App.t) (d : DriveSt) :
  exists evs, trace (snd (snd (handleSyncToDrive (app, d)))) = trace d ++ evs /\
              Forall (requestOf (App.files app)) evs /\
              countEvents isUpdate evs <= countStatus approved (App.files app).
Proof. apply handleSyncToDrive_requests. Qed.


(** X12: a record whose suggested path is ["."] or is blank (empty, or
    slashes and white space only) is renamed in place: the executor sends
    one request, with the new name and no parent change, and neither looks
    up nor creates a folder. *)
Theorem root_like_path_only_renames (file : ProcessedFile.t) (a : AnalysisResult.t)
    (d : DriveSt) :
  AnalysisResult.suggestedPath a = "." \/ blankPath (AnalysisResult.suggestedPath a) = true ->
  let params := mkUpdateParams (ProcessedFile.id file) (AnalysisResult.suggestedName a)
                               None None in
  let r := files_update params (world d) in
  syncFile file a d
  = (fst r, mkDriveSt (folderCache d) (snd r) (trace d ++ [EvUpdate params (fst r)])).
Proof.
  intros Hpath. cbn zeta. unfold syncFile, bind, resolveTarget.
  destruct (Js.truthy (AnalysisResult.suggestedPath a)
            && negb (String.eqb (AnalysisResult.suggestedPath a) "/")
            && negb (String.eqb (AnalysisResult.suggestedPath a) ".")) eqn:Ec.
  - destruct Hpath as [Hdot|Hblank].
    + rewrite Hdot in Ec. discriminate.
    + unfold bind, ret. rewrite (ensureFolderPath_blank _ d Hblank).
      rewrite applyFileUpdate_run. reflexivity.
  - unfold ret. rewrite applyFileUpdate_run. reflexivity.
Qed.

End SyncRequests.

(** X7, X9, X11 and X12 on the in-memory store. *)
Lemma sync_without_work_changes_nothing_sample :
  let app := Sample.app [Sample.record "a" (Some "Work") pending;
                         Sample.record "b" (Some "Work") rejected] in
  let d := FakeDrive.fresh FakeDrive.empty in
  @handleSyncToDrive FakeDrive.api (app, d) = (Ok tt, (app, d)).
Proof.
  cbn zeta. apply (@sync_without_work_changes_nothing FakeDrive.api).
  right. constructor; [discriminate|]. constructor; [discriminate|]. constructor.
Defined.

Lemma sync_touches_only_approved_with_analysis_sample :
  let app := Sample.app [Sample.record "a" (Some "Work") approved;
                         Sample.record "b" None approved;
                         Sample.record "c" (Some "Work") rejected] in
  let d := FakeDrive.fresh FakeDrive.empty in
  Forall2 syncedOrKept (App.files app)
          (App.files (fst (snd (@handleSyncToDrive FakeDrive.api (app, d))))).
Proof.
  cbn zeta. apply (@sync_touches_only_approved_with_analysis FakeDrive.api).
  - reflexivity.
  - apply NoDup_strings. vm_compute. reflexivity.
Defined.


Lemma root_like_path_only_renames_sample :
  let file := Sample.record "a" (Some ".") approved in
  let d := FakeDrive.fresh FakeDrive.empty in
  let params := mkUpdateParams "a" "a renamed.txt" None None in
  @syncFile FakeDrive.api file (Sample.suggestion "a" "." "a renamed.txt") d
  = (Ok tt, @mkDriveSt FakeDrive.api ∅
              (FakeDrive.mkW [] 0 0 [] [params]) [EvUpdate params (Ok tt)]).
Proof.
  cbn zeta.
  apply (@root_like_path_only_renames FakeDrive.api
           (Sample.record "a" (Some ".") approved)
           (Sample.suggestion "a" "." "a renamed.txt")
           (FakeDrive.fresh FakeDrive.empty)).
  left. reflexivity.
Defined.

Example edit_then_sync_sample :
  let app := Sample.app [Sample.record "a" (Some "Work") approved] in
  let updates := PartialAnalysis.mk None None (Some "Archive/2020") (Some "Plan 2020.txt")
                                    None None None None in
  writes (trace (snd (snd (@handleSyncToDrive FakeDrive.api
                   (snd (handleUpdateAnalysis "a" updates app),
                    FakeDrive.fresh FakeDrive.empty)))))
  = [EvCreate "Archive" "Archive" "root" (Ok "folder-0");
     EvCreate "Archive/2020" "2020" "folder-0" (Ok "folder-1");
     EvUpdate (mkUpdateParams "a" "Plan 2020.txt" (Some "folder-1") (Some "inbox")) (Ok tt)].
Proof. vm_compute. reflexivity. Qed.

(** ** Review table and review handlers *)

Lemma lowConfidence_spec (a : AnalysisResult.t) :
  lowConfidence a = true <->
  ~ (AnalysisResult.confidence a == 0)%Q /\ (AnalysisResult.confidence a < double_0_8)%Q.
Proof.
  unfold lowConfidence. cbn zeta.
  destruct (Qeq_bool (AnalysisResult.confidence a) 0) eqn:E.
  - apply Qeq_bool_iff in E. split; [discriminate|]. intros [H _]. contradiction.
  - assert (Hne : ~ (AnalysisResult.confidence a == 0)%Q).
    { intros H. apply Qeq_bool_iff in H. congruence. }
    rewrite negb_true_iff. split.
    + intros H. split; [exact Hne|]. apply Qnot_le_lt. intros Hle.
      apply Qle_bool_iff in Hle. congruence.
    + intros [_ H]. apply not_true_is_false. intros Hle. apply Qle_bool_iff in Hle.
      apply Qlt_not_le in H. contradiction.
Qed.

(** X13: the tab ['all'] lists every record; each of the three other tabs
    lists only [pending] records that have an analysis; and the tab
    ['needs_review'] lists exactly the pending records whose reasoning
    holds the word "manual" in any letter case, or whose confidence is not
    zero and is below 0.8. *)
Theorem filtered_tabs_list_pending_analysed (flt : Filter) (files : list ProcessedFile.t) :
  filteredFiles F_all files = files /\
  (flt <> F_all ->
   Forall (fun f => ProcessedFile.status f = pending /\ ProcessedFile.analysis f <> None)
          (filteredFiles flt files)) /\
  (forall f, In f (filteredFiles F_needs_review files) <->
     In f files /\ ProcessedFile.status f = pending /\
     exists a, ProcessedFile.analysis f = Some a /\
       (JsStr.includes "manual" (JsStr.toLowerCase (AnalysisResult.reasoning a)) = true \/
        (~ (AnalysisResult.confidence a == 0)%Q /\
         (AnalysisResult.confidence a < double_0_8)%Q))).
Proof.
  split; [|split].
  - unfold filteredFiles. induction files as [|f l IH]; [reflexivity|].
    cbn [List.filter]. unfold rowVisible at 1. cbn [Filter_eqb negb].
    rewrite andb_false_r. f_equal. exact IH.
  - intros Hflt. apply List.Forall_forall. intros f Hf.
    apply List.filter_In in Hf as [_ Hv]. unfold rowVisible in Hv.
    destruct (Status_eqb (ProcessedFile.status f) pending) eqn:Es.
    + apply Status_eqb_eq in Es. split; [exact Es|].
      destruct flt; [contradiction| | |]; cbn in Hv;
        destruct (ProcessedFile.analysis f); discriminate.
    + destruct flt; [contradiction| | |]; discriminate.
  - intros f. unfold filteredFiles. rewrite List.filter_In. unfold rowVisible.
    cbn [Filter_eqb negb]. rewrite andb_true_r. split.
    + intros [Hin Hv]. split; [exact Hin|].
      destruct (Status_eqb (ProcessedFile.status f) pending) eqn:Es; [|discriminate].
      apply Status_eqb_eq in Es. split; [exact Es|]. cbn in Hv.
      destruct (ProcessedFile.analysis f) as [a|]; [|discriminate].
      exists a. split; [reflexivity|]. apply orb_true_iff in Hv as [Hv|Hv]; [left; exact Hv|].
      right. apply lowConfidence_spec. exact Hv.
    + intros (Hin & Hs & a & Ha & Hor). split; [exact Hin|].
      rewrite Hs, Ha. cbn. apply orb_true_iff. destruct Hor as [H|H]; [left; exact H|].
      right. apply lowConfidence_spec. exact H.
Qed.

Example needs_review_sample :
  let withConfidence c :=
    ProcessedFile.mk (Sample.descriptor "f" "f.txt" None)
      (Some (AnalysisResult.mk "f" WORK "Work" "f.txt" false Normal "by content" c)) pending in
  map (fun c => length (filteredFiles F_needs_review [withConfidence c]))
      [0%Q; (1 # 2)%Q; (3 # 4)%Q; double_0_8; 1%Q]
  = [0; 1; 1; 0; 0]%nat.
Proof. vm_compute. reflexivity. Qed.

(** X14: after [approveAll] no record is pending: the pending count is
    zero, the line under the table reads 'Ready to Sync.', the button
    'Approve All' is gone, the three filtered tabs are empty, and the
    approved records are the former approved and pending ones together.  In
    the review view the button that starts the sync is shown exactly in
    drive mode, and the button 'Finish' exactly in upload mode. *)
Theorem approveAll_leaves_nothing_pending (a : App.t) :
  let a' := snd (handleApproveAll a) in
  let files' := App.files a' in
  pendingCount files' = 0 /\
  readyToSync files' = true /\
  showsApproveAllButton a' = false /\
  showsSyncButton a'
  = (inReview a && match App.sourceMode a with drive => true | upload => false end) /\
  showsFinishButton a'
  = (inReview a && match App.sourceMode a with upload => true | drive => false end) /\
  countStatus approved files'
  = countStatus approved (App.files a) + countStatus pending (App.files a) /\
  (forall flt, flt <> F_all -> filteredFiles flt files' = []).
Proof.
  destruct a as [k m sy pr st fs er].
  unfold showsApproveAllButton, showsSyncButton, showsFinishButton, inReview.
  cbn -[readyToSync].
  assert (Hnone : Forall (fun f => Status_eqb (ProcessedFile.status f) pending = false)
            (map (fun f => if Status_eqb (ProcessedFile.status f) pending
                           then ProcessedFile.withStatus approved f else f) fs)).
  { apply List.Forall_forall. intros f' Hf'. apply in_map_iff in Hf' as (f & <- & _).
    destruct (Status_eqb (ProcessedFile.status f) pending) eqn:E; [reflexivity | exact E]. }
  assert (Hready : readyToSync
            (map (fun f => if Status_eqb (ProcessedFile.status f) pending
                           then ProcessedFile.withStatus approved f else f) fs) = true).
  { unfold readyToSync. apply forallb_forall. intros f Hf.
    rewrite List.Forall_forall in Hnone. rewrite (Hnone f Hf). reflexivity. }
  split; [|split; [|split; [|split; [|split; [|split]]]]].
  - unfold pendingCount. rewrite filter_none; [reflexivity | exact Hnone].
  - exact Hready.
  - apply andb_false_intro2. apply not_true_is_false. intros H.
    apply existsb_exists in H as (f & Hf & Hp). rewrite List.Forall_forall in Hnone.
    rewrite (Hnone f Hf) in Hp. discriminate.
  - rewrite Hready. reflexivity.
  - rewrite Hready. reflexivity.
  - unfold countStatus. clear Hnone Hready. induction fs as [|f l IH]; [reflexivity|]. cbn.
    destruct (ProcessedFile.status f) eqn:Es; cbn; rewrite ?Es; cbn; rewrite IH; lia.
  - intros flt Hflt. unfold filteredFiles. apply filter_none.
    eapply Forall_impl; [exact Hnone|]. intros f Hf. unfold rowVisible. rewrite Hf.
    destruct flt; [contradiction| | |]; reflexivity.
Qed.

Example approveAll_buttons_sample :
  let a := App.mk (Some "AIza-example-key") upload false (mkProgress 0 0) REVIEW
                  [Sample.record "a" (Some "Work") pending] None in
  showsApproveAllButton a = true /\
  showsSyncButton (snd (handleApproveAll a)) = false /\
  showsFinishButton (snd (handleApproveAll a)) = true /\
  showsSyncButton (snd (handleApproveAll (Sample.app (App.files a)))) = true.
Proof. repeat split; reflexivity. Qed.

(** X15: saving an edit returns normally, closes the editor, and changes
    nothing but the suggested name and path of the records that carry the
    identifier and an analysis; descriptors, statuses, the other fields of
    every analysis, and all other records stay as they were. *)
Theorem saveEdit_changes_name_and_path_only (id : string) (t : Table.t) (app : App.t) :
  let out := saveEdit id (t, app) in
  fst out = Ok tt /\
  Table.editingId (fst (snd out)) = None /\
  Forall2 (fun f f' =>
             ProcessedFile.file f' = ProcessedFile.file f /\
             ProcessedFile.status f' = ProcessedFile.status f /\
             match ProcessedFile.analysis f, ProcessedFile.analysis f' with
             | Some a, Some a' =>
                 (AnalysisResult.fileId a', AnalysisResult.category a',
                  AnalysisResult.shouldArchive a', AnalysisResult.sensitivity a',
                  AnalysisResult.reasoning a', AnalysisResult.confidence a')
                 = (AnalysisResult.fileId a, AnalysisResult.category a,
                    AnalysisResult.shouldArchive a, AnalysisResult.sensitivity a,
                    AnalysisResult.reasoning a, AnalysisResult.confidence a) /\
                 (ProcessedFile.id f = id ->
                  AnalysisResult.suggestedName a' = formName (Table.editForm t) /\
                  AnalysisResult.suggestedPath a' = formPath (Table.editForm t)) /\
                 (ProcessedFile.id f <> id -> a' = a)
             | None, None => True
             | _, _ => False
             end)
          (App.files app) (App.files (snd (snd out))).
Proof.
  destruct app as [k m sy pr st fs er]. cbn. split; [reflexivity|]. split; [reflexivity|].
  apply Forall2_fmap_r. apply Forall_Forall2_diag. apply List.Forall_forall. intros f _.
  cbn. destruct (String.eqb (ProcessedFile.id f) id) eqn:Eb.
  - pose proof Eb as E. apply String.eqb_eq in E.
    destruct (ProcessedFile.analysis f) as [a|] eqn:Ha; cbn; rewrite ?Eb, ?Ha; cbn; rewrite ?Ha.
    + repeat split; try reflexivity; contradiction.
    + auto.
  - pose proof Eb as E. apply String.eqb_neq in E. rewrite ?Eb.
    split; [reflexivity|]. split; [reflexivity|].
    destruct (ProcessedFile.analysis f) as [a|]; [|exact I].
    repeat split; try reflexivity; contradiction.
Qed.

Lemma map_fixed {A} (h : A -> A) (l : list A) :
  (forall x, In x l -> h x = x) -> map h l = l.
Proof.
  intros H. induction l as [|x l IH]; [reflexivity|]. cbn.
  rewrite (H x (or_introl eq_refl)), IH; [reflexivity|].
  intros y Hy. apply H. right. exact Hy.
Qed.

(** X16: opening the editor on a record of the list and saving at once
    leaves the review list exactly as it was (identifiers being unique). *)
Theorem startEdit_then_saveEdit_is_identity (file : ProcessedFile.t) (t : Table.t) (app : App.t) :
  NoDup (map ProcessedFile.id (App.files app)) ->
  In file (App.files app) ->
  let out := saveEdit (ProcessedFile.id file) (startEdit file t, app) in
  fst out = Ok tt /\ snd (snd out) = app /\ Table.editingId (fst (snd out)) = None.
Proof.
  intros Hnd Hin. destruct app as [k m sy pr st fs er]. cbn in Hnd, Hin.
  unfold saveEdit. cbn. split; [reflexivity|]. split; [|reflexivity].
  f_equal. apply map_fixed. intros f Hf.
  destruct (String.eqb_spec (ProcessedFile.id f) (ProcessedFile.id file)) as [E|_]; [|reflexivity].
  assert (f = file) as -> by (eapply NoDup_ids_inj; eassumption).
  unfold startEdit. destruct file as [df [a|] s]; cbn; [|reflexivity].
  destruct a; reflexivity.
Qed.

Lemma startEdit_then_saveEdit_is_identity_sample :
  let file := Sample.record "a" (Some "Work/2024") pending in
  let app := Sample.app [file; Sample.record "b" None pending] in
  let out := saveEdit "a" (startEdit file (Table.mk F_all None (mkEditForm "" "")), app) in
  fst out = Ok tt /\ snd (snd out) = app /\ Table.editingId (fst (snd out)) = None.
Proof.
  cbn zeta.
  apply (startEdit_then_saveEdit_is_identity
           (Sample.record "a" (Some "Work/2024") pending)
           (Table.mk F_all None (mkEditForm "" ""))
           (Sample.app [Sample.record "a" (Some "Work/2024") pending;
                        Sample.record "b" None pending])).
  - apply NoDup_strings. vm_compute. reflexivity.
  - left. reflexivity.
Defined.

Lemma find_first {A} (p : A -> bool) (l : list A) (a : A) :
  List.find p l = Some a ->
  exists before after, l = before ++ a :: after /\ Forall (fun x => p x = false) before.
Proof.
  induction l as [|x l IH]; cbn; [discriminate|].
  destruct (p x) eqn:E.
  - intros [= ->]. exists [], l. split; [reflexivity | constructor].
  - intros H. destruct (IH H) as (before & after & -> & Hb).
    exists (x :: before), after. split; [reflexivity|]. constructor; assumption.
Qed.

Lemma mergeResults_records (results : list AnalysisResult.t) (selected : list DriveFile.t) :
  Forall2 (fun d f =>
             ProcessedFile.file f = d /\ ProcessedFile.status f = pending /\
             match ProcessedFile.analysis f with
             | Some a => In a results /\ AnalysisResult.fileId a = DriveFile.id d /\
                         exists before after,
                           results = before ++ a :: after /\
                           Forall (fun r => AnalysisResult.fileId r <> DriveFile.id d) before
             | None => Forall (fun a => AnalysisResult.fileId a <> DriveFile.id d) results
             end)
          selected (mergeResults results (ingest selected)).
Proof.
  unfold mergeResults, ingest. rewrite map_map. apply Forall2_fmap_r.
  apply Forall_Forall2_diag. apply List.Forall_forall. intros d _. cbn.
  unfold Js.find, ProcessedFile.id. cbn.
  destruct (List.find _ results) as [a|] eqn:E; cbn.
  - pose proof (find_first _ _ _ E) as (before & after & Hsplit & Hbefore).
    apply List.find_some in E as [Hin Heq]. apply String.eqb_eq in Heq.
    split; [reflexivity|]. split; [reflexivity|]. split; [exact Hin|]. split; [exact Heq|].
    exists before, after. split; [exact Hsplit|].
    eapply Forall_impl; [exact Hbefore|]. intros r Hr. apply String.eqb_neq. exact Hr.
  - split; [reflexivity|]. split; [reflexivity|]. apply List.Forall_forall. intros a Ha.
    apply (List.find_none _ _ E) in Ha. apply String.eqb_neq in Ha. exact Ha.
Qed.

(** X17: selecting files always returns normally and always leaves one
    [pending] record per selected descriptor, in order.  Without a key, or
    when the gateway throws, no record has an analysis, the page is back to
    [IDLE] and shows the error message.  With a key and a gateway result
    the page is in [REVIEW] without error, and a record has an analysis
    exactly when some result carries its identifier: it is the first such
    result, and results for other identifiers are dropped. *)
Theorem files_selected_outcomes (selected : list DriveFile.t)
    (analyze : Result (list AnalysisResult.t)) (app : App.t) :
  let out := handleFilesSelected selected analyze app in
  let app' := snd out in
  fst out = Ok tt /\
  map ProcessedFile.file (App.files app') = selected /\
  Forall (fun f => ProcessedFile.status f = pending) (App.files app') /\
  (App.apiKey app = None \/ App.apiKey app = Some "" \/ (exists e, analyze = Throw e) ->
   App.files app' = ingest selected /\
   App.appState app' = IDLE /\
   App.error app'
   = Some "Gemini failed to analyze the files. Please ensure your API key is valid.") /\
  (forall key results,
     App.apiKey app = Some key -> key <> "" -> analyze = Ok results ->
     App.appState app' = REVIEW /\ App.error app' = None /\
     Forall2 (fun d f =>
                ProcessedFile.file f = d /\ ProcessedFile.status f = pending /\
                match ProcessedFile.analysis f with
                | Some a => In a results /\ AnalysisResult.fileId a = DriveFile.id d /\
                            exists before after,
                              results = before ++ a :: after /\
                              Forall (fun r => AnalysisResult.fileId r <> DriveFile.id d) before
                | None => Forall (fun a => AnalysisResult.fileId a <> DriveFile.id d) results
                end)
             selected (App.files app')).
Proof.
  destruct app as [k m sy pr st fs er].
  assert (Hing : map ProcessedFile.file (ingest selected) = selected
                 /\ Forall (fun f => ProcessedFile.status f = pending) (ingest selected)).
  { unfold ingest. rewrite map_map. cbn. rewrite map_id. split; [reflexivity|].
    apply List.Forall_forall. intros f Hf. apply in_map_iff in Hf as (d & <- & _). reflexivity. }
  assert (Hmerge : forall results,
            map ProcessedFile.file (mergeResults results (ingest selected)) = selected
            /\ Forall (fun f => ProcessedFile.status f = pending)
                      (mergeResults results (ingest selected))).
  { intros results. pose proof (mergeResults_records results selected) as H. split.
    - clear -H. induction H as [|d f l l' (Hf & _) _ IH]; [reflexivity|]. cbn. rewrite Hf, IH.
      reflexivity.
    - clear -H. induction H as [|d f l l' (_ & Hs & _) _ IH]; constructor; assumption. }
  unfold handleFilesSelected, bind, tryCatch, setFiles, setAppState, setError, modify, throw.
  cbn [App.apiKey App.files App.appState App.error fst snd].
  destruct k as [key|]; [destruct (Js.truthy key) eqn:Ek; [destruct analyze as [results|e]|]|];
    cbn.
  - destruct (Hmerge results) as [H1 H2]. split; [reflexivity|]. split; [exact H1|].
    split; [exact H2|]. split.
    + intros [H|[H|(e & H)]]; try discriminate.
      injection H as ->. discriminate.
    + intros key' results' [= <-] _ [= <-]. split; [reflexivity|]. split; [reflexivity|].
      apply mergeResults_records.
  - destruct Hing as [H1 H2]. split; [reflexivity|]. split; [exact H1|]. split; [exact H2|].
    split; [auto|]. intros key' results' _ _ H. discriminate.
  - destruct Hing as [H1 H2]. split; [reflexivity|]. split; [exact H1|]. split; [exact H2|].
    split; [auto|]. intros key' results' [= <-] Hne _. apply truthy_nonempty in Hne. congruence.
  - destruct Hing as [H1 H2]. split; [reflexivity|]. split; [exact H1|]. split; [exact H2|].
    split; [auto|]. intros key' results' H. discriminate.
Qed.

Example files_selected_sample :
  let app := Sample.app [] in
  let selected := [Sample.descriptor "f1" "a.txt" None; Sample.descriptor "f2" "b.txt" None] in
  let results := [Sample.suggestion "f2" "Work" "B.txt"; Sample.suggestion "zz" "Work" "Z.txt";
                  Sample.suggestion "f2" "Other" "B2.txt"] in
  map ProcessedFile.analysis (App.files (snd (handleFilesSelected selected (Ok results) app)))
  = [None; Some (Sample.suggestion "f2" "Work" "B.txt")] /\
  App.appState (snd (handleFilesSelected selected (Throw (RemoteError "503")) app)) = IDLE.
Proof. vm_compute. split; reflexivity. Qed.

(** ** Dashboard figures *)

Lemma countOf_bump (cat k : string) (acc : list (string * nat)) :
  countOf cat (bump k acc) = countOf cat acc + (if String.eqb k cat then 1 else 0).
Proof.
  induction acc as [|[k0 v] rest IH]; cbn.
  - destruct (String.eqb k cat); reflexivity.
  - destruct (String.eqb_spec k0 k) as [->|Hk]; cbn.
    + destruct (String.eqb k cat); lia.
    + destruct (String.eqb_spec k0 cat) as [->|Hc].
      * apply String.eqb_neq in Hk. rewrite String.eqb_sym in Hk. rewrite Hk. lia.
      * exact IH.
Qed.

Lemma sum_bump (k : string) (acc : list (string * nat)) :
  list_sum (map snd (bump k acc)) = S (list_sum (map snd acc)).
Proof.
  unfold list_sum.
  induction acc as [|[k0 v] rest IH]; cbn [bump]; [reflexivity|].
  destruct (String.eqb k0 k); cbn [map snd fold_right] in *; lia.
Qed.

Lemma keys_bump_in (k x : string) (acc : list (string * nat)) :
  In x (map fst (bump k acc)) -> x = k \/ In x (map fst acc).
Proof.
  induction acc as [|[k0 v] rest IH]; cbn; [intros [<-|[]]; auto|].
  destruct (String.eqb k0 k); cbn; intros [<-|H]; auto.
  destruct (IH H); auto.
Qed.

Lemma keys_bump (k : string) (acc : list (string * nat)) :
  NoDup (map fst acc) -> NoDup (map fst (bump k acc)).
Proof.
  induction acc as [|[k0 v] rest IH]; cbn; intros Hnd.
  - apply NoDup_cons. split; [apply not_elem_of_nil | constructor].
  - apply NoDup_cons in Hnd as [Hk0 Hrest].
    destruct (String.eqb_spec k0 k) as [->|Hne]; cbn.
    + apply NoDup_cons. split; assumption.
    + apply NoDup_cons. split; [|apply IH; exact Hrest].
      intros Hin. apply list_elem_of_In in Hin.
      destruct (keys_bump_in _ _ _ Hin) as [E|Hin']; [congruence|].
      apply Hk0. apply list_elem_of_In. exact Hin'.
Qed.

(** X18: the category figures partition the list: the figure of a
    category is the number of records whose category it is (records
    without analysis count as 'Unclassified'), no category appears twice,
    the figures add up to the number of records, and the number of high
    risk records is at most that. *)
Theorem category_counts_partition (files : list ProcessedFile.t) :
  (forall cat, countOf cat (categoryCount files)
               = length (List.filter (fun f => String.eqb (categoryKey f) cat) files)) /\
  NoDup (map fst (categoryCount files)) /\
  list_sum (map snd (categoryCount files)) = length files /\
  countOf "Unclassified" (categoryCount files)
  = length (List.filter (fun f => negb (hasAnalysis f)) files) /\
  highRiskCount files <= length files.
Proof.
  unfold categoryCount.
  assert (Hgen : forall acc,
    (forall cat, countOf cat (fold_left (fun acc file => bump (categoryKey file) acc) files acc)
                 = countOf cat acc
                   + length (List.filter (fun f => String.eqb (categoryKey f) cat) files)) /\
    (NoDup (map fst acc) ->
     NoDup (map fst (fold_left (fun acc file => bump (categoryKey file) acc) files acc))) /\
    list_sum (map snd (fold_left (fun acc file => bump (categoryKey file) acc) files acc))
    = list_sum (map snd acc) + length files).
  { induction files as [|f l IH]; intros acc; cbn [fold_left List.filter length].
    - split; [intros cat; lia|]. split; [auto | lia].
    - destruct (IH (bump (categoryKey f) acc)) as (H1 & H2 & H3). split; [|split].
      + intros cat. rewrite H1, countOf_bump.
        destruct (String.eqb (categoryKey f) cat); cbn [length]; lia.
      + intros Hnd. apply H2. apply keys_bump. exact Hnd.
      + rewrite H3, sum_bump. lia. }
  destruct (Hgen []) as (H1 & H2 & H3). split; [|split; [|split; [|split]]].
  - intros cat. rewrite H1. reflexivity.
  - apply H2. constructor.
  - rewrite H3. reflexivity.
  - rewrite H1. cbn [countOf Nat.add]. f_equal. apply List.filter_ext. intros f.
    unfold categoryKey, hasAnalysis. destruct (ProcessedFile.analysis f) as [a|]; [|reflexivity].
    destruct (AnalysisResult.category a); reflexivity.
  - unfold highRiskCount. apply List.filter_length_le.
Qed.

Example category_counts_sample :
  categoryCount [Sample.record "a" (Some "Work") pending; Sample.record "b" None pending;
                 Sample.record "c" (Some "Work") approved]
  = [("01_Work", 2); ("Unclassified", 1)].
Proof. reflexivity. Qed.

(** ** Drive browser *)

Lemma last_rooted_take (n : nat) (x : FolderStackItem.t) (rest : list FolderStackItem.t) :
  exists f, last (take (S n) (x :: rest)) = Some f.
Proof.
  destruct (last (take (S n) (x :: rest))) as [f|] eqn:E; [eauto|].
  apply last_None in E. discriminate.
Qed.

Lemma browse_step (a : BrowserAction) (s : Selector.t) :
  stackRooted s ->
  fst (browse a s) = Ok tt /\ stackRooted (snd (browse a s)) /\ fetchedTop s (snd (browse a s)).
Proof.
  intros [rest Hs]. destruct s as [c fs ld sel st fe]. cbn in Hs. subst st.
  destruct a as [|folder|index| | |id isFolder|o]; cbn.
  - split; [reflexivity|]. split; [exists []; reflexivity | left; reflexivity].
  - unfold handleFolderClick, bind, gets, setFolderStack, fetchFiles, setLoadingFiles, modify.
    cbn. split; [reflexivity|]. split; [eexists; reflexivity|]. right. exists folder. cbn.
    split; [|reflexivity].
    change (rootFolder :: rest ++ [folder]) with ((rootFolder :: rest) ++ [folder]).
    apply last_snoc.
  - unfold handleBreadcrumbClick, bind, gets, setFolderStack, fetchFiles, setLoadingFiles,
      modify, topId. cbn.
    rewrite Nat.add_1_r. destruct (last_rooted_take index rootFolder rest) as [f Hf].
    rewrite Hf. cbn. split; [reflexivity|]. split; [eexists; reflexivity|]. right. exists f.
    split; [exact Hf | reflexivity].
  - unfold handleBack, bind, gets, setFolderStack, fetchFiles, setLoadingFiles, modify, topId.
    cbn. destruct rest as [|y rest']; cbn.
    + split; [reflexivity|]. split; [exists []; reflexivity | left; reflexivity].
    + destruct (last_rooted_take (length rest') rootFolder (y :: rest')) as [f Hf].
      cbn in Hf. rewrite ?Nat.sub_0_r. rewrite Hf. cbn. split; [reflexivity|].
      split; [eexists; reflexivity|]. right. exists f. split; [exact Hf | reflexivity].
  - unfold handleRefresh, bind, gets, fetchFiles, setLoadingFiles, modify, topId.
    cbn -[last].
    destruct (last_rooted_take (length rest) rootFolder rest) as [f Hf].
    rewrite firstn_all2 in Hf by (cbn; lia). rewrite Hf. cbn -[last].
    split; [reflexivity|]. split; [eexists; reflexivity|]. right. exists f.
    split; [exact Hf | reflexivity].
  - unfold handleSelection. destruct isFolder; cbn.
    + split; [reflexivity|]. split; [eexists; reflexivity | left; reflexivity].
    + split; [reflexivity|]. split; [eexists; reflexivity | left; reflexivity].
  - unfold fetchFilesSettled, bind. destruct o as [driveFiles|[|]]; cbn;
      (split; [reflexivity|]); (split; [eexists; reflexivity | left; reflexivity]).
Qed.

Lemma browseAll_rooted (l : list BrowserAction) (s : Selector.t) :
  stackRooted s -> stackRooted (browseAll l s).
Proof.
  revert s. induction l as [|a l IH]; intros s Hs; cbn; [exact Hs|].
  apply IH. apply browse_step. exact Hs.
Qed.

(** X19: in every state that the browser reaches from its initial one, by
    clicks and by listings that settle, the folder stack starts with the
    root entry (so it is never empty and there is a current folder), every
    handler returns normally, and it starts at most one listing: that of
    the folder on top of the stack after it. *)
Theorem browser_stack_stays_rooted (l : list BrowserAction) (a : BrowserAction) :
  let s := browseAll l Selector.init in
  stackRooted s /\
  fst (browse a s) = Ok tt /\
  fetchedTop s (snd (browse a s)).
Proof.
  cbn zeta. assert (Hs : stackRooted (browseAll l Selector.init)).
  { apply browseAll_rooted. exists []. reflexivity. }
  split; [exact Hs|]. destruct (browse_step a _ Hs) as (H1 & _ & H3). split; assumption.
Qed.

(** X20: opening a folder and going back restores the stack, and asks
    first for the listing of the folder and then for that of the folder
    which was current before; the selection stays, and the loading flag is
    on.  (What the listing cell holds afterwards depends on how, and in
    which order, the two listings settle.) *)
Theorem back_undoes_folder_click (folder current : FolderStackItem.t) (s : Selector.t) :
  last (Selector.folderStack s) = Some current ->
  let s' := snd (handleBack (snd (handleFolderClick folder s))) in
  Selector.folderStack s' = Selector.folderStack s /\
  Selector.fetched s'
  = Selector.fetched s ++ [FolderStackItem.id folder; FolderStackItem.id current] /\
  Selector.selectedIds s' = Selector.selectedIds s /\
  Selector.loadingFiles s' = true.
Proof.
  intros Hlast. destruct s as [c fs ld sel st fe]. cbn in Hlast.
  unfold handleFolderClick, handleBack, bind, gets, setFolderStack, fetchFiles, setLoadingFiles,
    modify, topId.
  cbn -[Nat.ltb take last length Nat.sub].
  assert (Hlen : Nat.ltb 1 (length (st ++ [folder])) = true).
  { apply Nat.ltb_lt. rewrite length_app. cbn. destruct st; [discriminate | cbn; lia]. }
  rewrite Hlen.
  assert (Htake : take (length (st ++ [folder]) - 1) (st ++ [folder]) = st).
  { rewrite length_app. cbn [length]. rewrite Nat.add_sub. apply take_app_length. }
  rewrite Htake, Hlast. cbn. rewrite <- app_assoc. cbn. repeat split; reflexivity.
Qed.

Lemma back_undoes_folder_click_sample :
  Selector.folderStack
    (snd (handleBack (snd (handleFolderClick (FolderStackItem.mk "f1" "Inbox") Selector.init))))
  = [rootFolder] /\
  Selector.fetched
    (snd (handleBack (snd (handleFolderClick (FolderStackItem.mk "f1" "Inbox") Selector.init))))
  = ["f1"; "root"].
Proof.
  destruct (back_undoes_folder_click (FolderStackItem.mk "f1" "Inbox") rootFolder Selector.init
              eq_refl) as (H1 & H2 & _).
  split; [exact H1 | exact H2].
Defined.

(** The listing cell is what the last settled listing gave: two listings
    asked for one after the other may settle in either order. *)
Example listings_settle_in_any_order :
  let a := Listed.mk "a" "a.txt" "text/plain" None "2024-01-01" None None None None in
  let b := Listed.mk "b" "b.txt" "text/plain" None "2024-01-01" None None None None in
  let clicks := [FolderClick (FolderStackItem.mk "f1" "Inbox"); Back] in
  Selector.files (browseAll (clicks ++ [ListingSettled (Listing [a]);
                                        ListingSettled (Listing [b])]) Selector.init) = [b] /\
  Selector.files (browseAll (clicks ++ [ListingSettled (Listing [b]);
                                        ListingSettled (Listing [a])]) Selector.init) = [a] /\
  Selector.isConnected (browseAll (clicks ++ [ListingSettled (ListingRejected true)])
                                  (snd (setIsConnected true Selector.init))) = false.
Proof. repeat split; reflexivity. Qed.

Lemma toggle_twice (id : string) (X : gset string) :
  (if bool_decide (id ∈ (if bool_decide (id ∈ X) then X ∖ {[ id ]} else X ∪ {[ id ]}))
   then (if bool_decide (id ∈ X) then X ∖ {[ id ]} else X ∪ {[ id ]}) ∖ {[ id ]}
   else (if bool_decide (id ∈ X) then X ∖ {[ id ]} else X ∪ {[ id ]}) ∪ {[ id ]}) = X.
Proof.
  destruct (bool_decide (id ∈ X)) eqn:E.
  - apply bool_decide_eq_true in E. rewrite bool_decide_eq_false_2.
    + apply set_eq. intros x.
      rewrite elem_of_union, elem_of_difference, !elem_of_singleton.
      destruct (decide (x = id)) as [->|Hne]; tauto.
    + rewrite elem_of_difference, elem_of_singleton. tauto.
  - apply bool_decide_eq_false in E. rewrite bool_decide_eq_true_2.
    + apply set_eq. intros x.
      rewrite elem_of_difference, elem_of_union, !elem_of_singleton.
      destruct (decide (x = id)) as [->|Hne]; tauto.
    + rewrite elem_of_union, elem_of_singleton. tauto.
Qed.

(** X21: a click on a file toggles its identifier in the selection and
    nothing else: the other identifiers and the other cells stay, and a
    second click on the same file restores the state.  A click handled as
    one on a folder changes nothing. *)
Theorem selection_click_toggles (id : string) (s : Selector.t) :
  let s' := snd (handleSelection id false s) in
  (id ∈ Selector.selectedIds s' <-> id ∉ Selector.selectedIds s) /\
  (forall x, x <> id -> (x ∈ Selector.selectedIds s' <-> x ∈ Selector.selectedIds s)) /\
  Selector.files s' = Selector.files s /\
  Selector.folderStack s' = Selector.folderStack s /\
  Selector.fetched s' = Selector.fetched s /\
  snd (handleSelection id false s') = s /\
  handleSelection id true s = (Ok tt, s) /\
  Selector.isConnected s' = Selector.isConnected s /\
  Selector.loadingFiles s' = Selector.loadingFiles s.
Proof.
  destruct s as [c fs ld sel st fe].
  unfold handleSelection, bind, gets, setSelectedIds, modify. cbn.
  split; [|split; [|repeat split]].
  - destruct (bool_decide (id ∈ sel)) eqn:E.
    + apply bool_decide_eq_true in E. rewrite elem_of_difference, elem_of_singleton. tauto.
    + apply bool_decide_eq_false in E. rewrite elem_of_union, elem_of_singleton. tauto.
  - intros x Hx. destruct (bool_decide (id ∈ sel)).
    + rewrite elem_of_difference, elem_of_singleton. tauto.
    + rewrite elem_of_union, elem_of_singleton. tauto.
  - f_equal. apply toggle_twice.
Qed.

(** X22: moving between folders, refreshing, switching the account and the
    settling of listings never change the selection: identifiers selected
    in one folder stay selected in the next. *)
Theorem navigation_keeps_selection (l : list BrowserAction) (s : Selector.t) :
  forallb (fun a => negb (isSelect a)) l = true ->
  Selector.selectedIds (browseAll l s) = Selector.selectedIds s.
Proof.
  revert s. induction l as [|a l IH]; intros s Hl; cbn; [reflexivity|].
  cbn in Hl. apply andb_true_iff in Hl as [Ha Hl]. rewrite IH by exact Hl.
  destruct s as [c fs ld sel st fe].
  destruct a as [|folder|index| | |id isFolder|o]; try discriminate;
    cbn -[Nat.ltb take last length Nat.sub Nat.add].
  - reflexivity.
  - reflexivity.
  - unfold handleBreadcrumbClick, bind, gets, setFolderStack, fetchFiles, setLoadingFiles,
      modify, topId.
    cbn -[Nat.ltb take last length Nat.sub Nat.add].
    destruct (last (take (index + 1) st)); reflexivity.
  - unfold handleBack, bind, gets, setFolderStack, fetchFiles, setLoadingFiles, modify, topId.
    cbn -[Nat.ltb take last length Nat.sub Nat.add].
    destruct (Nat.ltb 1 (length st)); [|reflexivity].
    destruct (last (take (length st - 1) st)); reflexivity.
  - unfold handleRefresh, bind, gets, fetchFiles, setLoadingFiles, modify, topId.
    cbn -[Nat.ltb take last length Nat.sub Nat.add].
    destruct (last st); reflexivity.
  - destruct o as [driveFiles|[|]]; reflexivity.
Qed.

Lemma navigation_keeps_selection_sample :
  Selector.selectedIds
    (browseAll [Select "a" false; FolderClick (FolderStackItem.mk "f1" "Inbox"); SwitchAccount]
               Selector.init)
  = {[ "a" ]}.
Proof.
  change (Selector.selectedIds
            (browseAll [FolderClick (FolderStackItem.mk "f1" "Inbox"); SwitchAccount]
                       (snd (handleSelection "a" false Selector.init))) = {[ "a" ]}).
  rewrite (navigation_keeps_selection
             [FolderClick (FolderStackItem.mk "f1" "Inbox"); SwitchAccount] _ eq_refl).
  cbn. rewrite bool_decide_eq_false_2 by apply not_elem_of_empty. apply (left_id_L ∅ (∪)).
Defined.

Lemma substring0_length (n : nat) (s : string) : String.length (Js.substring0 n s) <= n.
Proof.
  revert s. induction n as [|n IH]; intros s; [cbn; lia|].
  destruct s as [|c r]; cbn; [lia|]. specialize (IH r). lia.
Qed.

Section ContentExtras.
Variable Store : Type.
Variable files_export : string -> Store -> Result string * Store.
Variable files_get : string -> Store -> Result string * Store.
Variable parseInt : string -> Z.
Variable Date_getTime : string -> Z.

Lemma getFileContent_run (fileId mimeType : string) (s : Store * list ContentRequest) :
  exists content w,
    getFileContent Store files_export files_get true fileId mimeType s
    = (Ok content, (w, snd s ++ contentRequest fileId mimeType)).
Proof.
  destruct s as [w0 tr]. unfold getFileContent, contentRequest, tryCatch, callExport, callMedia.
  cbn [negb fst snd].
  destruct (JsStr.startsWith _ mimeType).
  - destruct (JsStr.includes "document" mimeType); cbn [fst snd].
    + destruct (files_export fileId w0) as [[c|e] w]; eexists _, _; reflexivity.
    + eexists _, _. unfold ret. rewrite app_nil_r. reflexivity.
  - destruct (_ || _); cbn [fst snd].
    + destruct (files_get fileId w0) as [[c|e] w]; eexists _, _; reflexivity.
    + eexists _, _. unfold ret. rewrite app_nil_r. reflexivity.
Qed.

(** X23: once the client library is initialised, reading the content of a
    listed file never throws: a rejected request gives the text
    '[Content Access Error]'.  It sends at most one request, an export for
    a Google document and a download for a text, JSON or JavaScript file;
    for every other type it sends none and leaves the store alone.  Before
    initialisation it throws without sending anything. *)
Theorem content_read_never_throws_once_initialised (fileId mimeType : string)
    (s : Store * list ContentRequest) :
  let out := getFileContent Store files_export files_get true fileId mimeType s in
  (exists content, fst out = Ok content) /\
  snd (snd out) = snd s ++ contentRequest fileId mimeType /\
  length (contentRequest fileId mimeType) <= 1 /\
  (contentRequest fileId mimeType = [] -> snd out = s) /\
  (forall e w, contentRequest fileId mimeType = [ReqExport fileId] ->
               files_export fileId (fst s) = (Throw e, w) ->
               fst out = Ok "[Content Access Error]") /\
  (forall e w, contentRequest fileId mimeType = [ReqMedia fileId] ->
               files_get fileId (fst s) = (Throw e, w) ->
               fst out = Ok "[Content Access Error]") /\
  getFileContent Store files_export files_get false fileId mimeType s
  = (Throw (Error "GAPI not initialized"), s).
Proof.
  cbn zeta. destruct (getFileContent_run fileId mimeType s) as (content & w & Hrun).
  split; [rewrite Hrun; eauto|]. split; [rewrite Hrun; reflexivity|].
  destruct s as [w0 tr].
  unfold getFileContent, contentRequest, tryCatch, callExport, callMedia in *.
  cbn [negb fst snd] in *.
  destruct (JsStr.startsWith _ mimeType).
  - destruct (JsStr.includes "document" mimeType); cbn [fst snd].
    + split; [cbn; lia|]. split; [discriminate|]. split; [|split; [discriminate | reflexivity]].
      intros e w' _ He. rewrite He. reflexivity.
    + split; [cbn; lia|]. split; [reflexivity|]. split; [discriminate|].
      split; [discriminate | reflexivity].
  - destruct (_ || _); cbn [fst snd].
    + split; [cbn; lia|]. split; [discriminate|]. split; [discriminate|]. split; [|reflexivity].
      intros e w' _ He. rewrite He. reflexivity.
    + split; [cbn; lia|]. split; [reflexivity|]. split; [discriminate|].
      split; [discriminate | reflexivity].
Qed.

Example content_requests_sample :
  contentRequest "f" "application/vnd.google-apps.document" = [ReqExport "f"] /\
  contentRequest "f" "application/vnd.google-apps.folder" = [] /\
  contentRequest "f" "application/vnd.google-apps.spreadsheet" = [] /\
  contentRequest "f" "text/plain" = [ReqMedia "f"] /\
  contentRequest "f" "application/json" = [ReqMedia "f"] /\
  contentRequest "f" "image/png" = [].
Proof. repeat split; reflexivity. Qed.

Lemma readSelected_run (selectedFiles : list Listed.t) (acc : list DriveFile.t)
    (s : Store * list ContentRequest) :
  exists out w,
    readSelected Store files_export files_get true parseInt Date_getTime selectedFiles acc s
    = (Ok (acc ++ out),
       (w, snd s ++ concat (map (fun f => contentRequest (Listed.id f) (Listed.mimeType f))
                                selectedFiles))) /\
    Forall2 describes selectedFiles out.
Proof.
  revert acc s. induction selectedFiles as [|f rest IH]; intros acc s.
  - exists [], (fst s). cbn. rewrite !app_nil_r. destruct s; split; [reflexivity | constructor].
  - cbn [readSelected map concat]. unfold bind.
    destruct (getFileContent_run (Listed.id f) (Listed.mimeType f) s) as (content & w & Hrun).
    rewrite Hrun.
    destruct (IH (acc ++ [describeListed parseInt Date_getTime f content])
                 (w, snd s ++ contentRequest (Listed.id f) (Listed.mimeType f)))
      as (out & w' & Hrest & Hall).
    exists (describeListed parseInt Date_getTime f content :: out), w'.
    cbn [snd] in Hrest. rewrite Hrest. rewrite <- !app_assoc. split; [reflexivity|].
    constructor; [|exact Hall].
    unfold describes, describeListed.
    cbn [DriveFile.id DriveFile.name DriveFile.type DriveFile.parents DriveFile.webViewLink
         DriveFile.iconLink DriveFile.thumbnailLink DriveFile.contentSnippet].
    repeat split; try reflexivity.
    eexists. split; [reflexivity | apply substring0_length].
Qed.

(** X24: with the client library initialised, 'Analyze Selected' never
    throws.  With an empty selection it hands nothing on.  Otherwise it
    hands on one descriptor for every listed file whose identifier is
    selected, in the order of the listing, each with the listing's
    identifier, name, type, links and parents and a snippet of at most 1000
    characters; selected identifiers that are not in the listing are
    dropped, so there are at most as many descriptors as listed files; and
    the requests sent are those of reading each such file once, in order. *)
Theorem analyze_selection_hands_on_listed_selected (sel : Selector.t)
    (s : Store * list ContentRequest) :
  let out := handleAnalyzeSelection Store files_export files_get true parseInt Date_getTime
               sel s in
  let chosen := List.filter (fun f => bool_decide (Listed.id f ∈ Selector.selectedIds sel))
                            (Selector.files sel) in
  (Selector.selectedIds sel = ∅ -> out = (Ok None, s)) /\
  (Selector.selectedIds sel <> ∅ ->
   exists processed,
     fst out = Ok (Some processed) /\
     Forall2 describes chosen processed /\
     map DriveFile.id processed = map Listed.id chosen /\
     length processed <= length (Selector.files sel) /\
     snd (snd out)
     = snd s ++ concat (map (fun f => contentRequest (Listed.id f) (Listed.mimeType f)) chosen)).
Proof.
  cbn zeta. unfold handleAnalyzeSelection. split.
  - intros ->. rewrite size_empty. reflexivity.
  - intros Hne. destruct (Nat.eqb_spec (size (Selector.selectedIds sel)) 0) as [E|_].
    { apply size_empty_inv in E. apply leibniz_equiv in E. contradiction. }
    unfold bind.
    destruct (readSelected_run
                (List.filter (fun f => bool_decide (Listed.id f ∈ Selector.selectedIds sel))
                             (Selector.files sel)) [] s) as (out & w & Hrun & Hall).
    rewrite Hrun. cbn. exists out. split; [reflexivity|]. split; [exact Hall|].
    split; [|split; [|reflexivity]].
    + clear -Hall. induction Hall as [|f d l l' (Hid & _) _ IH]; [reflexivity|].
      cbn. rewrite Hid, IH. reflexivity.
    + rewrite <- (Forall2_length _ _ _ Hall). apply List.filter_length_le.
Qed.

Lemma NoDup_map_filter {A} (g : A -> string) (p : A -> bool) (l : list A) :
  NoDup (map g l) -> NoDup (map g (List.filter p l)).
Proof.
  induction l as [|x l IH]; cbn; intros Hnd; [constructor|].
  apply NoDup_cons in Hnd as [Hx Hl]. destruct (p x); cbn; [|apply IH; exact Hl].
  apply NoDup_cons. split; [|apply IH; exact Hl].
  intros Hin. apply Hx. apply list_elem_of_In in Hin. apply list_elem_of_In.
  apply in_map_iff in Hin as (y & Hy & Hin). apply in_map_iff. exists y. split; [exact Hy|].
  apply List.filter_In in Hin. tauto.
Qed.

(** X25: a selection made in the browser is well formed: when the
    identifiers of the listing are pairwise distinct, so are those of the
    descriptors handed on for analysis. *)
Theorem browser_selection_is_wellFormed (sel : Selector.t) (s : Store * list ContentRequest)
    (processed : list DriveFile.t) (analyze : Result (list AnalysisResult.t)) :
  NoDup (map Listed.id (Selector.files sel)) ->
  fst (handleAnalyzeSelection Store files_export files_get true parseInt Date_getTime sel s)
  = Ok (Some processed) ->
  wellFormed (SelectFiles processed analyze).
Proof.
  intros Hnd Hrun. cbn. unfold handleAnalyzeSelection in Hrun.
  destruct (Nat.eqb (size (Selector.selectedIds sel)) 0); [discriminate|].
  unfold bind in Hrun.
  destruct (readSelected_run
              (List.filter (fun f => bool_decide (Listed.id f ∈ Selector.selectedIds sel))
                           (Selector.files sel)) [] s) as (out & w & Hrun' & Hall).
  rewrite Hrun' in Hrun. cbn in Hrun. injection Hrun as <-.
  assert (Hids : map DriveFile.id out
                 = map Listed.id (List.filter
                     (fun f => bool_decide (Listed.id f ∈ Selector.selectedIds sel))
                     (Selector.files sel))).
  { clear -Hall. induction Hall as [|f d l l' (Hid & _) _ IH]; [reflexivity|].
    cbn. rewrite Hid, IH. reflexivity. }
  rewrite Hids. apply NoDup_map_filter. exact Hnd.
Qed.

End ContentExtras.

(** X25 on a listing of two files of which the second is selected, together
    with an identifier that the listing does not hold. *)
Lemma browser_selection_is_wellFormed_sample :
  wellFormed
    (SelectFiles
       [DriveFile.mk "b" "b.txt" 0 "text/plain" (Some "body") 0 None None None (Some ["root"])]
       (Ok [])).
Proof.
  apply (browser_selection_is_wellFormed unit
           (fun _ w => (Ok "body", w)) (fun _ w => (Ok "body", w))
           (fun _ => 0%Z) (fun _ => 0%Z)
           (Selector.mk true
              [Listed.mk "a" "a.png" "image/png" None "2024-01-01" None None None None;
               Listed.mk "b" "b.txt" "text/plain" (Some "4") "2024-01-01" None None None
                         (Some ["root"])]
              false {[ "b"; "gone" ]} [rootFolder] [])
           (tt, [])).
  - apply NoDup_strings. vm_compute. reflexivity.
  - vm_compute. reflexivity.
Defined.

(** ** Local files *)

Lemma describeLocal_uploaded (file : LocalFile.t) (id : string) :
  uploaded file (describeLocal file id).
Proof.
  unfold uploaded, describeLocal, readSnippet.
  cbn [DriveFile.name DriveFile.size DriveFile.lastModified DriveFile.type DriveFile.parents
       DriveFile.contentSnippet].
  split; [reflexivity|]. split; [reflexivity|]. split; [reflexivity|].
  split; [|split; [|split; [reflexivity|]]].
  - destruct (Js.truthy (LocalFile.type file)) eqn:E; [|discriminate].
    apply truthy_nonempty. exact E.
  - intros Hne. apply truthy_nonempty in Hne. rewrite Hne. reflexivity.
  - destruct (textLike (LocalFile.type file)); [|left; reflexivity].
    destruct (LocalFile.text file) as [text|e]; [|right; reflexivity].
    split; [reflexivity|]. split; [apply substring0_length|]. exists text. split; reflexivity.
Qed.

Section UploadExtras.
Variable randomId : nat -> string.

Lemma readLocal_run (files : list LocalFile.t) (acc : list DriveFile.t) (n : nat) :
  exists out,
    readLocal randomId files acc n = (Ok (acc ++ out), n + length files) /\
    Forall2 uploaded files out /\
    map DriveFile.id out = map randomId (seq n (length files)).
Proof.
  revert acc n. induction files as [|file rest IH]; intros acc n.
  - exists []. cbn. rewrite app_nil_r, Nat.add_0_r. repeat split. constructor.
  - cbn [readLocal]. unfold bind, drawId.
    destruct (IH (acc ++ [describeLocal file (randomId n)]) (S n)) as (out & Hrun & Hall & Hids).
    exists (describeLocal file (randomId n) :: out). rewrite Hrun, <- app_assoc.
    cbn [length seq map app]. rewrite Hids. replace (S n + length rest) with (n + S (length rest)) by lia.
    split; [reflexivity|]. split; [|reflexivity].
    constructor; [apply describeLocal_uploaded | exact Hall].
Qed.

(** X26: choosing local files never throws.  Without files nothing is
    handed on.  Otherwise one descriptor per file is handed on, in order,
    with the file's name, size and date and no parents; its type is the
    file's, or 'unknown' for an empty one, so it is never empty; it has a
    snippet only when the type is text-like and the file could be read, and
    then it is the first 500 characters at most; and the identifiers are
    the next random draws, one per file. *)
Theorem upload_hands_on_one_descriptor_per_file (files : option (list LocalFile.t)) (n : nat) :
  let out := handleFileChange randomId files n in
  (files = None \/ files = Some [] -> out = (Ok None, n)) /\
  (forall l, files = Some l -> l <> [] ->
     exists newFiles,
       out = (Ok (Some newFiles), n + length l) /\
       Forall2 uploaded l newFiles /\
       map DriveFile.id newFiles = map randomId (seq n (length l))).
Proof.
  cbn zeta. split.
  - intros [->| ->]; reflexivity.
  - intros l -> Hne. unfold handleFileChange.
    destruct l as [|file rest]; [contradiction|]. cbn [length Nat.ltb Nat.leb]. unfold bind.
    destruct (readLocal_run (file :: rest) [] n) as (out & Hrun & Hall & Hids).
    rewrite Hrun. exists out. split; [reflexivity|]. split; assumption.
Qed.

End UploadExtras.

Example upload_sample :
  fst (handleFileChange (fun n => pretty n)
         (Some [LocalFile.mk "notes.md" 12 "text/markdown" 0 (Ok "remember");
                LocalFile.mk "blob" 3 "" 0 (Ok "xyz");
                LocalFile.mk "data.json" 9 "application/json" 0 (Throw (Error "unreadable"))])
         0)
  = Ok (Some [DriveFile.mk "0" "notes.md" 12 "text/markdown" (Some "remember") 0
                           None None None None;
              DriveFile.mk "1" "blob" 3 "unknown" None 0 None None None None;
              DriveFile.mk "2" "data.json" 9 "application/json" None 0 None None None None]).
Proof. vm_compute. reflexivity. Qed.

(** ** The stored session *)

Lemma pageStep_keyStored (a : PageAction) (p : Page.t) :
  keyStored p -> keyStored (pageStep a p).
Proof.
  intros [Hkey Hstored]. destruct p as [input app store]. cbn in Hkey, Hstored.
  destruct a as [text| | |]; cbn.
  - split; assumption.
  - unfold handleLogin. cbn [Page.inputKey Page.app Page.localStorage].
    destruct (Nat.ltb 10 (String.length (Js.trim input))) eqn:E; [|split; assumption].
    apply Nat.ltb_lt in E. split; cbn.
    + rewrite lookup_insert_eq. reflexivity.
    + intros k. rewrite lookup_insert_eq. intros [= <-]. split; [exact E | apply trim_idem].
  - split; cbn.
    + rewrite lookup_delete_eq. reflexivity.
    + intros k. rewrite lookup_delete_eq. discriminate.
  - unfold mount. destruct (store !! "gemini_api_key") as [k|] eqn:Ek.
    + destruct (Hstored k eq_refl) as [Hlen Htrim].
      assert (Ht : Js.truthy k = true).
      { apply truthy_nonempty. intros ->. cbn in Hlen. lia. }
      rewrite Ht. split; cbn; [symmetry; exact Ek|]. intros k'. rewrite Ek. exact (Hstored k').
    + split; cbn; [symmetry; exact Ek|]. intros k'. rewrite Ek. discriminate.
Qed.

(** X27: from a first visit on, whatever is typed, submitted, logged out or
    reloaded, the key of the page is exactly the stored one, and a stored
    key is trimmed and longer than ten characters.  Hence a reload keeps
    the key and loses the review list, and a log-out followed by a reload
    asks for the key again. *)
Theorem api_key_mirrors_storage (l : list PageAction) :
  let p := pageRun l (mount ∅) in
  keyStored p /\
  App.apiKey (Page.app (pageStep Reload p)) = App.apiKey (Page.app p) /\
  App.files (Page.app (pageStep Reload p)) = [] /\
  App.apiKey (Page.app (pageStep Reload (pageStep Logout p))) = None.
Proof.
  cbn zeta.
  assert (Hinv : forall l p, keyStored p -> keyStored (pageRun l p)).
  { clear. intros l. induction l as [|a l IH]; intros p Hp; [exact Hp|].
    cbn. apply IH. apply pageStep_keyStored. exact Hp. }
  assert (Hp : keyStored (pageRun l (mount ∅))).
  { apply Hinv. split; cbn; [reflexivity|]. intros k. rewrite lookup_empty. discriminate. }
  split; [exact Hp|].
  pose proof (pageStep_keyStored Reload _ Hp) as [Hr _].
  pose proof (pageStep_keyStored Reload _ (pageStep_keyStored Logout _ Hp)) as [Hlo _].
  destruct Hp as [Hkey _]. split; [|split].
  - rewrite Hr, Hkey. reflexivity.
  - cbn. unfold mount. destruct (_ !! _) as [k|]; [destruct (Js.truthy k)|]; reflexivity.
  - rewrite Hlo. cbn. apply lookup_delete_eq.
Qed.

Example login_sample :
  App.apiKey (Page.app (pageRun [TypeKey "  AIza-0123456789  "; SubmitLogin; Reload] (mount ∅)))
  = Some "AIza-0123456789" /\
  App.apiKey (Page.app (pageRun [TypeKey " short "; SubmitLogin] (mount ∅))) = None.
Proof. vm_compute. split; reflexivity. Qed.

(** ** Classification gateway: payloads that follow the schema *)

Lemma objSet_own (key : string) (v : json) (fields : list (string * json)) :
  objGet key fields = Some v ->
  objSet key (Some v) (map (fun kv => (fst kv, Some (snd kv))) fields)
  = map (fun kv => (fst kv, Some (snd kv))) fields.
Proof.
  induction fields as [|[k v0] rest IH]; cbn; [discriminate|].
  destruct (String.eqb k key); [intros [= ->]; reflexivity|].
  intros H. rewrite (IH H). reflexivity.
Qed.

Lemma mapResult_conforming (r : json) :
  itemConforms r = true -> mapResult r = Ok (spread r).
Proof.
  destruct r as [| | | | |fields]; try discriminate. unfold itemConforms, mapResult.
  destruct (objGet "category" fields) as [v|] eqn:E.
  - intros _. cbn [spread]. rewrite (objSet_own _ _ _ E). reflexivity.
  - cbn. rewrite andb_false_r. discriminate.
Qed.

Lemma mapAll_conforming (items : list json) :
  forallb itemConforms items = true -> mapAll mapResult items = Ok (map spread items).
Proof.
  induction items as [|r rest IH]; [reflexivity|]. cbn [forallb mapAll map].
  intros H. apply andb_true_iff in H as [Hr Hrest].
  rewrite (mapResult_conforming r Hr), (IH Hrest). reflexivity.
Qed.

(** X28: a parsed payload that follows the response schema goes through the
    mapping step unchanged: the result is the list of the payload's objects,
    one per item and in order, each with exactly its own keys and values
    (the step neither adds, drops, reorders nor rewrites a key). *)
Theorem conforming_payload_is_returned_as_is (results : json) :
  conformsToSchema results = true ->
  exists items,
    results = JArr items /\
    mapResults results = Ok (map spread items) /\
    Forall2 (fun r o => exists fields,
                          r = JObj fields /\
                          o = map (fun kv => (fst kv, Some (snd kv))) fields)
            items (map spread items).
Proof.
  destruct results as [| | | |items|]; try discriminate. cbn [conformsToSchema].
  intros H. exists items. split; [reflexivity|]. split; [apply mapAll_conforming; exact H|].
  apply Forall2_fmap_r. apply Forall_Forall2_diag. apply List.Forall_forall. intros r Hr.
  rewrite forallb_forall in H. specialize (H r Hr).
  destruct r as [| | | | |fields]; try discriminate. exists fields. split; reflexivity.
Qed.

Lemma conforming_payload_is_returned_as_is_sample :
  mapResults
    (JArr [JObj [("fileId", JStr "f1"); ("category", JStr "01_Work");
                 ("suggestedPath", JStr "Work/2024"); ("suggestedName", JStr "Plan.txt");
                 ("shouldArchive", JBool false); ("sensitivity", JStr "Normal");
                 ("reasoning", JStr "by content")]])
  = Ok [[("fileId", Some (JStr "f1")); ("category", Some (JStr "01_Work"));
         ("suggestedPath", Some (JStr "Work/2024")); ("suggestedName", Some (JStr "Plan.txt"));
         ("shouldArchive", Some (JBool false)); ("sensitivity", Some (JStr "Normal"));
         ("reasoning", Some (JStr "by content"))]].
Proof.
  destruct (conforming_payload_is_returned_as_is
              (JArr [JObj [("fileId", JStr "f1"); ("category", JStr "01_Work");
                           ("suggestedPath", JStr "Work/2024");
                           ("suggestedName", JStr "Plan.txt");
                           ("shouldArchive", JBool false); ("sensitivity", JStr "Normal");
                           ("reasoning", JStr "by content")]]) eq_refl)
    as (items & Hitems & Hrun & _).
  injection Hitems as <-. exact Hrun.
Defined.

(** ** The parents that a move removes *)

(** X29: when a move is requested for a file with parents, the
    [removeParents] value lists exactly the current parents, in order and
    separated by commas (none of them holding a comma), and the request adds
    the one target. *)
Theorem move_removes_every_current_parent (fid newName target : string) (ps : list string) :
  target <> "" -> target <> "root" -> ~ In target ps -> ps <> [] ->
  Forall (fun p => occurs "," p = false) ps ->
  let params := updateParams fid newName (Some ps) (Some target) in
  addParents params = Some target /\
  exists removed, removeParents params = Some removed /\ Js.split "," removed = ps.
Proof.
  intros Ht Hroot Hin Hne Hcomma. cbn zeta. unfold updateParams.
  apply truthy_nonempty in Ht. rewrite Ht.
  destruct (String.eqb_spec target "root") as [|_]; [contradiction|]. cbn [negb andb].
  apply includes_not_In in Hin. rewrite Hin. cbn [negb].
  destruct ps as [|p ps']; [contradiction|]. cbn [length Nat.ltb Nat.leb addParents removeParents].
  split; [reflexivity|]. eexists. split; [reflexivity|].
  apply (split_join "," (p :: ps')); assumption.
Qed.

Lemma move_removes_every_current_parent_sample :
  addParents (updateParams "f1" "Plan.txt" (Some ["inbox"; "shared"]) (Some "folder-7"))
  = Some "folder-7" /\
  exists removed,
    removeParents (updateParams "f1" "Plan.txt" (Some ["inbox"; "shared"]) (Some "folder-7"))
    = Some removed /\ Js.split "," removed = ["inbox"; "shared"].
Proof.
  apply (move_removes_every_current_parent "f1" "Plan.txt" "folder-7" ["inbox"; "shared"]).
  - discriminate.
  - discriminate.
  - intros [H|[H|[]]]; discriminate.
  - discriminate.
  - constructor; [reflexivity|]. constructor; [reflexivity|]. constructor.
Defined.
